(** * Organization Management Service: tenant region lifecycle

  A shallow embedding of [app/main.py]: the slug derivation, the
  document store the handlers talk to, the five request handlers as
  programs over storage operations, and the properties of the
  lifecycle (create, fetch, rename, delete, login). *)

From Stdlib Require Import ZArith Ascii.
From stdpp Require Import base option list strings gmap pretty.

Local Open Scope Z_scope.

(** ** Python strings

  A Python [str] is modelled as a [string] whose characters are ASCII
  code points.  Bytes above 127 stand for no Unicode text: they are
  neither letters, digits nor white space in the functions below. *)

Module Py.

Definition code (c : ascii) : N := N_of_ascii c.

Definition between (lo hi : N) (c : ascii) : bool :=
  ((lo <=? code c) && (code c <=? hi))%N.

Definition is_upper (c : ascii) : bool := between 65 90 c.
Definition is_lower (c : ascii) : bool := between 97 122 c.
Definition is_digit (c : ascii) : bool := between 48 57 c.

(** [str.isspace] on ASCII: TAB..CR, FS..US and SPACE. *)
Definition is_space (c : ascii) : bool :=
  between 9 13 c || between 28 32 c.

Definition lower_char (c : ascii) : ascii :=
  if is_upper c then ascii_of_N (code c + 32) else c.

(** [s.lower()] *)
Fixpoint lower (s : string) : string :=
  match s with
  | EmptyString => EmptyString
  | String c r => String (lower_char c) (lower r)
  end.

(** [s.lstrip(chars)], [s.rstrip(chars)] and [s.strip(chars)], the set
    of characters given as a predicate. *)
Fixpoint lstrip (p : ascii -> bool) (s : string) : string :=
  match s with
  | EmptyString => EmptyString
  | String c r => if p c then lstrip p r else s
  end.

Fixpoint rstrip (p : ascii -> bool) (s : string) : string :=
  match s with
  | EmptyString => EmptyString
  | String c r =>
      match rstrip p r with
      | EmptyString => if p c then EmptyString else String c EmptyString
      | r' => String c r'
      end
  end.

Definition strip_chars (p : ascii -> bool) (s : string) : string :=
  lstrip p (rstrip p s).

(** [s.strip()] *)
Definition strip (s : string) : string := strip_chars is_space s.

(** [re.sub] of a character class by the empty string: every character of
    the class is deleted. *)
Fixpoint delete_chars (p : ascii -> bool) (s : string) : string :=
  match s with
  | EmptyString => EmptyString
  | String c r => if p c then delete_chars p r else String c (delete_chars p r)
  end.

(** [re.sub("[...]+", "-", s)] for a character class: every maximal run
    of characters of the class becomes one hyphen.  [in_run] tells that
    the previous character belonged to the class. *)
Fixpoint runs_to_dash (p : ascii -> bool) (in_run : bool) (s : string) : string :=
  match s with
  | EmptyString => EmptyString
  | String c r =>
      if p c
      then if in_run then runs_to_dash p true r
           else String "-" (runs_to_dash p true r)
      else String c (runs_to_dash p false r)
  end.

(** Every character of [s] satisfies [q]. *)
Fixpoint allc (q : ascii -> bool) (s : string) : bool :=
  match s with
  | EmptyString => true
  | String c r => q c && allc q r
  end.

(** Python truthiness of an [Optional[str]]. *)
Definition truthy (o : option string) : bool :=
  match o with
  | Some EmptyString | None => false
  | Some _ => true
  end.

End Py.

(** ** The slug deriver *)

Module Slug.

Import Py.

Definition is_quote (c : ascii) : bool := Ascii.eqb c "'".
Definition is_dash (c : ascii) : bool := Ascii.eqb c "-".
Definition is_comma (c : ascii) : bool := Ascii.eqb c ",".

(** The complement of [[-a-zA-Z0-9]]. *)
Definition disallowed (c : ascii) : bool :=
  negb (is_dash c || is_lower c || is_upper c || is_digit c).

(** [NUMBERS_PATTERN = (?<=\d),(?=\d)] replaced by the empty string: a
    comma is deleted when the characters before and after it in the
    text are digits. *)
Definition next_is_digit (s : string) : bool :=
  match s with
  | EmptyString => false
  | String c _ => is_digit c
  end.

Fixpoint cleanup_numbers (prev_digit : bool) (s : string) : string :=
  match s with
  | EmptyString => EmptyString
  | String c r =>
      if is_comma c && prev_digit && next_is_digit r
      then cleanup_numbers false r
      else String c (cleanup_numbers (is_digit c) r)
  end.

(** Modelled from the spec: [slugify], imported from the third-party
    package python-slugify, which is not part of the source tree.
    Section 4.1 describes it: lower-case, transliterate to ASCII,
    replace runs of white space and punctuation by single hyphens.  The
    definition follows the package's default pipeline on ASCII text
    that holds no HTML character reference, step by step:
    quote runs to hyphens, lower-casing, deletion of remaining quotes,
    deletion of commas between digits, runs of characters outside
    [[-a-zA-Z0-9]] to hyphens, runs of hyphens to one hyphen, and
    hyphens stripped at both ends.  Transliteration is the identity on
    ASCII. *)
Definition slugify (text : string) : string :=
  let text := runs_to_dash is_quote false text in
  let text := lower text in
  let text := delete_chars is_quote text in
  let text := cleanup_numbers false text in
  let text := runs_to_dash disallowed false text in
  let text := runs_to_dash is_dash false text in
  strip_chars is_dash text.

(** The class [[^a-z0-9\-]] of [slugify_org]. *)
Definition not_slug_char (c : ascii) : bool :=
  negb (is_lower c || is_digit c || is_dash c).

(** The slug without its namespace tag: the text [slugify_org] puts
    after ["org_"]. *)
Definition slug_body (name : string) : string :=
  let s := slugify name in
  delete_chars not_slug_char (lower s).

Definition slugify_org (name : string) : string :=
  "org_" +:+ slug_body name.

(** The shape of a slug body: only characters of [[a-z0-9-]], no two
    hyphens in a row, no hyphen at either end. *)
Definition slug_char (c : ascii) : bool := negb (not_slug_char c).

Fixpoint no_double_dash (prev_dash : bool) (s : string) : bool :=
  match s with
  | EmptyString => true
  | String c r =>
      if is_dash c then negb prev_dash && no_double_dash true r
      else no_double_dash false r
  end.

Definition slug_shaped (o : string) : Prop :=
  allc slug_char o = true /\ no_double_dash false o = true /\
  lstrip is_dash o = o /\ rstrip is_dash o = o.

End Slug.

(** ** The document store

  The master database holds the [organizations] and [admins]
  collections and one collection per tenant.  Tenant collections are
  named by slugs, which start with ["org_"], so they never coincide
  with the two directories; the model keeps the directories in fields
  of their own and the tenant collections in a map by name.  A
  collection is the list of its documents in natural order. *)

Module Store.

(** [ObjectId]: a numeric stand-in; [oid_str] is [str(_id)]. *)
Definition ObjectId := N.
Definition oid_str (o : ObjectId) : string := pretty o.

(** [datetime], in whole seconds. *)
Definition datetime := Z.

Record OrgFields := mkOrgFields {
  organization_name : string;
  slug : string;
  collection_name : string;
  connection_details : string * string;
  created_at : datetime;
  updated_at : datetime;
  admin_user_id : option string }.

Record OrgDoc := mkOrgDoc { org_id : ObjectId; org_fields : OrgFields }.

Record AdminDoc := mkAdminDoc {
  admin_id : string;
  email : string;
  password_hash : string;
  organization_id : string;
  role : string;
  admin_created_at : datetime;
  admin_updated_at : option datetime }.

(** A tenant document: the sentinel written at creation, or tenant data. *)
Inductive Body :=
| Meta (created : datetime) (schema_version : Z)
| Data (content : string).

Record Doc := mkDoc { doc_id : ObjectId; doc_body : Body }.

(** The entries of a [$set] update, in the order of the Python dict. *)
Inductive OrgSet :=
| SetOrganizationName (v : string)
| SetSlug (v : string)
| SetCollectionName (v : string)
| SetUpdatedAt (v : datetime)
| SetAdminUserId (v : string).

Inductive AdminSet :=
| SetEmail (v : string)
| SetPasswordHash (v : string)
| SetAdminUpdatedAt (v : datetime).

Inductive AdminFilter :=
| ById (v : string)
| ByEmail (v : string)
| ByOrganizationId (v : string).

(** The state the handlers share: the two directories, the tenant
    collections, and the wall clock [datetime.utcnow()] reads. *)
Record World := mkWorld {
  orgs : list OrgDoc;
  admins : list AdminDoc;
  colls : gmap string (list Doc);
  clock : datetime }.

Inductive Exn :=
| HTTPException (status_code : Z) (detail : string)
| DuplicateKeyError
| CollectionInvalid
| BulkWriteError
| TypeError.

(** Storage calls, and the clock. *)
Inductive Op :=
| OrgsFindOne (by_slug : string)
| OrgsInsertOne (d : OrgFields)
| OrgsUpdateOne (id : ObjectId) (sets : list OrgSet)
| OrgsDeleteOne (id : ObjectId)
| AdminsFindOne (f : AdminFilter)
| AdminsInsertOne (d : AdminDoc)
| AdminsUpdateOne (id : string) (sets : list AdminSet)
| AdminsDeleteMany (by_organization_id : string)
| CreateCollection (name : string)
| DropCollection (name : string)
| Find (name : string)
| InsertOne (name : string) (b : Body)
| InsertMany (name : string) (docs : list Doc)
| UtcNow.

Definition Val (o : Op) : Type :=
  match o with
  | OrgsFindOne _ => option OrgDoc
  | OrgsInsertOne _ => ObjectId
  | AdminsFindOne _ => option AdminDoc
  | Find _ => list Doc
  | InsertOne _ _ => ObjectId
  | UtcNow => datetime
  | _ => unit
  end.

(** *** Collections *)

Fixpoint find_one {A} (q : A -> bool) (c : list A) : option A :=
  match c with
  | [] => None
  | d :: c' => if q d then Some d else find_one q c'
  end.

Fixpoint update_one {A} (q : A -> bool) (f : A -> A) (c : list A) : list A :=
  match c with
  | [] => []
  | d :: c' => if q d then f d :: c' else d :: update_one q f c'
  end.

Fixpoint delete_one {A} (q : A -> bool) (c : list A) : list A :=
  match c with
  | [] => []
  | d :: c' => if q d then c' else d :: delete_one q c'
  end.

Definition delete_many {A} (q : A -> bool) (c : list A) : list A :=
  List.filter (fun d => negb (q d)) c.

(** A generated [ObjectId] differs from every identifier in use. *)
Definition fresh_oid (used : list ObjectId) : ObjectId :=
  N.succ (fold_right N.max 0%N used).

Definition has_slug (s : string) (d : OrgDoc) : bool :=
  String.eqb (slug (org_fields d)) s.

Definition has_org_id (id : ObjectId) (d : OrgDoc) : bool :=
  N.eqb (org_id d) id.

Definition has_doc_id (id : ObjectId) (d : Doc) : bool :=
  N.eqb (doc_id d) id.

Definition has_admin_id (id : string) (d : AdminDoc) : bool :=
  String.eqb (admin_id d) id.

Definition admin_matches (f : AdminFilter) (d : AdminDoc) : bool :=
  match f with
  | ById v => has_admin_id v d
  | ByEmail v => String.eqb (email d) v
  | ByOrganizationId v => String.eqb (organization_id d) v
  end.

Definition org_set (f : OrgFields) (s : OrgSet) : OrgFields :=
  match s with
  | SetOrganizationName v =>
      mkOrgFields v (slug f) (collection_name f) (connection_details f)
        (created_at f) (updated_at f) (admin_user_id f)
  | SetSlug v =>
      mkOrgFields (organization_name f) v (collection_name f) (connection_details f)
        (created_at f) (updated_at f) (admin_user_id f)
  | SetCollectionName v =>
      mkOrgFields (organization_name f) (slug f) v (connection_details f)
        (created_at f) (updated_at f) (admin_user_id f)
  | SetUpdatedAt v =>
      mkOrgFields (organization_name f) (slug f) (collection_name f) (connection_details f)
        (created_at f) v (admin_user_id f)
  | SetAdminUserId v =>
      mkOrgFields (organization_name f) (slug f) (collection_name f) (connection_details f)
        (created_at f) (updated_at f) (Some v)
  end.

Definition org_apply (sets : list OrgSet) (d : OrgDoc) : OrgDoc :=
  mkOrgDoc (org_id d) (fold_left org_set sets (org_fields d)).

Definition admin_set (d : AdminDoc) (s : AdminSet) : AdminDoc :=
  match s with
  | SetEmail v =>
      mkAdminDoc (admin_id d) v (password_hash d) (organization_id d) (role d)
        (admin_created_at d) (admin_updated_at d)
  | SetPasswordHash v =>
      mkAdminDoc (admin_id d) (email d) v (organization_id d) (role d)
        (admin_created_at d) (admin_updated_at d)
  | SetAdminUpdatedAt v =>
      mkAdminDoc (admin_id d) (email d) (password_hash d) (organization_id d) (role d)
        (admin_created_at d) (Some v)
  end.

Definition admin_apply (sets : list AdminSet) (d : AdminDoc) : AdminDoc :=
  fold_left admin_set sets d.

(** The documents of a tenant collection; a missing collection reads
    as empty. *)
Definition docs_of (w : World) (name : string) : list Doc :=
  default [] (colls w !! name).

(** [insert_many(docs, ordered=False)]: every document whose [_id] is
    not yet in the collection is appended; the others are write errors,
    counted in the second component.  The driver refuses an empty list
    of documents with a [TypeError] (see [exec]). *)
Fixpoint insert_unordered (c : list Doc) (docs : list Doc) : list Doc * nat :=
  match docs with
  | [] => (c, O)
  | d :: rest =>
      if existsb (has_doc_id (doc_id d)) c
      then let '(c', errs) := insert_unordered c rest in (c', S errs)
      else insert_unordered (c ++ [d]) rest
  end.

Definition set_orgs (w : World) (v : list OrgDoc) : World :=
  mkWorld v (admins w) (colls w) (clock w).
Definition set_admins (w : World) (v : list AdminDoc) : World :=
  mkWorld (orgs w) v (colls w) (clock w).
Definition set_colls (w : World) (v : gmap string (list Doc)) : World :=
  mkWorld (orgs w) (admins w) v (clock w).

(** *** The effect of one call

    [organizations] carries the unique index on [slug] that [startup]
    creates; every collection has the unique index on [_id]. *)
Definition exec (o : Op) (w : World) : (Exn + Val o) * World :=
  match o return (Exn + Val o) * World with
  | OrgsFindOne s => (inr (find_one (has_slug s) (orgs w)), w)
  | OrgsInsertOne f =>
      if existsb (has_slug (slug f)) (orgs w)
      then (inl DuplicateKeyError, w)
      else
        let id := fresh_oid (org_id <$> orgs w) in
        (inr id, set_orgs w (orgs w ++ [mkOrgDoc id f]))
  | OrgsUpdateOne id sets =>
      match find_one (has_org_id id) (orgs w) with
      | None => (inr tt, w)
      | Some d =>
          let d' := org_apply sets d in
          if existsb (fun e => negb (has_org_id id e) && has_slug (slug (org_fields d')) e)
               (orgs w)
          then (inl DuplicateKeyError, w)
          else (inr tt, set_orgs w (update_one (has_org_id id) (org_apply sets) (orgs w)))
      end
  | OrgsDeleteOne id => (inr tt, set_orgs w (delete_one (has_org_id id) (orgs w)))
  | AdminsFindOne f => (inr (find_one (admin_matches f) (admins w)), w)
  | AdminsInsertOne d =>
      if existsb (has_admin_id (admin_id d)) (admins w)
      then (inl DuplicateKeyError, w)
      else (inr tt, set_admins w (admins w ++ [d]))
  | AdminsUpdateOne id sets =>
      (inr tt, set_admins w (update_one (has_admin_id id) (admin_apply sets) (admins w)))
  | AdminsDeleteMany v =>
      (inr tt, set_admins w (delete_many (admin_matches (ByOrganizationId v)) (admins w)))
  | CreateCollection name =>
      match colls w !! name with
      | Some _ => (inl CollectionInvalid, w)
      | None => (inr tt, set_colls w (<[name := []]> (colls w)))
      end
  | DropCollection name => (inr tt, set_colls w (delete name (colls w)))
  | Find name => (inr (docs_of w name), w)
  | InsertOne name b =>
      let c := docs_of w name in
      let id := fresh_oid (doc_id <$> c) in
      (inr id, set_colls w (<[name := c ++ [mkDoc id b]]> (colls w)))
  | InsertMany name docs =>
      match docs with
      | [] => (inl TypeError, w)
      | _ =>
          let '(c, errs) := insert_unordered (docs_of w name) docs in
          let w' := set_colls w (<[name := c]> (colls w)) in
          match errs with
          | O => (inr tt, w')
          | S _ => (inl BulkWriteError, w')
          end
      end
  | UtcNow => (inr (clock w), w)
  end.

End Store.

(** ** Handlers as programs

  A handler is a tree of storage calls: each [await] of the source is
  an [Await] node whose continuation receives the call's result or the
  exception it raised.  [Raise] ends the handler with an exception.
  The scan [old_coll.find({})] is one call that yields the documents of
  the collection in natural order: the cursor is drained against a
  source nobody else writes. *)

Module Handler.

Import Store.

Inductive Prog (A : Type) : Type :=
| Ret (a : A)
| Raise (e : Exn)
| Await (o : Op) (k : Exn + Val o -> Prog A).

Arguments Ret {A} a.
Arguments Raise {A} e.
Arguments Await {A} o k.

Fixpoint bind {A B} (p : Prog A) (f : A -> Prog B) : Prog B :=
  match p with
  | Ret a => f a
  | Raise e => Raise e
  | Await o k => Await o (fun r => bind (k r) f)
  end.

(** [await call]: the exception of a failed call propagates. *)
Definition await (o : Op) : Prog (Val o) :=
  Await o (fun r => match r with inl e => Raise e | inr v => Ret v end).

(** [try: await call / except Exception: pass] *)
Definition try_pass (o : Op) : Prog unit :=
  Await o (fun _ => Ret tt).

Inductive Outcome (A : Type) : Type :=
| Returned (a : A)
| Failed (e : Exn).

Arguments Returned {A} a.
Arguments Failed {A} e.

(** One storage call of a handler against the store. *)
Definition step {A} (p : Prog A) (w : World) : Prog A * World :=
  match p with
  | Await o k => let '(r, w') := exec o w in (k r, w')
  | _ => (p, w)
  end.

(** A handler run to its end with no other writer: the outcome, the
    final store, and the log of calls, each with the store it met. *)
Fixpoint run {A} (p : Prog A) (w : World) : Outcome A * World * list (World * Op) :=
  match p with
  | Ret a => (Returned a, w, [])
  | Raise e => (Failed e, w, [])
  | Await o k =>
      let '(r, w') := exec o w in
      let '(out, w'', log) := run (k r) w' in
      (out, w'', (w, o) :: log)
  end.

Definition outcome {A} (p : Prog A) (w : World) : Outcome A := (run p w).1.1.
Definition final {A} (p : Prog A) (w : World) : World := (run p w).1.2.
Definition calls {A} (p : Prog A) (w : World) : list Op := (run p w).2.*2.

(** Two handlers served concurrently: [schedule] says whose next call
    runs ([true] for the first); when it is exhausted the first handler
    finishes, then the second. *)
Fixpoint interleave {A B} (schedule : list bool) (p : Prog A) (q : Prog B) (w : World)
  : Outcome A * Outcome B * World :=
  match schedule with
  | [] =>
      let '(a, w1, _) := run p w in
      let '(b, w2, _) := run q w1 in
      (a, b, w2)
  | true :: rest => let '(p', w') := step p w in interleave rest p' q w'
  | false :: rest => let '(q', w') := step q w in interleave rest p q' w'
  end.

End Handler.

Declare Scope prog_scope.
Delimit Scope prog_scope with prog.
Notation "x <- p ;; q" := (Handler.bind p (fun x => q))
(at level 100, p at next level, right associativity) : prog_scope.
Notation "p ;; q" := (Handler.bind p (fun _ => q))
(at level 100, right associativity) : prog_scope.

(** ** The service *)

Module Service.

Import Py Slug Store Handler.
Local Open Scope prog_scope.

(** *** Request and response models *)

Record OrgCreateIn := mkOrgCreateIn {
  create_organization_name : string;
  create_email : string;
  create_password : string }.

Record OrgUpdateIn := mkOrgUpdateIn {
  update_organization_name : string;
  new_organization_name : option string;
  update_email : option string;
  update_password : option string }.

Record OrgDeleteIn := mkOrgDeleteIn { delete_organization_name : string }.

Record AdminLoginIn := mkAdminLoginIn {
  login_email : string;
  login_password : string }.

Record CreateOut := mkCreateOut {
  out_organization_name : string;
  out_collection_name : string;
  out_admin_user_id : string;
  out_org_id : string }.

Record GetOut := mkGetOut {
  get_organization_name : string;
  get_collection_name : string;
  get_connection_details : string * string;
  get_admin_user_id : option string;
  get_org_id : string;
  get_created_at : datetime }.

Record UpdateOut := mkUpdateOut { updated : list OrgSet }.

Record DeleteOut := mkDeleteOut { deleted_org : string }.

Record LoginOut := mkLoginOut { access_token : string; token_type : string }.

(** What [get_current_admin] hands to the handler. *)
Record Cred := mkCred { cred_admin : AdminDoc; cred_org_id : string }.

(** *** Tokens

    The claims [create_jwt] signs, and what [jwt.decode] gives back. *)
Record Claims := mkClaims {
  claim_admin_id : string;
  claim_org_id : string;
  claim_exp : datetime }.

Inductive Decoded :=
| ExpiredSignatureError
| InvalidTokenError
| Payload (admin_id : option string) (org_id : option string).

(** *** Configuration and external collaborators

    The values read from the environment at start, the argon2 hasher
    behind [hash_password] and [verify_password] (every exception of the
    verifier already mapped to [false], as the source does), and the JWT
    codec with the secret and algorithm applied. *)
Record Env := mkEnv {
  MONGO_URI : string;
  MASTER_DB : string;
  JWT_EXP_SECONDS : Z;
  BATCH_SIZE : Z;
  hash_password : string -> string;
  verify_password : string -> string -> bool;
  jwt_encode : Claims -> string;
  jwt_decode : string -> Decoded }.

Section Handlers.

Variable env : Env.

Definition create_jwt (admin org : string) : Prog string :=
  now <- await UtcNow ;;
  Ret (jwt_encode env (mkClaims admin org (now + JWT_EXP_SECONDS env))).

Definition decode_jwt (token : string) : Prog (option string * option string) :=
  match jwt_decode env token with
  | Payload a o => Ret (a, o)
  | ExpiredSignatureError => Raise (HTTPException 401 "Token expired")
  | InvalidTokenError => Raise (HTTPException 401 "Invalid token")
  end.

(** *** Auth dependency *)
Definition get_current_admin (token : string) : Prog Cred :=
  payload <- decode_jwt token ;;
  let '(admin_id, org_id) := payload in
  if negb (truthy admin_id) || negb (truthy org_id)
  then Raise (HTTPException 401 "Invalid token payload")
  else
    let admin_id := default EmptyString admin_id in
    let org_id := default EmptyString org_id in
    admin <- await (AdminsFindOne (ById admin_id)) ;;
    match admin with
    | None => Raise (HTTPException 401 "Admin not found")
    | Some admin =>
        if negb (String.eqb (organization_id admin) org_id)
        then Raise (HTTPException 403 "Organization mismatch")
        else Ret (mkCred admin org_id)
    end.

(** *** Create organization *)
Definition create_organization (payload : OrgCreateIn) : Prog CreateOut :=
  let org_name := strip (create_organization_name payload) in
  let email := strip (lower (create_email payload)) in
  let password := create_password payload in
  let slug := slugify_org org_name in
  existing <- await (OrgsFindOne slug) ;;
  match existing with
  | Some _ => Raise (HTTPException 400 "Organization name already exists")
  | None =>
      now <- await UtcNow ;;
      let org_doc :=
        mkOrgFields org_name slug slug (MASTER_DB env, MONGO_URI env) now now None in
      inserted_id <- await (OrgsInsertOne org_doc) ;;
      let org_id := oid_str inserted_id in
      ts <- await UtcNow ;;
      let admin_id := "admin_" +:+ email +:+ "_" +:+ pretty ts in
      let hashed := hash_password env password in
      let admin_doc := mkAdminDoc admin_id email hashed org_id "admin" now None in
      await (AdminsInsertOne admin_doc) ;;
      await (OrgsUpdateOne inserted_id [SetAdminUserId admin_id]) ;;
      try_pass (CreateCollection slug) ;;
      try_pass (InsertOne slug (Meta now 1)) ;;
      Ret (mkCreateOut org_name slug admin_id org_id)
  end.

(** *** Get organization *)
Definition get_organization (organization_name : string) : Prog GetOut :=
  let slug := slugify_org organization_name in
  org <- await (OrgsFindOne slug) ;;
  match org with
  | None => Raise (HTTPException 404 "Organization not found")
  | Some org =>
      let f := org_fields org in
      Ret (mkGetOut (Store.organization_name f) (collection_name f)
             (connection_details f) (admin_user_id f) (oid_str (org_id org))
             (created_at f))
  end.

(** *** Update organization *)

(** The [async for doc in cursor] loop over the documents the scan
    yields, with the pending [batch] and the running [count]. *)
Fixpoint migrate (new_slug : string) (cursor batch : list Doc) (count : nat)
  : Prog (list Doc * nat) :=
  match cursor with
  | [] => Ret (batch, count)
  | doc :: cursor' =>
      let batch := batch ++ [doc] in
      if BATCH_SIZE env <=? Z.of_nat (length batch)
      then
        try_pass (InsertMany new_slug batch) ;;
        migrate new_slug cursor' [] (count + length batch)
      else migrate new_slug cursor' batch count
  end.

(** The [updates] dict of a rename. *)
Definition rename_updates (new_name new_slug : string) (now : datetime) : list OrgSet :=
  [SetOrganizationName new_name; SetSlug new_slug;
   SetCollectionName new_slug; SetUpdatedAt now].

(** The rename branch, entered when the new slug differs from the
    current one: it yields the [updates] dict and the refreshed [org]. *)
Definition rename (org : OrgDoc) (current_slug new_name new_slug : string)
    (now : datetime) : Prog (list OrgSet * option OrgDoc) :=
  conflict <- await (OrgsFindOne new_slug) ;;
  match conflict with
  | Some _ => Raise (HTTPException 400 "New organization name already exists")
  | None =>
      try_pass (CreateCollection new_slug) ;;
      cursor <- await (Find current_slug) ;;
      rest <- migrate new_slug cursor [] O ;;
      let '(batch, count) := rest in
      match batch with
      | [] => Ret count
      | _ => try_pass (InsertMany new_slug batch) ;; Ret (count + length batch)%nat
      end ;;
      let updates := rename_updates new_name new_slug now in
      await (OrgsUpdateOne (org_id org) updates) ;;
      try_pass (DropCollection current_slug) ;;
      org <- await (OrgsFindOne new_slug) ;;
      Ret (updates, org)
  end.

Definition update_admin (payload : OrgUpdateIn) (org : option OrgDoc)
    (now : datetime) : Prog unit :=
  match org with
  | None => Raise TypeError
  | Some org =>
      admin <- await (AdminsFindOne (ByOrganizationId (oid_str (org_id org)))) ;;
      match admin with
      | None => Raise (HTTPException 500 "Admin record missing for organization")
      | Some admin =>
          let admin_updates := [] in
          let admin_updates :=
            match update_email payload with
            | Some e => if truthy (Some e)
                        then admin_updates ++ [SetEmail (strip (lower e))]
                        else admin_updates
            | None => admin_updates
            end in
          let admin_updates :=
            match update_password payload with
            | Some p => if truthy (Some p)
                        then admin_updates ++ [SetPasswordHash (hash_password env p)]
                        else admin_updates
            | None => admin_updates
            end in
          match admin_updates with
          | [] => Ret tt
          | _ =>
              await (AdminsUpdateOne (admin_id admin)
                       (admin_updates ++ [SetAdminUpdatedAt now]))
          end
      end
  end.

Definition update_organization (payload : OrgUpdateIn) : Prog UpdateOut :=
  let current_slug := slugify_org (update_organization_name payload) in
  org <- await (OrgsFindOne current_slug) ;;
  match org with
  | None => Raise (HTTPException 404 "Organization not found")
  | Some org =>
      now <- await UtcNow ;;
      renamed <-
        match new_organization_name payload with
        | Some n =>
            if truthy (Some n)
            then
              let new_name := strip n in
              let new_slug := slugify_org new_name in
              if String.eqb new_slug current_slug
              then Ret ([], Some org)
              else rename org current_slug new_name new_slug now
            else Ret ([], Some org)
        | None => Ret ([], Some org)
        end ;;
      let '(updates, org) := renamed in
      (if truthy (update_email payload) || truthy (update_password payload)
       then update_admin payload org now
       else Ret tt) ;;
      Ret (mkUpdateOut updates)
  end.

(** *** Delete organization *)
Definition delete_organization (payload : OrgDeleteIn) (cred : Cred) : Prog DeleteOut :=
  let slug := slugify_org (delete_organization_name payload) in
  org <- await (OrgsFindOne slug) ;;
  match org with
  | None => Raise (HTTPException 404 "Organization not found")
  | Some org =>
      let token_org_id := cred_org_id cred in
      if negb (String.eqb (oid_str (org_id org)) token_org_id)
      then Raise (HTTPException 403 "Not authorized to delete this organization")
      else
        try_pass (DropCollection slug) ;;
        await (AdminsDeleteMany (oid_str (org_id org))) ;;
        await (OrgsDeleteOne (org_id org)) ;;
        Ret (mkDeleteOut (delete_organization_name payload))
  end.

(** *** Admin login *)
Definition admin_login (payload : AdminLoginIn) : Prog LoginOut :=
  admin <- await (AdminsFindOne (ByEmail (strip (lower (login_email payload))))) ;;
  match admin with
  | None => Raise (HTTPException 401 "Invalid credentials")
  | Some admin =>
      let hashed := password_hash admin in
      if negb (truthy (Some hashed)) || negb (verify_password env (login_password payload) hashed)
      then Raise (HTTPException 401 "Invalid credentials")
      else
        token <- create_jwt (admin_id admin) (organization_id admin) ;;
        Ret (mkLoginOut token "bearer")
  end.

(** *** Routes

    [PUT /org/update] declares no dependency: whatever [Authorization]
    header the request carries never reaches the handler.
    [DELETE /org/delete] declares [Depends(get_current_admin)], which
    runs on the bearer token before the handler. *)
Definition put_org_update (authorization : option string) (payload : OrgUpdateIn)
  : Prog UpdateOut :=
  update_organization payload.

Definition delete_org_delete (token : string) (payload : OrgDeleteIn) : Prog DeleteOut :=
  cred <- get_current_admin token ;;
  delete_organization payload cred.

End Handlers.

(** *** The service as a whole

    The requests the routes above accept, and the store that requests
    served one at a time leave.  Each request is served at its own
    time of arrival; [/_test_insert] and [/] are not part of it. *)
Inductive Request :=
| PostOrgCreate (payload : OrgCreateIn)
| GetOrgGet (organization_name : string)
| PutOrgUpdate (authorization : option string) (payload : OrgUpdateIn)
| DeleteOrgDelete (token : string) (payload : OrgDeleteIn)
| PostAdminLogin (payload : AdminLoginIn).

Definition at_time (w : World) (now : datetime) : World :=
  mkWorld (orgs w) (admins w) (colls w) now.

Definition serve (env : Env) (w : World) (r : datetime * Request) : World :=
  let w := at_time w r.1 in
  match r.2 with
  | PostOrgCreate payload => final (create_organization env payload) w
  | GetOrgGet name => final (get_organization name) w
  | PutOrgUpdate authorization payload =>
      final (put_org_update env authorization payload) w
  | DeleteOrgDelete token payload => final (delete_org_delete env token payload) w
  | PostAdminLogin payload => final (admin_login env payload) w
  end.

Definition serve_all (env : Env) (rs : list (datetime * Request)) (w : World) : World :=
  fold_left (serve env) rs w.

End Service.

(** ** Vocabulary of the statements *)

Module Spec.

Import Py Slug Store Handler Service.

(** The classified failures of section 7, as the handlers raise them. *)
Definition not_found : Exn := HTTPException 404 "Organization not found".
Definition organization_exists : Exn :=
  HTTPException 400 "Organization name already exists".
Definition new_name_exists : Exn :=
  HTTPException 400 "New organization name already exists".
Definition admin_missing : Exn :=
  HTTPException 500 "Admin record missing for organization".
Definition forbidden_delete : Exn :=
  HTTPException 403 "Not authorized to delete this organization".
Definition invalid_credentials : Exn := HTTPException 401 "Invalid credentials".

(** A document with the identifier of [d] is in the collection [c]. *)
Definition covered (c : list Doc) (d : Doc) : Prop :=
  exists d', d' ∈ c /\ doc_id d' = doc_id d.

(** [w'] differs from [w] at most by documents appended to the
    collection [name]. *)
Definition same_but (name : string) (w w' : World) : Prop :=
  orgs w' = orgs w /\ admins w' = admins w /\ clock w' = clock w /\
  (forall k, k <> name -> colls w' !! k = colls w !! k) /\
  (exists added, docs_of w' name = docs_of w name ++ added) /\
  (is_Some (colls w !! name) -> is_Some (colls w' !! name)).

(** A logged call of the batched copy into [name], started from [w]. *)
Definition copy_call (name : string) (w : World) (e : World * Op) : Prop :=
  (exists batch, e.2 = InsertMany name batch) /\ same_but name w e.1.

(** Calls that write the organization directory or a tenant region. *)
Definition region_or_directory_write (o : Op) : bool :=
  match o with
  | OrgsInsertOne _ | OrgsUpdateOne _ _ | OrgsDeleteOne _
  | CreateCollection _ | DropCollection _ | InsertOne _ _ | InsertMany _ _ => true
  | _ => false
  end.

Definition reads_only (log : list (World * Op)) : Prop :=
  Forall (fun e : World * Op => region_or_directory_write e.2 = false) log.

(** [if payload.email or payload.password] *)
Definition wants_admin_update (payload : OrgUpdateIn) : bool :=
  truthy (update_email payload) || truthy (update_password payload).

(** What [update_organization] does after the rename block. *)
Definition update_tail (env : Env) (payload : OrgUpdateIn) (o : option OrgDoc)
    (now : datetime) (updates : list OrgSet) : Prog UpdateOut :=
  Handler.bind
    (if truthy (update_email payload) || truthy (update_password payload)
     then update_admin env payload o now else Ret tt)
    (fun _ => Ret (mkUpdateOut updates)).

(** The new display name and slug when the request enters the rename
    branch: a new name is given, is not empty, and derives a slug other
    than the current one. *)
Definition renames_to (payload : OrgUpdateIn) : option (string * string) :=
  match new_organization_name payload with
  | Some n =>
      if truthy (Some n)
      then
        let new_name := strip n in
        let new_slug := slugify_org new_name in
        if String.eqb new_slug (slugify_org (update_organization_name payload))
        then None
        else Some (new_name, new_slug)
      else None
  | None => None
  end.

Definition logged {A} (l : list (World * Op)) (r : Outcome A * World * list (World * Op))
  : Outcome A * World * list (World * Op) :=
  (r.1.1, r.1.2, l ++ r.2).

(** What the storage layer guarantees of the directory (unique [_id],
    unique [slug]) and what the handlers maintain (the region is named
    by the slug). *)
Definition directory_ok (w : World) : Prop :=
  NoDup (org_id <$> orgs w) /\
  NoDup ((fun o => slug (org_fields o)) <$> orgs w) /\
  Forall (fun o => collection_name (org_fields o) = slug (org_fields o)) (orgs w).

(** The organization record [o] points at [region]. *)
Definition references (o : OrgDoc) (region : string) : Prop :=
  slug (org_fields o) = region \/ collection_name (org_fields o) = region.

(** What a create that passes both uniqueness checks writes: the
    organization record (first without, then with the admin reference),
    the credential record and the sentinel document of the region. *)
Definition created_org (env : Env) (payload : OrgCreateIn) (w : World)
    (admin : option string) : OrgDoc :=
  let sl := slugify_org (strip (create_organization_name payload)) in
  mkOrgDoc (fresh_oid (org_id <$> orgs w))
    (mkOrgFields (strip (create_organization_name payload)) sl sl
       (MASTER_DB env, MONGO_URI env) (clock w) (clock w) admin).

Definition created_admin_id (payload : OrgCreateIn) (w : World) : string :=
  "admin_" +:+ strip (lower (create_email payload)) +:+ "_" +:+ pretty (clock w).

Definition created_admin (env : Env) (payload : OrgCreateIn) (w : World) : AdminDoc :=
  mkAdminDoc (created_admin_id payload w) (strip (lower (create_email payload)))
    (hash_password env (create_password payload))
    (oid_str (fresh_oid (org_id <$> orgs w))) "admin" (clock w) None.

Definition sentinel (w : World) (region : string) : Doc :=
  mkDoc (fresh_oid (doc_id <$> docs_of w region)) (Meta (clock w) 1).

(** The batches that the calls [ops] hand to [insert_many] on the
    collection [name], in call order. *)
Definition batches_into (name : string) (ops : list Op) : list (list Doc) :=
  omap (fun o => match o with
                 | InsertMany k batch => if String.eqb k name then Some batch else None
                 | _ => None
                 end) ops.

(** Every credential record belongs to a stored organization. *)
Definition credentials_ok (w : World) : Prop :=
  forall a, a ∈ admins w ->
    exists o, o ∈ orgs w /\ organization_id a = oid_str (org_id o).

(** The admin that an organization record names is stored and belongs
    to that organization. *)
Definition admin_links_ok (w : World) : Prop :=
  forall o aid, o ∈ orgs w -> admin_user_id (org_fields o) = Some aid ->
    exists a, a ∈ admins w /\ admin_id a = aid /\
              organization_id a = oid_str (org_id o).

(** Every tenant region is the region of a stored organization. *)
Definition regions_ok (w : World) : Prop :=
  forall k, is_Some (colls w !! k) ->
    exists o, o ∈ orgs w /\ slug (org_fields o) = k.

(** The consistency of the three parts of the store: the directory,
    the credential records (with unique [_id]) and the regions. *)
Definition store_ok (w : World) : Prop :=
  directory_ok w /\ NoDup (admin_id <$> admins w) /\
  credentials_ok w /\ admin_links_ok w /\ regions_ok w.

(** The fields of a credential record and of an organization record
    that [store_ok] reads and no [$set] of the handlers changes. *)
Definition admin_keys (a : AdminDoc) : string * string :=
  (admin_id a, organization_id a).

Definition org_keys (o : OrgDoc) : ObjectId * option string :=
  (org_id o, admin_user_id (org_fields o)).

End Spec.

(** ** A small deployment, for the examples *)

Module Demo.

Import Py Slug Store Handler Service.

Definition env_with_batch (batch_size : Z) : Env :=
  {| MONGO_URI := "mongodb://localhost:27017";
     MASTER_DB := "master_db";
     JWT_EXP_SECONDS := 3600;
     BATCH_SIZE := batch_size;
     hash_password := fun p => "argon2:" +:+ p;
     verify_password := fun p h => String.eqb h ("argon2:" +:+ p);
     jwt_encode := fun c =>
       "jwt." +:+ claim_admin_id c +:+ "." +:+ claim_org_id c +:+ "." +:+ pretty (claim_exp c);
     jwt_decode := fun t =>
       if String.eqb t "expired" then ExpiredSignatureError
       else if String.eqb t "acme-admin"
       then Payload (Some "admin_a@acme.com_1700000000") (Some "1")
       else InvalidTokenError |}.

Definition env : Env := env_with_batch 2.

Definition empty : World := mkWorld [] [] ∅ 1700000000.

Definition acme : OrgCreateIn := mkOrgCreateIn "Acme Inc" "A@Acme.com" "secret1".
Definition acme_again : OrgCreateIn := mkOrgCreateIn "acme  inc!" "b@acme.com" "secret2".

(** Acme created. *)
Definition one_org : World := final (create_organization env acme) empty.

(** Acme with five documents in its region: the sentinel and four more. *)
Definition five_docs : World :=
  (exec (InsertMany "org_acme-inc"
           [mkDoc 2%N (Data "a"); mkDoc 3%N (Data "b"); mkDoc 4%N (Data "c"); mkDoc 5%N (Data "d")])
     one_org).2.

Definition rename_acme : OrgUpdateIn :=
  mkOrgUpdateIn "Acme Inc" (Some "Acme Corp") None None.

Definition respell_acme : OrgUpdateIn :=
  mkOrgUpdateIn "Acme Inc" (Some "ACME, inc.") None None.

(** Beta created in the same second and with the same admin address as
    Acme: the credential record collides on its identifier, the create
    fails after the organization insert, and Beta is left without a
    credential record. *)
Definition beta_same_admin : OrgCreateIn := mkOrgCreateIn "Beta" "a@acme.com" "secret2".

Definition orphan_beta : World := final (create_organization env beta_same_admin) one_org.

Definition beta_to_acme_with_email : OrgUpdateIn :=
  mkOrgUpdateIn "Beta" (Some "Acme Inc") (Some "new@beta.com") None.

Definition beta_new_email : OrgUpdateIn :=
  mkOrgUpdateIn "Beta" None (Some "new@beta.com") None.

Definition acme_new_email : OrgUpdateIn :=
  mkOrgUpdateIn "Acme Inc" None (Some "new@acme.com") None.

(** Two credential records share an e-mail address across organizations. *)
Definition shared_email : World :=
  mkWorld [] [mkAdminDoc "admin_a@x.com_1" "a@x.com" "argon2:first-pass" "1" "admin" 0 None;
              mkAdminDoc "admin_a@x.com_2" "a@x.com" "argon2:second-pass" "2" "admin" 0 None]
    ∅ 1700000000.

(** The records of Acme in [one_org], and what [get_current_admin]
    hands over for a token of its admin. *)
Definition acme_record : OrgDoc :=
  mkOrgDoc 1%N
    (mkOrgFields "Acme Inc" "org_acme-inc" "org_acme-inc"
       ("master_db", "mongodb://localhost:27017") 1700000000 1700000000
       (Some "admin_a@acme.com_1700000000")).

Definition acme_admin : AdminDoc :=
  mkAdminDoc "admin_a@acme.com_1700000000" "a@acme.com" "argon2:secret1" "1" "admin"
    1700000000 None.

Definition acme_cred : Cred := mkCred acme_admin "1".

Definition acme_created : CreateOut :=
  mkCreateOut "Acme Inc" "org_acme-inc" "admin_a@acme.com_1700000000" "1".

Definition acme_new_credentials : OrgUpdateIn :=
  mkOrgUpdateIn "Acme Inc" None (Some " New@Acme.com ") (Some "secret9").

(** Beta created after Acme, with an admin of its own. *)
Definition beta : OrgCreateIn := mkOrgCreateIn "Beta" "b@beta.com" "secret2".

Definition two_orgs : World := final (create_organization env beta) one_org.

Definition beta_admin : AdminDoc :=
  mkAdminDoc "admin_b@beta.com_1700000000" "b@beta.com" "argon2:secret2" "2" "admin"
    1700000000 None.

End Demo.

(** * Properties *)

Import Py Slug Store Handler Service.

(** ** Strings and slugs *)

Ltac each_char c := destruct c as [[] [] [] [] [] [] [] []].

Lemma space_facts c :
  is_space c = true ->
  is_quote c = false /\ lower_char c = c /\ is_digit c = false /\
  is_comma c = false /\ disallowed c = true /\ is_dash c = false.
Proof. each_char c; vm_compute; intros; try discriminate; repeat split. Qed.

Lemma slug_char_facts c :
  slug_char c = true ->
  is_quote c = false /\ lower_char c = c /\ is_comma c = false /\
  disallowed c = false /\ not_slug_char c = false.
Proof. each_char c; vm_compute; intros; try discriminate; repeat split. Qed.

Lemma lower_char_not_upper c : is_upper (lower_char c) = false.
Proof. each_char c; reflexivity. Qed.

Lemma allowed_lower_slug_char c :
  is_upper c = false -> disallowed c = false -> slug_char c = true.
Proof. each_char c; vm_compute; intros; try discriminate; reflexivity. Qed.

Lemma dash_slug_char c : is_dash c = true -> slug_char c = true /\ is_upper c = false.
Proof. each_char c; vm_compute; intros; try discriminate; split; reflexivity. Qed.

(** *** Concatenation and character classes *)

Lemma append_cons c s t : String c s +:+ t = String c (s +:+ t).
Proof. reflexivity. Qed.

Lemma append_empty_l s : EmptyString +:+ s = s.
Proof. reflexivity. Qed.

Lemma allc_impl (q q' : ascii -> bool) s :
  (forall c, q c = true -> q' c = true) -> allc q s = true -> allc q' s = true.
Proof.
  intros Hq. induction s as [|c s IH]; simpl; [done|].
  intros [Hc Hs]%andb_true_iff. rewrite (Hq _ Hc), IH; done.
Qed.

Lemma allc_and (q q' : ascii -> bool) s :
  allc q s = true -> allc q' s = true -> allc (fun c => q c && q' c) s = true.
Proof.
  induction s as [|c s IH]; simpl; [done|].
  intros [-> ?]%andb_true_iff [-> ?]%andb_true_iff. simpl. auto.
Qed.

(** *** Stripping *)

Lemma rstrip_cons_keep p c r : p c = false -> rstrip p (String c r) = String c (rstrip p r).
Proof. intros H. simpl. rewrite H. by destruct (rstrip p r). Qed.

Lemma rstrip_all p w : allc p w = true -> rstrip p w = EmptyString.
Proof.
  induction w as [|c w IH]; simpl; [done|].
  intros [-> Hw]%andb_true_iff. by rewrite IH.
Qed.

Lemma rstrip_app_all p s w : allc p w = true -> rstrip p (s +:+ w) = rstrip p s.
Proof.
  intros Hw. induction s as [|c s IH].
  - by apply rstrip_all.
  - rewrite append_cons. simpl. by rewrite IH.
Qed.

Lemma rstrip_decomp p s : exists w, allc p w = true /\ s = rstrip p s +:+ w.
Proof.
  induction s as [|c s [w [Hw IH]]]; simpl.
  - by exists EmptyString.
  - destruct (rstrip p s) as [|c' r'] eqn:E.
    + rewrite append_empty_l in IH. subst w. destruct (p c) eqn:Hc.
      * exists (String c s). simpl. by rewrite Hc, Hw.
      * exists s. done.
    + exists w. split; [done|]. rewrite append_cons. by rewrite <- IH.
Qed.

Lemma rstrip_idem p s : rstrip p (rstrip p s) = rstrip p s.
Proof.
  induction s as [|c s IH]; simpl; [done|].
  destruct (rstrip p s) as [|c' r'] eqn:E.
  - destruct (p c) eqn:Hc; simpl; [done|]. by rewrite Hc.
  - change (rstrip p (String c (String c' r')) = String c (String c' r')).
    simpl. simpl in IH. destruct (rstrip p r') eqn:E'.
    + destruct (p c'); [discriminate|]. injection IH as ->. done.
    + by rewrite IH.
Qed.

Lemma lstrip_idem p s : lstrip p (lstrip p s) = lstrip p s.
Proof.
  induction s as [|c s IH]; simpl; [done|].
  destruct (p c) eqn:Hc; [done|]. simpl. by rewrite Hc.
Qed.

Lemma rstrip_lstrip p s : rstrip p (lstrip p s) = lstrip p (rstrip p s).
Proof.
  induction s as [|c s IH]; [done|].
  destruct (p c) eqn:Hc.
  - simpl. rewrite Hc, IH. destruct (rstrip p s); simpl; [done|]. by rewrite Hc.
  - rewrite rstrip_cons_keep by done. simpl. rewrite Hc. by rewrite rstrip_cons_keep.
Qed.

Lemma strip_chars_cons p c s : p c = true -> strip_chars p (String c s) = strip_chars p s.
Proof.
  intros Hc. unfold strip_chars. simpl. rewrite Hc.
  destruct (rstrip p s); simpl; [done|]. by rewrite Hc.
Qed.

Lemma strip_chars_app_all p s w : allc p w = true -> strip_chars p (s +:+ w) = strip_chars p s.
Proof. intros Hw. unfold strip_chars. by rewrite rstrip_app_all. Qed.

Lemma allc_lstrip q p s : allc q s = true -> allc q (lstrip p s) = true.
Proof.
  induction s as [|c s IH]; simpl; [done|].
  intros [Hc Hs]%andb_true_iff. destruct (p c); [auto|]. simpl. by rewrite Hc, Hs.
Qed.

Lemma allc_rstrip q p s : allc q s = true -> allc q (rstrip p s) = true.
Proof.
  induction s as [|c s IH]; simpl; [done|].
  intros [Hc Hs]%andb_true_iff. specialize (IH Hs).
  destruct (rstrip p s); simpl in *.
  - destruct (p c); simpl; [done|]. by rewrite Hc.
  - by rewrite Hc, IH.
Qed.

(** *** The steps of [slugify] on a text followed by white space *)

Lemma runs_to_dash_none p b w :
  allc (fun c => negb (p c)) w = true -> runs_to_dash p b w = w.
Proof.
  revert b. induction w as [|c w IH]; intros b; simpl; [done|].
  intros [Hc Hw]%andb_true_iff. apply negb_true_iff in Hc. rewrite Hc. by rewrite IH.
Qed.

Lemma runs_to_dash_app_none p b s w :
  allc (fun c => negb (p c)) w = true ->
  runs_to_dash p b (s +:+ w) = runs_to_dash p b s +:+ w.
Proof.
  intros Hw. revert b. induction s as [|c s IH]; intros b.
  - by apply runs_to_dash_none.
  - rewrite append_cons. simpl. destruct (p c), b; rewrite ?append_cons, IH; done.
Qed.

Lemma runs_to_dash_all p b w :
  allc p w = true -> allc is_dash (runs_to_dash p b w) = true.
Proof.
  revert b. induction w as [|c w IH]; intros b; simpl; [done|].
  intros [-> Hw]%andb_true_iff. destruct b; simpl; auto.
Qed.

Lemma runs_to_dash_app_all p b s w :
  allc p w = true ->
  exists d, allc is_dash d = true /\
            runs_to_dash p b (s +:+ w) = runs_to_dash p b s +:+ d.
Proof.
  intros Hw. revert b. induction s as [|c s IH]; intros b.
  - exists (runs_to_dash p b w). split; [by apply runs_to_dash_all|done].
  - rewrite append_cons. simpl. destruct (p c).
    + destruct (IH true) as [d [Hd ->]]. exists d. by destruct b.
    + destruct (IH false) as [d [Hd ->]]. by exists d.
Qed.

Lemma runs_to_dash_flag p s :
  runs_to_dash p false s = runs_to_dash p true s \/
  runs_to_dash p false s = String "-" (runs_to_dash p true s).
Proof. destruct s as [|c s]; simpl; [by left|]. destruct (p c); [by right|by left]. Qed.

Lemma lower_app s t : lower (s +:+ t) = lower s +:+ lower t.
Proof. induction s as [|c s IH]; [done|]. rewrite append_cons. simpl. by rewrite IH. Qed.

Lemma delete_chars_app p s t :
  delete_chars p (s +:+ t) = delete_chars p s +:+ delete_chars p t.
Proof.
  induction s as [|c s IH]; [done|]. rewrite append_cons. simpl.
  rewrite IH. by destruct (p c).
Qed.

Lemma lower_spaces w : allc is_space w = true -> lower w = w.
Proof.
  induction w as [|c w IH]; simpl; [done|].
  intros [Hc Hw]%andb_true_iff. rewrite IH by done.
  by destruct (space_facts c Hc) as (_ & -> & _).
Qed.

Lemma delete_quotes_spaces w : allc is_space w = true -> delete_chars is_quote w = w.
Proof.
  induction w as [|c w IH]; simpl; [done|].
  intros [Hc Hw]%andb_true_iff. rewrite IH by done.
  by destruct (space_facts c Hc) as (-> & _).
Qed.

Lemma cleanup_numbers_spaces b w : allc is_space w = true -> cleanup_numbers b w = w.
Proof.
  revert b. induction w as [|c w IH]; intros b; simpl; [done|].
  intros [Hc Hw]%andb_true_iff.
  destruct (space_facts c Hc) as (_ & _ & Hd & -> & _). simpl. by rewrite IH.
Qed.

Lemma next_is_digit_app s w :
  allc is_space w = true -> next_is_digit (s +:+ w) = next_is_digit s.
Proof.
  destruct s as [|c s]; [|done]. rewrite append_empty_l.
  destruct w as [|c w]; simpl; [done|].
  intros [Hc _]%andb_true_iff. by destruct (space_facts c Hc) as (_ & _ & -> & _).
Qed.

Lemma cleanup_numbers_app b s w :
  allc is_space w = true ->
  cleanup_numbers b (s +:+ w) = cleanup_numbers b s +:+ w.
Proof.
  intros Hw. revert b. induction s as [|c s IH]; intros b.
  - by apply cleanup_numbers_spaces.
  - rewrite append_cons. simpl. rewrite next_is_digit_app by done.
    destruct (is_comma c && b && next_is_digit s); rewrite ?append_cons, IH; done.
Qed.

Lemma spaces_not_quote w :
  allc is_space w = true -> allc (fun c => negb (is_quote c)) w = true.
Proof.
  apply allc_impl. intros c Hc. by destruct (space_facts c Hc) as (-> & _).
Qed.

Lemma spaces_disallowed w : allc is_space w = true -> allc disallowed w = true.
Proof.
  apply allc_impl. intros c Hc. by destruct (space_facts c Hc) as (_ & _ & _ & _ & -> & _).
Qed.

Lemma strip_runs_flag p s :
  strip_chars is_dash (runs_to_dash is_dash true (runs_to_dash p true s)) =
  strip_chars is_dash (runs_to_dash is_dash false (runs_to_dash p false s)).
Proof.
  destruct (runs_to_dash_flag p s) as [-> | ->].
  - destruct (runs_to_dash_flag is_dash (runs_to_dash p true s)) as [-> | ->]; [done|].
    by rewrite strip_chars_cons by reflexivity.
  - simpl. by rewrite strip_chars_cons by reflexivity.
Qed.

Lemma slugify_cons_space c s : is_space c = true -> slugify (String c s) = slugify s.
Proof.
  intros Hc. destruct (space_facts c Hc) as (Hq & Hl & Hd & Hk & Hx & Hh).
  unfold slugify. simpl. rewrite Hq. simpl. rewrite Hl, Hq. simpl.
  rewrite Hk, Hd. simpl. rewrite Hx. simpl.
  rewrite strip_chars_cons by reflexivity. apply strip_runs_flag.
Qed.

Lemma slugify_app_spaces s w : allc is_space w = true -> slugify (s +:+ w) = slugify s.
Proof.
  intros Hw. unfold slugify.
  rewrite runs_to_dash_app_none by (by apply spaces_not_quote).
  rewrite lower_app, (lower_spaces w) by done.
  rewrite delete_chars_app, (delete_quotes_spaces w) by done.
  rewrite cleanup_numbers_app by done.
  destruct (runs_to_dash_app_all disallowed false
              (cleanup_numbers false
                 (delete_chars is_quote (lower (runs_to_dash is_quote false s))))
              w (spaces_disallowed w Hw)) as [d [Hd ->]].
  destruct (runs_to_dash_app_all is_dash false
              (runs_to_dash disallowed false
                 (cleanup_numbers false
                    (delete_chars is_quote (lower (runs_to_dash is_quote false s)))))
              d Hd) as [d' [Hd' ->]].
  by apply strip_chars_app_all.
Qed.

Lemma slugify_lstrip s : slugify (lstrip is_space s) = slugify s.
Proof.
  induction s as [|c s IH]; simpl; [done|].
  destruct (is_space c) eqn:Hc; [|done]. by rewrite IH, slugify_cons_space.
Qed.

Lemma slugify_rstrip s : slugify (rstrip is_space s) = slugify s.
Proof.
  destruct (rstrip_decomp is_space s) as [w [Hw E]].
  rewrite E at 2. by rewrite slugify_app_spaces.
Qed.

Lemma slugify_strip s : slugify (strip s) = slugify s.
Proof. unfold strip, strip_chars. by rewrite slugify_lstrip, slugify_rstrip. Qed.

Lemma slugify_org_strip s : slugify_org (strip s) = slugify_org s.
Proof. unfold slugify_org, slug_body. by rewrite slugify_strip. Qed.

(** A slug names neither directory: tenant regions and the two
    directories never share a collection. *)
Lemma slugify_org_not_a_directory name :
  slugify_org name <> "organizations" /\ slugify_org name <> "admins".
Proof.
  unfold slugify_org.
  change ("org_" +:+ slug_body name)
    with (String "o" (String "r" (String "g" (String "_" (slug_body name))))).
  split; discriminate.
Qed.

(** *** The shape of a slug body *)

Lemma allc_lower s : allc (fun c => negb (is_upper c)) (lower s) = true.
Proof.
  induction s as [|c s IH]; simpl; [done|]. by rewrite lower_char_not_upper, IH.
Qed.

Lemma allc_delete_chars q p s : allc q s = true -> allc q (delete_chars p s) = true.
Proof.
  induction s as [|c s IH]; simpl; [done|].
  intros [Hc Hs]%andb_true_iff. destruct (p c); simpl; rewrite ?Hc; simpl; auto.
Qed.

Lemma allc_cleanup_numbers q b s : allc q s = true -> allc q (cleanup_numbers b s) = true.
Proof.
  revert b. induction s as [|c s IH]; intros b; simpl; [done|].
  intros [Hc Hs]%andb_true_iff.
  destruct (is_comma c && b && next_is_digit s); simpl; rewrite ?Hc; simpl; auto.
Qed.

Lemma allc_runs_to_dash q p b s :
  q "-"%char = true -> allc q s = true -> allc q (runs_to_dash p b s) = true.
Proof.
  intros Hq. revert b. induction s as [|c s IH]; intros b; simpl; [done|].
  intros [Hc Hs]%andb_true_iff.
  destruct (p c), b; simpl; rewrite ?Hc, ?Hq; simpl; auto.
Qed.

Lemma allc_runs_to_dash_out p b s :
  allc (fun c => negb (p c) || is_dash c) (runs_to_dash p b s) = true.
Proof.
  revert b. induction s as [|c s IH]; intros b; simpl; [done|].
  destruct (p c) eqn:Hc, b; simpl; rewrite ?Hc; simpl; rewrite ?orb_true_r; simpl; auto.
Qed.

Lemma no_double_dash_runs b s : no_double_dash b (runs_to_dash is_dash b s) = true.
Proof.
  revert b. induction s as [|c s IH]; intros b; simpl; [done|].
  destruct (is_dash c) eqn:Hc.
  - destruct b; [apply IH|]. simpl. apply IH.
  - simpl. rewrite Hc. apply IH.
Qed.

Lemma no_double_dash_fixed b s :
  no_double_dash b s = true -> runs_to_dash is_dash b s = s.
Proof.
  revert b. induction s as [|c s IH]; intros b; simpl; [done|].
  destruct (is_dash c) eqn:Hc.
  - destruct b; simpl; [discriminate|]. intros H.
    each_char c; try discriminate Hc. by rewrite IH.
  - intros H. by rewrite IH.
Qed.

Lemma no_double_dash_lstrip b s :
  no_double_dash b s = true -> no_double_dash false (lstrip is_dash s) = true.
Proof.
  revert b. induction s as [|c s IH]; intros b; simpl; [done|].
  destruct (is_dash c) eqn:Hc.
  - intros [_ H]%andb_true_iff. by apply (IH true).
  - intros H. simpl. by rewrite Hc.
Qed.

Lemma no_double_dash_rstrip b s :
  no_double_dash b s = true -> no_double_dash b (rstrip is_dash s) = true.
Proof.
  revert b. induction s as [|c s IH]; intros b; simpl; [done|].
  destruct (is_dash c) eqn:Hc.
  - intros [Hb H]%andb_true_iff. specialize (IH _ H).
    destruct (rstrip is_dash s); simpl; [done|].
    rewrite Hc, Hb. simpl in IH. by rewrite IH.
  - intros H. specialize (IH _ H).
    destruct (rstrip is_dash s); simpl; rewrite Hc; done.
Qed.

Lemma slugify_shaped n : slug_shaped (slugify n).
Proof.
  unfold slugify. repeat split.
  - apply allc_lstrip, allc_rstrip, allc_runs_to_dash; [done|].
    eapply allc_impl;
      [|apply allc_and;
         [apply (allc_runs_to_dash (fun c => negb (is_upper c)) disallowed false); [done|]
         |apply (allc_runs_to_dash_out disallowed false)]].
    + intros c [Hu Hd]%andb_true_iff. apply negb_true_iff in Hu.
      apply orb_true_iff in Hd as [Hd|Hd].
      * apply negb_true_iff in Hd. by apply allowed_lower_slug_char.
      * by apply dash_slug_char.
    + apply allc_cleanup_numbers, allc_delete_chars, allc_lower.
  - eapply no_double_dash_lstrip, no_double_dash_rstrip, no_double_dash_runs.
  - apply lstrip_idem.
  - unfold strip_chars. by rewrite rstrip_lstrip, rstrip_idem.
Qed.

Lemma lower_slug_chars o : allc slug_char o = true -> lower o = o.
Proof.
  induction o as [|c o IH]; simpl; [done|].
  intros [Hc Ho]%andb_true_iff. rewrite IH by done.
  by destruct (slug_char_facts c Hc) as (_ & -> & _).
Qed.

Lemma delete_chars_none p o :
  allc (fun c => negb (p c)) o = true -> delete_chars p o = o.
Proof.
  induction o as [|c o IH]; simpl; [done|].
  intros [Hc Ho]%andb_true_iff. apply negb_true_iff in Hc. by rewrite Hc, IH.
Qed.

Lemma cleanup_numbers_none b o :
  allc (fun c => negb (is_comma c)) o = true -> cleanup_numbers b o = o.
Proof.
  revert b. induction o as [|c o IH]; intros b; simpl; [done|].
  intros [Hc Ho]%andb_true_iff. apply negb_true_iff in Hc. rewrite Hc. simpl.
  by rewrite IH.
Qed.

Lemma slugify_fixed o : slug_shaped o -> slugify o = o.
Proof.
  intros (Hc & Hd & Hl & Hr). unfold slugify.
  assert (Hall : forall q : ascii -> bool,
             (forall c, slug_char c = true -> q c = true) -> allc q o = true).
  { intros q Hq. by apply (allc_impl slug_char). }
  rewrite (runs_to_dash_none is_quote).
  2:{ apply Hall. intros c Hcc. by destruct (slug_char_facts c Hcc) as (-> & _). }
  rewrite lower_slug_chars by done.
  rewrite delete_chars_none.
  2:{ apply Hall. intros c Hcc. by destruct (slug_char_facts c Hcc) as (-> & _). }
  rewrite cleanup_numbers_none.
  2:{ apply Hall. intros c Hcc. by destruct (slug_char_facts c Hcc) as (_ & _ & -> & _). }
  rewrite (runs_to_dash_none disallowed).
  2:{ apply Hall. intros c Hcc. by destruct (slug_char_facts c Hcc) as (_ & _ & _ & -> & _). }
  rewrite no_double_dash_fixed by done. unfold strip_chars. by rewrite Hr, Hl.
Qed.

Lemma slug_body_slugify n : slug_body n = slugify n.
Proof.
  unfold slug_body. destruct (slugify_shaped n) as (Hc & _).
  rewrite lower_slug_chars by done. apply delete_chars_none.
  eapply allc_impl; [|exact Hc]. intros c Hcc.
  by destruct (slug_char_facts c Hcc) as (_ & _ & _ & _ & ->).
Qed.

Lemma slug_body_idem n : slug_body (slug_body n) = slug_body n.
Proof.
  rewrite !slug_body_slugify. apply slugify_fixed, slugify_shaped.
Qed.

Example slugify_org_acme : slugify_org "Acme Inc" = "org_acme-inc".
Proof. reflexivity. Qed.

Example slugify_org_messy :
  slugify_org "  O'Neil & Sons, 1,000 -- Ltd.  " = "org_o-neil-sons-1000-ltd".
Proof. reflexivity. Qed.

Example slugify_org_degenerate : slugify_org " !! " = "org_".
Proof. reflexivity. Qed.

(** C3, on the slug body.  Deriving the slug of a slug body (the derived
    slug without its [org_] tag) gives the same slug, for every name. *)
Theorem slug_body_idempotent name :
  slugify_org (slug_body name) = slugify_org name /\
  slugify_org name = "org_" +:+ slug_body name.
Proof. split; [|done]. unfold slugify_org. by rewrite slug_body_idem. Qed.

(** C3 on the full slug does not hold: the tag itself is slugified
    again. *)
Lemma slugify_org_twice_differs :
  slugify_org (slugify_org "Acme Inc") <> slugify_org "Acme Inc".
Proof. vm_compute. discriminate. Qed.

Example slugify_org_twice_acme : slugify_org (slugify_org "Acme Inc") = "org_org-acme-inc".
Proof. reflexivity. Qed.

Lemma no_double_dash_after_dash o :
  no_double_dash false o = true -> lstrip is_dash o = o ->
  runs_to_dash is_dash true o = o.
Proof.
  destruct o as [|c o]; [done|]. simpl.
  destruct (is_dash c) eqn:Hc.
  - intros _ H. apply (f_equal String.length) in H. simpl in H.
    assert (Hlen : forall s, (String.length (lstrip is_dash s) <= String.length s)%nat).
    { induction s as [|x s IH]; simpl; [lia|]. destruct (is_dash x); simpl; lia. }
    specialize (Hlen o). lia.
  - intros H _. by rewrite no_double_dash_fixed.
Qed.

Lemma rstrip_keep p c o :
  o <> EmptyString -> rstrip p o = o -> rstrip p (String c o) = String c o.
Proof. intros Hne Hr. simpl. rewrite Hr. by destruct o. Qed.

(** Deriving from the full slug: the tag is slugified with the body. *)
Lemma slugify_org_twice name :
  slugify_org (slugify_org name) =
  "org_org" +:+
  match slug_body name with
  | EmptyString => EmptyString
  | b => "-" +:+ b
  end.
Proof.
  destruct (slugify_shaped name) as (Hc & Hd & Hl & Hr).
  rewrite <- slug_body_slugify in Hc, Hd, Hl, Hr.
  set (b := slug_body name) in *.
  assert (Hall : forall q : ascii -> bool,
             (forall c, slug_char c = true -> q c = true) -> allc q b = true).
  { intros q Hq. by apply (allc_impl slug_char). }
  assert (Hbody : slugify (slugify_org name) =
                  "org" +:+ match b with EmptyString => EmptyString | _ => "-" +:+ b end).
  { unfold slugify, slugify_org. fold b.
    change ("org_" +:+ b) with (String "o" (String "r" (String "g" (String "_" b)))).
    simpl.
    rewrite (runs_to_dash_none is_quote).
    2:{ apply Hall. intros c Hcc. by destruct (slug_char_facts c Hcc) as (-> & _). }
    rewrite lower_slug_chars by done.
    rewrite delete_chars_none.
    2:{ apply Hall. intros c Hcc. by destruct (slug_char_facts c Hcc) as (-> & _). }
    simpl.
    rewrite cleanup_numbers_none.
    2:{ apply Hall. intros c Hcc. by destruct (slug_char_facts c Hcc) as (_ & _ & -> & _). }
    simpl.
    rewrite (runs_to_dash_none disallowed).
    2:{ apply Hall. intros c Hcc. by destruct (slug_char_facts c Hcc) as (_ & _ & _ & -> & _). }
    rewrite no_double_dash_after_dash by done.
    change (lower_char "o") with "o"%char. change (lower_char "r") with "r"%char.
    change (lower_char "g") with "g"%char.
    destruct b as [|c b']; [reflexivity|].
    unfold strip_chars.
    rewrite (rstrip_keep is_dash "o"); [reflexivity|done|].
    do 3 (apply rstrip_keep; [done|]). exact Hr. }
  unfold slugify_org at 1. unfold slug_body. rewrite Hbody.
  destruct b as [|c b'] eqn:Eb; [reflexivity|]. rewrite <- Eb in *.
  change ("org" +:+ "-" +:+ b) with (String "o" (String "r" (String "g" (String "-" b)))).
  simpl.
  rewrite lower_slug_chars by done. rewrite delete_chars_none; [reflexivity|].
  apply Hall. intros x Hx. by destruct (slug_char_facts x Hx) as (_ & _ & _ & _ & ->).
Qed.

Lemma length_append s t :
  String.length (s +:+ t) = (String.length s + String.length t)%nat.
Proof. induction s as [|c s IH]; [done|]. rewrite append_cons. simpl. by rewrite IH. Qed.

(** So the derivation is idempotent for no name at all. *)
Lemma slugify_org_never_idempotent name :
  slugify_org (slugify_org name) <> slugify_org name.
Proof.
  rewrite slugify_org_twice. unfold slugify_org.
  destruct (slug_body name) as [|c b]; [discriminate|].
  intros H. apply (f_equal String.length) in H.
  rewrite !length_append in H. simpl in H. lia.
Qed.

(** *** What every derived slug looks like, and what the derivation ignores *)

Lemma filtered_slug_chars s : allc slug_char (delete_chars not_slug_char s) = true.
Proof.
  induction s as [|c s IH]; simpl; [done|].
  destruct (not_slug_char c) eqn:Hc; [done|]. simpl. unfold slug_char at 1. by rewrite Hc.
Qed.

(** X1.  Whatever the name, the derived slug is [org_] followed by
    lower-case letters, digits and hyphens only, and it is never the
    name of one of the two collections of the master database that the
    service keeps beside the tenant regions. *)
Theorem slugify_org_is_a_region_name name :
  exists body,
    slugify_org name = "org_" +:+ body /\
    allc slug_char body = true /\
    slugify_org name <> "organizations" /\ slugify_org name <> "admins".
Proof.
  exists (slug_body name). split; [done|]. split.
  - apply filtered_slug_chars.
  - apply slugify_org_not_a_directory.
Qed.






Lemma slugify_app_spaces_l pre s :
  allc is_space pre = true -> slugify (pre +:+ s) = slugify s.
Proof.
  induction pre as [|c pre IH]; [done|]. cbn [allc].
  intros [Hc Hpre]%andb_true_iff. rewrite append_cons, slugify_cons_space by done. auto.
Qed.

(** X3.  The derived slug does not depend on white space before or
    after the name: the handlers that do not strip the name they
    receive address the same organization as those that do. *)
Theorem slugify_org_ignores_outer_space name pre post :
  allc is_space pre = true ->
  allc is_space post = true ->
  slugify_org (pre +:+ name +:+ post) = slugify_org name.
Proof.
  intros Hpre Hpost. unfold slugify_org, slug_body.
  by rewrite slugify_app_spaces_l, slugify_app_spaces.
Qed.

Lemma slugify_org_ignores_outer_space_witness :
  slugify_org ("  " +:+ "Acme Inc" +:+ " ") = slugify_org "Acme Inc".
Proof.
  apply (slugify_org_ignores_outer_space "Acme Inc" "  " " "); reflexivity.
Defined.

(** ** Handlers *)

Import Spec.

#[local] Arguments slugify_org : simpl never.
#[local] Arguments strip : simpl never.
#[local] Arguments lower : simpl never.
#[local] Arguments oid_str : simpl never.
#[local] Arguments String.append : simpl never.

(** *** Running programs and searching collections *)

Lemma run_bind {A B} (p : Prog A) (f : A -> Prog B) w :
  run (bind p f) w =
  match run p w with
  | (Returned a, w1, l1) => let '(o, w2, l2) := run (f a) w1 in (o, w2, l1 ++ l2)
  | (Failed e, w1, l1) => (Failed e, w1, l1)
  end.
Proof.
  revert w. induction p as [a|e|o k IH]; intros w; simpl.
  - by destruct (run (f a) w) as [[? ?] ?].
  - done.
  - destruct (exec o w) as [r w']. rewrite IH.
    destruct (run (k r) w') as [[[a|e] w1] l1]; [|done].
    by destruct (run (f a) w1) as [[? ?] ?].
Qed.

Lemma find_one_none_existsb {A} (q : A -> bool) c :
  find_one q c = None -> existsb q c = false.
Proof.
  induction c as [|d c IH]; simpl; [done|]. destruct (q d); [done|]. auto.
Qed.

Lemma find_one_some {A} (q : A -> bool) c d :
  find_one q c = Some d -> d ∈ c /\ q d = true.
Proof.
  induction c as [|x c IH]; simpl; [done|]. destruct (q x) eqn:E.
  - intros [= ->]. split; [left|done].
  - intros H. destruct (IH H). split; [by right|done].
Qed.

Lemma find_one_first {A} (q : A -> bool) pre d post :
  Forall (fun x => q x = false) pre -> q d = true ->
  find_one q (pre ++ d :: post) = Some d.
Proof.
  induction 1 as [|x pre Hx _ IH]; simpl; intros Hd.
  - by rewrite Hd.
  - rewrite Hx. auto.
Qed.

Lemma fresh_oid_above used x : x ∈ used -> (x < fresh_oid used)%N.
Proof.
  unfold fresh_oid. induction used as [|y used IH]; simpl.
  - by intros ?%elem_of_nil.
  - intros [->|H]%elem_of_cons; [lia|]. specialize (IH H). lia.
Qed.

(** *** The batched copy *)

Lemma same_but_refl name w : same_but name w w.
Proof. repeat split; auto. exists []. by rewrite app_nil_r. Qed.

Lemma same_but_trans name w1 w2 w3 :
  same_but name w1 w2 -> same_but name w2 w3 -> same_but name w1 w3.
Proof.
  intros (Ho & Ha & Hc & Hk & [a1 Hd] & Hs) (Ho' & Ha' & Hc' & Hk' & [a2 Hd'] & Hs').
  repeat split; try congruence.
  - intros k Hne. rewrite Hk', Hk; done.
  - exists (a1 ++ a2). by rewrite Hd', Hd, app_assoc.
  - auto.
Qed.

Lemma covered_mono name w w' d :
  same_but name w w' -> covered (docs_of w name) d -> covered (docs_of w' name) d.
Proof.
  intros (_ & _ & _ & _ & [a Hd] & _) (d' & Hin & Hid).
  exists d'. split; [|done]. rewrite Hd. apply elem_of_app. by left.
Qed.

Lemma insert_unordered_spec docs : forall c c' errs,
  insert_unordered c docs = (c', errs) ->
  (exists added, c' = c ++ added) /\ (forall d, d ∈ docs -> covered c' d).
Proof.
  induction docs as [|d rest IH]; intros c c' errs; simpl.
  - intros [= <- _]. split; [exists []; by rewrite app_nil_r|]. by intros ? ?%elem_of_nil.
  - destruct (existsb (has_doc_id (doc_id d)) c) eqn:E.
    + destruct (insert_unordered c rest) as [c1 e1] eqn:E1. intros [= <- _].
      destruct (IH _ _ _ E1) as [[added ->] Hcov]. split; [by exists added|].
      intros x [->|Hx]%elem_of_cons; [|by apply Hcov].
      apply existsb_exists in E as (d' & Hin & Hid). exists d'. split.
      * apply elem_of_app. left. by apply list_elem_of_In.
      * by apply N.eqb_eq in Hid.
    + intros H. destruct (IH _ _ _ H) as [[added ->] Hcov]. split.
      * exists ([d] ++ added). by rewrite app_assoc.
      * intros x [->|Hx]%elem_of_cons; [|by apply Hcov].
        exists d. split; [|done]. rewrite <- app_assoc. apply elem_of_app. right. by left.
Qed.

Lemma existsb_false_all {A} (q : A -> bool) c :
  (forall x, x ∈ c -> q x = false) -> existsb q c = false.
Proof.
  induction c as [|x c IH]; simpl; [done|]. intros H.
  rewrite (H x) by (by left). apply IH. intros y Hy. apply H. by right.
Qed.

Lemma insert_unordered_fresh docs : forall c,
  NoDup (doc_id <$> (c ++ docs)) -> insert_unordered c docs = (c ++ docs, O).
Proof.
  induction docs as [|d rest IH]; intros c Hnd; simpl.
  - by rewrite app_nil_r.
  - assert (Hd : existsb (has_doc_id (doc_id d)) c = false).
    { apply existsb_false_all. intros x Hx. apply N.eqb_neq. intros Heq.
      rewrite fmap_app, fmap_cons in Hnd. apply NoDup_app in Hnd as (_ & Hdis & _).
      apply (Hdis (doc_id x)); [apply list_elem_of_fmap; by exists x|].
      rewrite Heq. by left. }
    rewrite Hd, IH; [by rewrite <- app_assoc|]. by rewrite <- app_assoc.
Qed.

Lemma docs_of_insert_eq w name c m :
  docs_of (set_colls w (<[name := c]> m)) name = c.
Proof. unfold docs_of. simpl. by rewrite lookup_insert_eq. Qed.

Lemma exec_insert_many name batch w :
  batch <> [] ->
  same_but name w (exec (InsertMany name batch) w).2 /\
  (forall d, d ∈ batch -> covered (docs_of (exec (InsertMany name batch) w).2 name) d) /\
  is_Some (colls (exec (InsertMany name batch) w).2 !! name).
Proof.
  intros Hne. destruct batch as [|b batch]; [done|].
  cbn [exec]. destruct (insert_unordered (docs_of w name) (b :: batch)) as [c errs] eqn:E.
  destruct (insert_unordered_spec _ _ _ _ E) as [[added ->] Hcov].
  assert (Hw : forall r : Exn + unit,
    same_but name w
      (r, set_colls w (<[name := docs_of w name ++ added]> (colls w))).2 /\
    (forall d, d ∈ b :: batch ->
      covered (docs_of (r, set_colls w (<[name := docs_of w name ++ added]> (colls w))).2 name) d) /\
    is_Some (colls (r, set_colls w (<[name := docs_of w name ++ added]> (colls w))).2 !! name)).
  { intros r. simpl. rewrite docs_of_insert_eq, lookup_insert_eq.
    split; [|split; [done|by eexists]].
    unfold same_but. simpl. rewrite docs_of_insert_eq, lookup_insert_eq.
    repeat split; auto.
    - intros k Hk. by rewrite lookup_insert_ne.
    - by exists added. }
  destruct errs; apply Hw.
Qed.

Lemma exec_insert_many_fresh name batch w :
  batch <> [] ->
  NoDup (doc_id <$> (docs_of w name ++ batch)) ->
  docs_of (exec (InsertMany name batch) w).2 name = docs_of w name ++ batch.
Proof.
  intros Hne Hnd. destruct batch as [|b batch]; [done|].
  cbn [exec]. rewrite (insert_unordered_fresh _ _ Hnd). cbn [snd].
  apply docs_of_insert_eq.
Qed.

Lemma run_try_pass {B} o (k : unit -> Prog B) w :
  run (bind (try_pass o) k) w =
  let '(out, w', log) := run (k tt) (exec o w).2 in (out, w', (w, o) :: log).
Proof. simpl. by destruct (exec o w). Qed.

Lemma run_await {B} o (k : Val o -> Prog B) w :
  run (bind (await o) k) w =
  match (exec o w).1 with
  | inl e => (Failed e, (exec o w).2, [(w, o)])
  | inr v => let '(out, w', log) := run (k v) (exec o w).2 in (out, w', (w, o) :: log)
  end.
Proof. simpl. by destruct (exec o w) as [[e|v] w']. Qed.

Lemma copy_call_from name w w' e :
  same_but name w w' -> copy_call name w' e -> copy_call name w e.
Proof. intros H [Hb Hs]. split; [done|]. by eapply same_but_trans. Qed.

Lemma run_migrate env name cursor : forall batch count w,
  exists batch' count' w' log,
    run (migrate env name cursor batch count) w = (Returned (batch', count'), w', log) /\
    same_but name w w' /\
    Forall (copy_call name w) log /\
    (forall d, d ∈ batch ++ cursor -> d ∈ batch' \/ covered (docs_of w' name) d) /\
    (NoDup (doc_id <$> (docs_of w name ++ batch ++ cursor)) ->
     docs_of w' name ++ batch' = docs_of w name ++ batch ++ cursor).
Proof.
  induction cursor as [|doc cursor IH]; intros batch count w.
  - exists batch, count, w, []. simpl.
    split; [done|]. split; [apply same_but_refl|]. split; [constructor|]. split.
    + intros d. rewrite app_nil_r. auto.
    + by rewrite app_nil_r.
  - cbn [migrate].
    destruct (BATCH_SIZE env <=? Z.of_nat (length (batch ++ [doc]))).
    + rewrite run_try_pass.
      assert (Hne : batch ++ [doc] <> []) by (by destruct batch).
      destruct (exec_insert_many name _ w Hne) as (Hs & Hcov & _).
      set (w1 := (exec (InsertMany name (batch ++ [doc])) w).2) in *.
      destruct (IH [] (count + length (batch ++ [doc]))%nat w1)
        as (batch' & count' & w' & log & -> & Hs' & Hlog & Hd & Hv).
      exists batch', count', w', ((w, InsertMany name (batch ++ [doc])) :: log).
      split; [done|]. split; [|split; [|split]].
      * by eapply same_but_trans.
      * constructor.
        -- split; [by eexists|apply same_but_refl].
        -- eapply Forall_impl; [exact Hlog|]. intros e. by apply copy_call_from.
      * intros d. rewrite (assoc_L _ batch [doc] cursor : batch ++ doc :: cursor = (batch ++ [doc]) ++ cursor).
        intros [Hb|Hc]%elem_of_app.
        -- right. eapply covered_mono; [exact Hs'|]. by apply Hcov.
        -- apply Hd. by rewrite app_nil_l.
      * intros Hnd.
        rewrite (assoc_L _ batch [doc] cursor : batch ++ doc :: cursor = (batch ++ [doc]) ++ cursor)
          in Hnd.
        assert (Hw1 : docs_of w1 name = docs_of w name ++ batch ++ [doc]).
        { apply exec_insert_many_fresh; [done|].
          rewrite !app_assoc in Hnd. rewrite fmap_app in Hnd.
          apply NoDup_app in Hnd as (Hnd & _). by rewrite <- app_assoc in Hnd. }
        rewrite Hv; rewrite Hw1, ?app_nil_l, <- ?app_assoc; [done|].
        by rewrite <- !app_assoc in Hnd.
    + destruct (IH (batch ++ [doc]) count w)
        as (batch' & count' & w' & log & -> & Hs' & Hlog & Hd & Hv).
      exists batch', count', w', log.
      split; [done|]. split; [done|]. split; [done|]. split.
      * intros d Hin. apply Hd. by rewrite <- app_assoc.
      * intros Hnd. rewrite Hv; by rewrite <- !app_assoc.
Qed.

(** *** The rename branch *)

Lemma exec_create_collection name w :
  same_but name w (exec (CreateCollection name) w).2 /\
  is_Some (colls (exec (CreateCollection name) w).2 !! name).
Proof.
  cbn [exec]. destruct (colls w !! name) as [c|] eqn:E; simpl.
  - split; [apply same_but_refl|]. rewrite E. by eexists.
  - rewrite lookup_insert_eq. split; [|by eexists].
    unfold same_but. simpl. rewrite docs_of_insert_eq, lookup_insert_eq.
    repeat split; auto.
    + intros k Hk. by rewrite lookup_insert_ne.
    + exists []. unfold docs_of. by rewrite E.
Qed.

Lemma find_one_elem {A} (q : A -> bool) c d :
  d ∈ c -> q d = true -> is_Some (find_one q c).
Proof.
  induction c as [|x c IH]; [by intros ?%elem_of_nil|]. simpl.
  intros [->|H]%elem_of_cons Hq.
  - rewrite Hq. by eexists.
  - destruct (q x); [by eexists|auto].
Qed.

Lemma find_one_none_all {A} (q : A -> bool) c :
  find_one q c = None -> forall d, d ∈ c -> q d = false.
Proof.
  induction c as [|x c IH]; simpl; [by intros _ d ?%elem_of_nil|].
  destruct (q x) eqn:E; [done|]. intros H d [->|Hd]%elem_of_cons; auto.
Qed.

Lemma existsb_and_none {A} (p q : A -> bool) c :
  find_one q c = None -> existsb (fun e => p e && q e) c = false.
Proof.
  intros H. induction c as [|x c IH]; simpl in *; [done|].
  destruct (q x); [done|]. rewrite andb_false_r. simpl. auto.
Qed.

Lemma find_one_update_one (q p : OrgDoc -> bool) f c d :
  find_one q c = None -> find_one p c = Some d -> q (f d) = true ->
  find_one q (update_one p f c) = Some (f d).
Proof.
  intros Hq Hp Hf. induction c as [|x c IH]; simpl in *; [done|].
  destruct (q x) eqn:Eq; [done|]. destruct (p x) eqn:Ep.
  - injection Hp as ->. simpl. by rewrite Hf.
  - simpl. rewrite Eq. auto.
Qed.

Lemma docs_of_create_collection name w k :
  docs_of (exec (CreateCollection name) w).2 k = docs_of w k.
Proof.
  cbn [exec]. destruct (colls w !! name) as [c|] eqn:E; [done|].
  unfold docs_of. cbn [snd colls set_colls].
  destruct (decide (name = k)) as [->|Hne].
  - by rewrite lookup_insert_eq, E.
  - by rewrite lookup_insert_ne.
Qed.

Lemma run_rename env w org current_slug new_name new_slug now :
  new_slug <> current_slug ->
  find_one (has_slug new_slug) (orgs w) = None ->
  org ∈ orgs w ->
  exists w2 copies d,
    let updates := rename_updates new_name new_slug now in
    let w1 := (exec (CreateCollection new_slug) w).2 in
    let w3 := set_orgs w2 (update_one (has_org_id (org_id org)) (org_apply updates) (orgs w)) in
    let w4 := set_colls w3 (delete current_slug (colls w2)) in
    run (rename env org current_slug new_name new_slug now) w =
      (Returned (updates, Some (org_apply updates d)), w4,
       (w, OrgsFindOne new_slug) :: (w, CreateCollection new_slug) ::
       (w1, Find current_slug) :: copies ++
       [(w2, OrgsUpdateOne (org_id org) updates);
        (w3, DropCollection current_slug);
        (w4, OrgsFindOne new_slug)]) /\
    same_but new_slug w w2 /\
    Forall (copy_call new_slug w) copies /\
    (forall x, x ∈ docs_of w current_slug -> covered (docs_of w2 new_slug) x) /\
    is_Some (colls w2 !! new_slug) /\
    find_one (has_org_id (org_id org)) (orgs w) = Some d /\
    (docs_of w new_slug = [] -> NoDup (doc_id <$> docs_of w current_slug) ->
     docs_of w2 new_slug = docs_of w current_slug).
Proof.
  intros Hne Hfree Horg.
  destruct (find_one_elem (has_org_id (org_id org)) _ _ Horg (N.eqb_refl _)) as [d Hd].
  destruct (exec_create_collection new_slug w) as [Hs1 Hex1].
  set (w1 := (exec (CreateCollection new_slug) w).2) in *.
  destruct (run_migrate env new_slug (docs_of w1 current_slug) [] O w1)
    as (batch & count & wm & log & Hrun & Hsm & Hlog & Hcov & Hverb).
  assert (Hsrc : docs_of w1 current_slug = docs_of w current_slug)
    by apply docs_of_create_collection.
  assert (Hdst : docs_of w1 new_slug = docs_of w new_slug)
    by apply docs_of_create_collection.
  (* the final flush *)
  assert (Hflush : exists w2 fl,
    (forall (B : Type) (k : nat -> Prog B),
       run (bind (match batch with
             | [] => Ret count
             | _ => bind (try_pass (InsertMany new_slug batch))
                      (fun _ => Ret (count + length batch)%nat)
             end) k) wm =
       let '(out, w', l) := run (k (match batch with [] => count | _ => (count + length batch)%nat end)) w2 in
       (out, w', fl ++ l)) /\
    same_but new_slug wm w2 /\ Forall (copy_call new_slug wm) fl /\
    (forall x, x ∈ batch -> covered (docs_of w2 new_slug) x) /\
    (NoDup (doc_id <$> (docs_of wm new_slug ++ batch)) ->
     docs_of w2 new_slug = docs_of wm new_slug ++ batch)).
  { destruct batch as [|b batch].
    - exists wm, [].
      split; [|split; [apply same_but_refl|split; [constructor|split]]].
      + intros B k. simpl. by destruct (run (k count) wm) as [[? ?] ?].
      + by intros ? ?%elem_of_nil.
      + by rewrite app_nil_r.
    - destruct (exec_insert_many new_slug (b :: batch) wm) as (Hs & Hc & _); [done|].
      exists (exec (InsertMany new_slug (b :: batch)) wm).2, [(wm, InsertMany new_slug (b :: batch))].
      split; [|split; [done|split; [|split; [done|]]]].
      + intros B k. cbn [bind try_pass]. cbn [run].
        destruct (exec (InsertMany new_slug (b :: batch)) wm) as [r w']. simpl.
        by destruct (run (k _) w') as [[? ?] ?].
      + constructor; [|constructor]. split; [by eexists|apply same_but_refl].
      + by apply exec_insert_many_fresh. }
  destruct Hflush as (w2 & fl & Hfl & Hs2 & Hflog & Hfcov & Hfverb).
  assert (Hs02 : same_but new_slug w w2).
  { eapply same_but_trans; [exact Hs1|]. eapply same_but_trans; [exact Hsm|exact Hs2]. }
  assert (Horgs2 : orgs w2 = orgs w) by apply Hs02.
  exists w2, (log ++ fl), d. cbn zeta.
  split; [|split; [done|split; [|split; [|split; [|split; [done|]]]]]].
  - unfold rename. rewrite run_await. cbn [exec fst snd]. rewrite Hfree.
    rewrite run_try_pass. fold w1.
    rewrite run_await. cbn [exec fst snd].
    rewrite run_bind, Hrun. rewrite Hfl.
    rewrite run_await. cbn [exec fst snd]. rewrite Horgs2, Hd.
    fold (rename_updates new_name new_slug now).
    rewrite existsb_and_none.
    2:{ replace (slug (org_fields (org_apply (rename_updates new_name new_slug now) d)))
          with new_slug by reflexivity. exact Hfree. }
    cbn [fst snd]. rewrite run_try_pass. cbn [exec snd].
    rewrite run_await. cbn [exec fst snd set_orgs set_colls orgs colls].
    rewrite (find_one_update_one _ _ _ _ d Hfree Hd).
    2:{ unfold has_slug. simpl. apply String.eqb_refl. }
    cbn [run]. by rewrite (app_assoc log fl).
  - apply Forall_app. split.
    + eapply Forall_impl; [exact Hlog|]. intros e. by apply copy_call_from.
    + eapply Forall_impl; [exact Hflog|]. intros e. apply copy_call_from.
      eapply same_but_trans; [exact Hs1|exact Hsm].
  - intros x Hx. rewrite <- Hsrc in Hx.
    destruct (Hcov x) as [Hb|Hc]; [by rewrite app_nil_l|by apply Hfcov|].
    exact (covered_mono _ _ _ _ Hs2 Hc).
  - destruct Hs2 as (_ & _ & _ & _ & _ & Hs2). apply Hs2.
    destruct Hsm as (_ & _ & _ & _ & _ & Hsm). by apply Hsm.
  - intros Hempty Hnd. rewrite Hdst, Hsrc, Hempty in Hverb.
    cbn [app] in Hverb. specialize (Hverb Hnd).
    rewrite Hfverb; [done|]. by rewrite Hverb.
Qed.

(** *** The whole update handler *)

Lemma run_update_tail env payload o now updates w :
  exists out w' l,
    run (update_tail env payload (Some o) now updates) w = (out, w', l) /\
    orgs w' = orgs w /\ colls w' = colls w /\
    Forall (fun e : World * Op => region_or_directory_write e.2 = false) l /\
    match find_one (admin_matches (ByOrganizationId (oid_str (org_id o)))) (admins w) with
    | None =>
        if wants_admin_update payload
        then out = Failed admin_missing /\ w' = w
        else out = Returned (mkUpdateOut updates)
    | Some _ => out = Returned (mkUpdateOut updates)
    end.
Proof.
  unfold update_tail, wants_admin_update.
  destruct (truthy (update_email payload) || truthy (update_password payload)) eqn:Hw.
  - unfold update_admin. rewrite run_bind, run_await. cbn [exec fst snd].
    destruct (find_one _ (admins w)) as [a|] eqn:Ha.
    + destruct (update_email payload) as [[|c e]|], (update_password payload) as [[|c' p]|];
        cbn; (eexists _, _, _; split; [reflexivity|]);
        repeat split; auto; try discriminate Hw; repeat constructor.
    + cbn. eexists _, _, _. split; [reflexivity|]. repeat split; auto; repeat constructor.
  - cbn. eexists _, _, _. split; [reflexivity|]. repeat split; auto.
    by destruct (find_one _ _).
Qed.

Lemma run_update_organization env payload w :
  let cur := slugify_org (update_organization_name payload) in
  run (update_organization env payload) w =
  match find_one (has_slug cur) (orgs w) with
  | None => (Failed not_found, w, [(w, OrgsFindOne cur)])
  | Some org =>
      logged [(w, OrgsFindOne cur); (w, UtcNow)]
        match renames_to payload with
        | None => run (update_tail env payload (Some org) (clock w) []) w
        | Some (new_name, new_slug) =>
            run (bind (rename env org cur new_name new_slug (clock w))
                   (fun r => update_tail env payload r.2 (clock w) r.1)) w
        end
  end.
Proof.
  intros cur. unfold update_organization. fold cur.
  rewrite run_await. cbn [exec fst snd].
  destruct (find_one (has_slug cur) (orgs w)) as [org|]; [|done].
  rewrite run_await. cbn [exec fst snd]. unfold renames_to. fold cur.
  destruct (new_organization_name payload) as [n|].
  - destruct (truthy (Some n)).
    + destruct (String.eqb (slugify_org (strip n)) cur).
      * cbn [bind]. fold (update_tail env payload (Some org) (clock w) []).
        by destruct (run (update_tail env payload (Some org) (clock w) []) w) as [[? ?] ?].
      * rewrite !run_bind.
        destruct (run (rename env org cur (strip n) (slugify_org (strip n)) (clock w)) w)
          as [[[[u o]|e] w1] l1]; [|done].
        cbn [fst snd]. fold (update_tail env payload o (clock w) u).
        by destruct (run (update_tail env payload o (clock w) u) w1) as [[? ?] ?].
    + cbn [bind]. fold (update_tail env payload (Some org) (clock w) []).
      by destruct (run (update_tail env payload (Some org) (clock w) []) w) as [[? ?] ?].
  - cbn [bind]. fold (update_tail env payload (Some org) (clock w) []).
    by destruct (run (update_tail env payload (Some org) (clock w) []) w) as [[? ?] ?].
Qed.

Lemma renames_to_same payload n :
  new_organization_name payload = Some n ->
  slugify_org (strip n) = slugify_org (update_organization_name payload) ->
  renames_to payload = None.
Proof.
  intros Hn Hs. unfold renames_to. rewrite Hn, Hs, String.eqb_refl. by destruct (truthy _).
Qed.

Lemma renames_to_some payload n :
  new_organization_name payload = Some n -> truthy (Some n) = true ->
  slugify_org (strip n) <> slugify_org (update_organization_name payload) ->
  renames_to payload = Some (strip n, slugify_org (strip n)).
Proof.
  intros Hn Ht Hs. unfold renames_to. rewrite Hn, Ht.
  apply String.eqb_neq in Hs. by rewrite Hs.
Qed.

Lemma renames_to_inv payload new_name new_slug :
  renames_to payload = Some (new_name, new_slug) ->
  new_slug <> slugify_org (update_organization_name payload) /\
  exists n, new_organization_name payload = Some n /\ truthy (Some n) = true /\
            new_name = strip n /\ new_slug = slugify_org (strip n).
Proof.
  unfold renames_to. destruct (new_organization_name payload) as [n|]; [|done].
  destruct (truthy (Some n)) eqn:Ht; [|done].
  destruct (String.eqb _ _) eqn:E; [done|]. intros [= <- <-].
  apply String.eqb_neq in E. split; [done|]. by exists n.
Qed.

(** C4.  A rename request whose new name derives the current slug leaves
    the organization directory and the tenant regions as they were: no
    record field changes (display name, slug, region name and update
    time included), no region is created or dropped, no call of the
    handler writes the directory or a region, and the response reports
    no updated field. *)
Theorem rename_same_slug_noop env w payload n :
  new_organization_name payload = Some n ->
  slugify_org (strip n) = slugify_org (update_organization_name payload) ->
  orgs (final (update_organization env payload) w) = orgs w /\
  colls (final (update_organization env payload) w) = colls w /\
  reads_only (run (update_organization env payload) w).2 /\
  match outcome (update_organization env payload) w with
  | Returned out => updated out = []
  | Failed _ => True
  end.
Proof.
  intros Hn Hs. unfold final, outcome. rewrite run_update_organization.
  rewrite (renames_to_same _ _ Hn Hs).
  destruct (find_one _ (orgs w)) as [org|].
  - destruct (run_update_tail env payload org (clock w) [] w)
      as (out & w' & l & -> & Ho & Hc & Hl & Hout).
    unfold logged. cbn [fst snd]. split; [done|]. split; [done|]. split.
    + by repeat constructor.
    + destruct (find_one _ (admins w)); [by subst|].
      destruct (wants_admin_update payload); [by destruct Hout as [-> _]|by subst].
  - cbn [fst snd]. split; [done|]. split; [done|]. split; [|done]. by repeat constructor.
Qed.

Lemma rename_same_slug_noop_witness :
  orgs (final (update_organization Demo.env Demo.respell_acme) Demo.one_org) = orgs Demo.one_org /\
  colls (final (update_organization Demo.env Demo.respell_acme) Demo.one_org) = colls Demo.one_org /\
  reads_only (run (update_organization Demo.env Demo.respell_acme) Demo.one_org).2 /\
  match outcome (update_organization Demo.env Demo.respell_acme) Demo.one_org with
  | Returned out => updated out = []
  | Failed _ => True
  end.
Proof.
  apply (rename_same_slug_noop Demo.env Demo.one_org Demo.respell_acme "ACME, inc.").
  - reflexivity.
  - vm_compute. reflexivity.
Defined.

Lemma find_by_id_id id c d : find_one (has_org_id id) c = Some d -> org_id d = id.
Proof. intros [_ H]%find_one_some. by apply N.eqb_eq in H. Qed.

Lemma run_update_rename env w payload org new_name new_slug :
  let cur := slugify_org (update_organization_name payload) in
  let updates := rename_updates new_name new_slug (clock w) in
  find_one (has_slug cur) (orgs w) = Some org ->
  renames_to payload = Some (new_name, new_slug) ->
  find_one (has_slug new_slug) (orgs w) = None ->
  exists w2 copies out w' tail,
    let w1 := (exec (CreateCollection new_slug) w).2 in
    let w3 := set_orgs w2 (update_one (has_org_id (org_id org)) (org_apply updates) (orgs w)) in
    let w4 := set_colls w3 (delete cur (colls w2)) in
    run (update_organization env payload) w =
      (out, w',
       [(w, OrgsFindOne cur); (w, UtcNow); (w, OrgsFindOne new_slug);
        (w, CreateCollection new_slug); (w1, Find cur)] ++ copies ++
       [(w2, OrgsUpdateOne (org_id org) updates); (w3, DropCollection cur)] ++
       (w4, OrgsFindOne new_slug) :: tail) /\
    same_but new_slug w w2 /\
    Forall (copy_call new_slug w) copies /\
    (forall x, x ∈ docs_of w cur -> covered (docs_of w2 new_slug) x) /\
    is_Some (colls w2 !! new_slug) /\
    orgs w' = orgs w4 /\ colls w' = colls w4 /\ reads_only tail /\
    match find_one (admin_matches (ByOrganizationId (oid_str (org_id org)))) (admins w) with
    | None =>
        if wants_admin_update payload
        then out = Failed admin_missing
        else out = Returned (mkUpdateOut updates)
    | Some _ => out = Returned (mkUpdateOut updates)
    end /\
    (docs_of w new_slug = [] -> NoDup (doc_id <$> docs_of w cur) ->
     docs_of w2 new_slug = docs_of w cur).
Proof.
  intros cur updates Horg Hren Hfree.
  destruct (renames_to_inv _ _ _ Hren) as [Hne _].
  destruct (find_one_some _ _ _ Horg) as [Hin _].
  destruct (run_rename env w org cur new_name new_slug (clock w) Hne Hfree Hin)
    as (w2 & copies & d & Hrun & Hs & Hcopies & Hcov & Hex & Hd & Hverb).
  cbn zeta in Hrun. fold updates in Hrun.
  set (w3 := set_orgs w2 (update_one (has_org_id (org_id org)) (org_apply updates) (orgs w))) in *.
  set (w4 := set_colls w3 (delete cur (colls w2))) in *.
  destruct (run_update_tail env payload (org_apply updates d) (clock w) updates w4)
    as (out & w' & tail & Htail & Ho & Hc & Hl & Hout).
  exists w2, copies, out, w', tail. cbn zeta.
  split; [|split; [done|split; [done|split; [done|split; [done|split; [done|split; [done|split; [done|split; [|done]]]]]]]]].
  - rewrite run_update_organization. fold cur. rewrite Horg, Hren.
    rewrite run_bind, Hrun. cbn [fst snd]. rewrite Htail. unfold logged. cbn [fst snd].
    f_equal. cbn [app]. do 5 f_equal. by rewrite <- app_assoc.
  - replace (org_id (org_apply updates d)) with (org_id org) in Hout
      by (symmetry; exact (find_by_id_id _ _ _ Hd)).
    replace (admins w4) with (admins w) in Hout.
    2:{ destruct Hs as (_ & Ha & _). by rewrite <- Ha. }
    destruct (find_one _ (admins w)); [done|].
    destruct (wants_admin_update payload); [by destruct Hout|done].
Qed.

Lemma run_rename_conflict env w org cur new_name new_slug now c :
  find_one (has_slug new_slug) (orgs w) = Some c ->
  run (rename env org cur new_name new_slug now) w =
  (Failed new_name_exists, w, [(w, OrgsFindOne new_slug)]).
Proof. intros H. unfold rename. rewrite run_await. cbn [exec fst snd]. by rewrite H. Qed.

(** C2.  After a rename that returns, run with no concurrent writer and
    whatever the batch size, every document of the source region has a
    document with its identifier in the destination region, and the
    source region no longer exists. *)
Theorem rename_migrates_every_document env w payload n out w' log :
  let cur := slugify_org (update_organization_name payload) in
  let new := slugify_org (strip n) in
  new_organization_name payload = Some n ->
  truthy (Some n) = true ->
  new <> cur ->
  run (update_organization env payload) w = (Returned out, w', log) ->
  (forall x, x ∈ docs_of w cur -> covered (docs_of w' new) x) /\
  colls w' !! cur = None.
Proof.
  intros cur new Hn Ht Hne Hrun.
  pose proof (renames_to_some _ _ Hn Ht Hne) as Hren. fold new in Hren.
  destruct (find_one (has_slug cur) (orgs w)) as [org|] eqn:Horg.
  2:{ rewrite run_update_organization in Hrun. fold cur in Hrun. by rewrite Horg in Hrun. }
  destruct (find_one (has_slug new) (orgs w)) as [c|] eqn:Hfree.
  { rewrite run_update_organization in Hrun. fold cur in Hrun.
    rewrite Horg, Hren, run_bind, (run_rename_conflict _ _ _ _ _ _ _ c Hfree) in Hrun.
    discriminate Hrun. }
  destruct (run_update_rename env w payload org (strip n) new Horg Hren Hfree)
    as (w2 & copies & out' & w'' & tail & Hrun' & Hs & _ & Hcov & _ & _ & Hc & _).
  cbn zeta in Hrun', Hc. fold cur in Hrun', Hc. rewrite Hrun in Hrun'.
  injection Hrun' as _ <- _. cbn [colls set_colls] in Hc. split.
  - intros x Hx. destruct (Hcov x Hx) as (x' & Hin & Hid). exists x'. split; [|done].
    unfold docs_of in *. by rewrite Hc, lookup_delete_ne.
  - by rewrite Hc, lookup_delete_eq.
Qed.

Lemma rename_migrates_every_document_witness :
  (forall x,
     x ∈ docs_of Demo.five_docs (slugify_org "Acme Inc") ->
     covered
       (docs_of (final (update_organization Demo.env Demo.rename_acme) Demo.five_docs)
          (slugify_org (strip "Acme Corp"))) x) /\
  colls (final (update_organization Demo.env Demo.rename_acme) Demo.five_docs)
    !! slugify_org "Acme Inc" = None.
Proof.
  eapply (rename_migrates_every_document Demo.env Demo.five_docs Demo.rename_acme "Acme Corp").
  - reflexivity.
  - reflexivity.
  - vm_compute. discriminate.
  - vm_compute. reflexivity.
Defined.

(** With an empty or absent destination and distinct source
    identifiers, the destination ends up with exactly the source
    documents, verbatim and in their order. *)
Lemma rename_copies_verbatim env w payload n out w' log :
  let cur := slugify_org (update_organization_name payload) in
  let new := slugify_org (strip n) in
  new_organization_name payload = Some n ->
  truthy (Some n) = true ->
  new <> cur ->
  run (update_organization env payload) w = (Returned out, w', log) ->
  docs_of w new = [] ->
  NoDup (doc_id <$> docs_of w cur) ->
  docs_of w' new = docs_of w cur.
Proof.
  intros cur new Hn Ht Hne Hrun Hempty Hnd.
  pose proof (renames_to_some _ _ Hn Ht Hne) as Hren. fold new in Hren.
  destruct (find_one (has_slug cur) (orgs w)) as [org|] eqn:Horg.
  2:{ rewrite run_update_organization in Hrun. fold cur in Hrun. by rewrite Horg in Hrun. }
  destruct (find_one (has_slug new) (orgs w)) as [c|] eqn:Hfree.
  { rewrite run_update_organization in Hrun. fold cur in Hrun.
    rewrite Horg, Hren, run_bind, (run_rename_conflict _ _ _ _ _ _ _ c Hfree) in Hrun.
    discriminate Hrun. }
  destruct (run_update_rename env w payload org (strip n) new Horg Hren Hfree)
    as (w2 & copies & out' & w'' & tail & Hrun' & _ & _ & _ & _ & _ & Hc & _ & _ & Hverb).
  cbn zeta in Hrun', Hc. fold cur in Hrun', Hc, Hverb. rewrite Hrun in Hrun'.
  injection Hrun' as _ <- _. cbn [colls set_colls] in Hc.
  rewrite <- (Hverb Hempty Hnd). unfold docs_of. by rewrite Hc, lookup_delete_ne.
Qed.

(** Batch size 2, five source documents: three batches, and the
    destination holds the five documents in their order. *)
Example rename_five_documents_in_three_batches :
  calls (update_organization Demo.env Demo.rename_acme) Demo.five_docs =
  [OrgsFindOne "org_acme-inc"; UtcNow; OrgsFindOne "org_acme-corp";
   CreateCollection "org_acme-corp"; Find "org_acme-inc";
   InsertMany "org_acme-corp" [mkDoc 1%N (Meta 1700000000 1); mkDoc 2%N (Data "a")];
   InsertMany "org_acme-corp" [mkDoc 3%N (Data "b"); mkDoc 4%N (Data "c")];
   InsertMany "org_acme-corp" [mkDoc 5%N (Data "d")];
   OrgsUpdateOne 1%N (rename_updates "Acme Corp" "org_acme-corp" 1700000000);
   DropCollection "org_acme-inc"; OrgsFindOne "org_acme-corp"] /\
  docs_of (final (update_organization Demo.env Demo.rename_acme) Demo.five_docs)
    "org_acme-corp" = docs_of Demo.five_docs "org_acme-inc".
Proof. split; vm_compute; reflexivity. Qed.

(** The default batch size 500 copies the five documents in the final
    flush alone; a batch size of zero flushes every document by itself.
    The destination is the same. *)
Example rename_five_documents_other_batch_sizes :
  filter (fun o => region_or_directory_write o)
    (calls (update_organization (Demo.env_with_batch 500) Demo.rename_acme) Demo.five_docs) =
  [CreateCollection "org_acme-corp";
   InsertMany "org_acme-corp" (docs_of Demo.five_docs "org_acme-inc");
   OrgsUpdateOne 1%N (rename_updates "Acme Corp" "org_acme-corp" 1700000000);
   DropCollection "org_acme-inc"] /\
  filter (fun o => region_or_directory_write o)
    (calls (update_organization (Demo.env_with_batch 0) Demo.rename_acme) Demo.five_docs) =
  [CreateCollection "org_acme-corp"] ++
  ((fun d => InsertMany "org_acme-corp" [d]) <$> docs_of Demo.five_docs "org_acme-inc") ++
  [OrgsUpdateOne 1%N (rename_updates "Acme Corp" "org_acme-corp" 1700000000);
   DropCollection "org_acme-inc"] /\
  final (update_organization (Demo.env_with_batch 500) Demo.rename_acme) Demo.five_docs =
  final (update_organization (Demo.env_with_batch 0) Demo.rename_acme) Demo.five_docs.
Proof. repeat split; vm_compute; reflexivity. Qed.

Lemma repoint_unreferenced c : forall org cur new_name new_slug now,
  NoDup (org_id <$> c) ->
  NoDup ((fun o => slug (org_fields o)) <$> c) ->
  (forall o, o ∈ c -> collection_name (org_fields o) = slug (org_fields o)) ->
  find_one (has_slug cur) c = Some org ->
  new_slug <> cur ->
  let c' := update_one (has_org_id (org_id org))
              (org_apply (rename_updates new_name new_slug now)) c in
  (forall o, o ∈ c' -> ~ references o cur) /\
  (exists o, o ∈ c' /\ org_id o = org_id org /\
             slug (org_fields o) = new_slug /\ collection_name (org_fields o) = new_slug).
Proof.
  induction c as [|x c IH]; intros org cur new_name new_slug now Hid Hsl Hcn Hfind Hne; [done|].
  simpl in Hfind. rewrite fmap_cons in Hid. rewrite fmap_cons in Hsl.
  apply NoDup_cons in Hid as [Hx Hid]. apply NoDup_cons in Hsl as [Hxs Hsl].
  destruct (has_slug cur x) eqn:E.
  - injection Hfind as ->. cbn zeta. simpl.
    assert (Hself : has_org_id (org_id org) org = true) by apply N.eqb_refl.
    rewrite !Hself. split.
    + intros o [->|Ho]%elem_of_cons.
      * unfold references. simpl. intros [?|?]; congruence.
      * apply String.eqb_eq in E. intros [Hr|Hr].
        -- apply Hxs. rewrite E, <- Hr. apply list_elem_of_fmap. by exists o.
        -- apply Hxs. rewrite E, <- Hr, (Hcn o) by (by right).
           apply list_elem_of_fmap. by exists o.
    + eexists. split; [by left|]. done.
  - destruct (find_one_some _ _ _ Hfind) as [Hin Hs].
    assert (Hxo : has_org_id (org_id org) x = false).
    { apply N.eqb_neq. intros Heq. apply Hx. rewrite Heq.
      apply list_elem_of_fmap. by exists org. }
    cbn zeta. simpl. rewrite Hxo.
    destruct (IH org cur new_name new_slug now Hid Hsl) as [Hall Hex]; auto.
    { intros o Ho. apply Hcn. by right. }
    split.
    + intros o [->|Ho]%elem_of_cons; [|by apply Hall].
      apply String.eqb_neq in E. intros [Hr|Hr]; [done|].
      rewrite (Hcn x) in Hr by (by left). done.
    + destruct Hex as (o & Ho & H). exists o. split; [by right|done].
Qed.

(** C6.  A rename execution, from a directory with unique identifiers
    and slugs whose records name their region by the slug, issues its
    calls in this order: creation of the destination region, the scan,
    the batched copy (every batch written to a store whose directory
    and other regions are as at the start), the repointing of the
    directory record, the drop of the source region; only reads and
    credential updates follow.
    When the record is repointed the directory is still unchanged, the
    source region is intact, and the destination exists and holds a
    document for every source identifier.  When the source region is
    dropped no directory record references it, and the record of the
    organization references the destination. *)
Theorem rename_copies_then_repoints_then_drops env w payload org n :
  let cur := slugify_org (update_organization_name payload) in
  let new_name := strip n in
  let new := slugify_org new_name in
  let updates := rename_updates new_name new (clock w) in
  directory_ok w ->
  find_one (has_slug cur) (orgs w) = Some org ->
  new_organization_name payload = Some n ->
  truthy (Some n) = true ->
  new <> cur ->
  find_one (has_slug new) (orgs w) = None ->
  exists w1 w2 w3 copies tail,
    (run (update_organization env payload) w).2 =
      [(w, OrgsFindOne cur); (w, UtcNow); (w, OrgsFindOne new);
       (w, CreateCollection new); (w1, Find cur)] ++ copies ++
      [(w2, OrgsUpdateOne (org_id org) updates); (w3, DropCollection cur)] ++ tail /\
    Forall (copy_call new w) copies /\
    reads_only tail /\
    (orgs w2 = orgs w /\ colls w2 !! cur = colls w !! cur /\
     is_Some (colls w2 !! new) /\
     forall x, x ∈ docs_of w cur -> covered (docs_of w2 new) x) /\
    (colls w3 = colls w2 /\
     (forall o, o ∈ orgs w3 -> ~ references o cur) /\
     exists o, o ∈ orgs w3 /\ org_id o = org_id org /\ references o new).
Proof.
  intros cur new_name new updates (Hid & Hsl & Hcn) Horg Hn Ht Hne Hfree.
  pose proof (renames_to_some _ _ Hn Ht Hne) as Hren.
  rewrite Forall_forall in Hcn.
  destruct (run_update_rename env w payload org new_name new Horg Hren Hfree)
    as (w2 & copies & out & w' & tail & Hrun & Hs & Hcopies & Hcov & Hex & _ & _ & Htail & _).
  cbn zeta in Hrun. fold cur updates in Hrun.
  destruct (repoint_unreferenced (orgs w) org cur new_name new (clock w) Hid Hsl Hcn Horg Hne)
    as [Hunref (o & Ho & Hoid & Hos & Hoc)].
  eexists _, w2, _, copies, (_ :: tail). rewrite Hrun. cbn [snd].
  split; [reflexivity|]. split; [|split; [|split; [|split; [done|split]]]].
  - exact Hcopies.
  - constructor; [done|exact Htail].
  - destruct Hs as (Ho2 & _ & _ & Hk & _). split; [done|]. split; [|done].
    apply Hk. congruence.
  - exact Hunref.
  - exists o. split; [done|]. split; [done|]. by left.
Qed.

Lemma rename_copies_then_repoints_then_drops_witness :
  let env := Demo.env in
  let w := Demo.five_docs in
  let payload := Demo.rename_acme in
  let org := mkOrgDoc 1%N
               (mkOrgFields "Acme Inc" "org_acme-inc" "org_acme-inc"
                  ("master_db", "mongodb://localhost:27017") 1700000000 1700000000
                  (Some "admin_a@acme.com_1700000000")) in
  let cur := slugify_org (update_organization_name payload) in
  let new_name := strip "Acme Corp" in
  let new := slugify_org new_name in
  let updates := rename_updates new_name new (clock w) in
  exists w1 w2 w3 copies tail,
    (run (update_organization env payload) w).2 =
      [(w, OrgsFindOne cur); (w, UtcNow); (w, OrgsFindOne new);
       (w, CreateCollection new); (w1, Find cur)] ++ copies ++
      [(w2, OrgsUpdateOne (org_id org) updates); (w3, DropCollection cur)] ++ tail /\
    Forall (copy_call new w) copies /\
    reads_only tail /\
    (orgs w2 = orgs w /\ colls w2 !! cur = colls w !! cur /\
     is_Some (colls w2 !! new) /\
     forall x, x ∈ docs_of w cur -> covered (docs_of w2 new) x) /\
    (colls w3 = colls w2 /\
     (forall o, o ∈ orgs w3 -> ~ references o cur) /\
     exists o, o ∈ orgs w3 /\ org_id o = org_id org /\ references o new).
Proof.
  intros env w payload org.
  apply (rename_copies_then_repoints_then_drops env w payload org "Acme Corp").
  - vm_compute. split; [|split]; repeat constructor; by intros ?%elem_of_nil.
  - vm_compute. reflexivity.
  - reflexivity.
  - reflexivity.
  - vm_compute. discriminate.
  - vm_compute. reflexivity.
Defined.

Lemma update_outcome env payload w :
  match outcome (update_organization env payload) w with
  | Returned _ => True
  | Failed e => e = not_found \/ e = new_name_exists \/ e = admin_missing
  end.
Proof.
  unfold outcome. rewrite run_update_organization.
  destruct (find_one _ (orgs w)) as [org|] eqn:Horg; [|by left].
  destruct (renames_to payload) as [[nn ns]|] eqn:Hren.
  - destruct (find_one (has_slug ns) (orgs w)) as [c|] eqn:Hfree.
    + rewrite run_bind, (run_rename_conflict _ _ _ _ _ _ _ c Hfree). right. by left.
    + destruct (run_update_rename env w payload org nn ns Horg Hren Hfree)
        as (w2 & copies & out & w' & tail & Hrun & _ & _ & _ & _ & _ & _ & _ & Hout & _).
      rewrite run_update_organization, Horg, Hren in Hrun. rewrite Hrun. cbn [fst].
      destruct (find_one _ (admins w)); [by subst|].
      destruct (wants_admin_update payload); subst; auto.
  - destruct (run_update_tail env payload org (clock w) [] w)
      as (out & w' & l & -> & _ & _ & _ & Hout).
    unfold logged. cbn [fst].
    destruct (find_one _ (admins w)); [by subst|].
    destruct (wants_admin_update payload); [destruct Hout; subst; auto|by subst].
Qed.

(** C9, with no conflicting rename.  An update that asks for an e-mail
    or password change on an organization with no credential record
    fails with the invariant violation (status 500), which is not the
    not-found failure, provided that a rename asked for in the same
    request, if any, targets a slug no other record holds. *)
Theorem update_without_admin_record env w payload org :
  let cur := slugify_org (update_organization_name payload) in
  find_one (has_slug cur) (orgs w) = Some org ->
  wants_admin_update payload = true ->
  find_one (admin_matches (ByOrganizationId (oid_str (org_id org)))) (admins w) = None ->
  (forall new_name new, renames_to payload = Some (new_name, new) ->
                        find_one (has_slug new) (orgs w) = None) ->
  outcome (update_organization env payload) w = Failed admin_missing /\
  admin_missing <> not_found.
Proof.
  intros cur Horg Hw Hadm Hfree. split; [|done].
  destruct (renames_to payload) as [[nn ns]|] eqn:Hren.
  - destruct (run_update_rename env w payload org nn ns Horg Hren (Hfree _ _ eq_refl))
      as (w2 & copies & out & w' & tail & Hrun & _ & _ & _ & _ & _ & _ & _ & Hout & _).
    unfold outcome. rewrite Hrun. cbn [fst]. by rewrite Hadm, Hw in Hout.
  - unfold outcome. rewrite run_update_organization. fold cur. rewrite Horg, Hren.
    destruct (run_update_tail env payload org (clock w) [] w)
      as (out & w' & l & -> & _ & _ & _ & Hout).
    unfold logged. cbn [fst]. rewrite Hadm, Hw in Hout. by destruct Hout.
Qed.

Lemma update_without_admin_record_witness :
  outcome (update_organization Demo.env Demo.beta_new_email) Demo.orphan_beta =
    Failed admin_missing /\
  admin_missing <> not_found.
Proof.
  eapply (update_without_admin_record Demo.env Demo.orphan_beta Demo.beta_new_email).
  - vm_compute. reflexivity.
  - reflexivity.
  - vm_compute. reflexivity.
  - intros new_name new H. vm_compute in H. discriminate H.
Defined.

(** The store of the examples is one the service reaches by itself. *)
Example create_collision_leaves_orphan :
  outcome (create_organization Demo.env Demo.beta_same_admin) Demo.one_org =
    Failed DuplicateKeyError /\
  (organization_name ∘ org_fields) <$> orgs Demo.orphan_beta = ["Acme Inc"; "Beta"] /\
  organization_id <$> admins Demo.orphan_beta = ["1"].
Proof. repeat split; vm_compute; reflexivity. Qed.

(** C9 does not hold for every request: with a rename to a name already
    taken in the same request, the handler stops at the conflict
    (status 400) before it looks for the credential record. *)
Lemma rename_to_taken_name_hides_missing_admin :
  let w := Demo.orphan_beta in
  let payload := Demo.beta_to_acme_with_email in
  wants_admin_update payload = true /\
  (exists org,
     find_one (has_slug (slugify_org (update_organization_name payload))) (orgs w) = Some org /\
     find_one (admin_matches (ByOrganizationId (oid_str (org_id org)))) (admins w) = None) /\
  outcome (update_organization Demo.env payload) w = Failed new_name_exists /\
  outcome (update_organization Demo.env payload) w <> Failed admin_missing.
Proof.
  cbn zeta. split; [reflexivity|]. split; [|split].
  - eexists. split; vm_compute; reflexivity.
  - vm_compute. reflexivity.
  - vm_compute. discriminate.
Qed.

(** *** Authentication *)

Lemma truthy_some o : truthy o = true -> exists s, o = Some s /\ s <> EmptyString.
Proof. destruct o as [[|c s]|]; try done. intros _. by eexists. Qed.

Lemma run_get_current_admin env token w :
  match run (get_current_admin env token) w with
  | (Returned cred, w', _) =>
      w' = w /\
      jwt_decode env token = Payload (Some (admin_id (cred_admin cred))) (Some (cred_org_id cred)) /\
      find_one (admin_matches (ById (admin_id (cred_admin cred)))) (admins w) =
        Some (cred_admin cred) /\
      organization_id (cred_admin cred) = cred_org_id cred
  | (Failed (HTTPException code _), w', _) => w' = w /\ (code = 401 \/ code = 403)
  | (Failed _, _, _) => False
  end.
Proof.
  unfold get_current_admin, decode_jwt.
  destruct (jwt_decode env token) as [| |a o] eqn:Hdec; cbn [bind run]; [by auto..|].
  destruct (truthy a) eqn:Ha; [|cbn; by auto].
  destruct (truthy o) eqn:Ho; [|cbn; by auto].
  destruct (truthy_some _ Ha) as (a' & -> & _).
  destruct (truthy_some _ Ho) as (o' & -> & _).
  cbn [negb orb default id]. unfold id. rewrite run_await. cbn [exec fst snd].
  destruct (find_one _ (admins w)) as [adm|] eqn:Hadm; [|cbn; by auto].
  destruct (String.eqb (organization_id adm) o') eqn:Horg; cbn [negb run]; [|by auto].
  apply String.eqb_eq in Horg.
  destruct (find_one_some _ _ _ Hadm) as [_ Hid]. apply String.eqb_eq in Hid.
  cbn in Hid. cbn [cred_admin cred_org_id]. rewrite Hid. by rewrite Hadm.
Qed.

Lemma delete_requires_verified_admin env token target w :
  match outcome (delete_org_delete env token target) w with
  | Returned _ =>
      exists admin org,
        jwt_decode env token =
          Payload (Some (admin_id admin)) (Some (organization_id admin)) /\
        find_one (admin_matches (ById (admin_id admin))) (admins w) = Some admin /\
        find_one (has_slug (slugify_org (delete_organization_name target))) (orgs w) =
          Some org /\
        oid_str (org_id org) = organization_id admin
  | Failed _ => True
  end.
Proof.
  unfold outcome, delete_org_delete. rewrite run_bind.
  pose proof (run_get_current_admin env token w) as Hcred.
  destruct (run (get_current_admin env token) w) as [[[cred|e] w1] l1]; [|done].
  destruct Hcred as (-> & Hdec & Hadm & Horg).
  unfold delete_organization. rewrite run_await. cbn [exec fst snd].
  destruct (find_one (has_slug _) (orgs w)) as [org|] eqn:Hfind; [|done].
  destruct (String.eqb (oid_str (org_id org)) (cred_org_id cred)) eqn:Heq; [|done].
  cbn [negb]. rewrite run_try_pass. cbn [exec snd]. rewrite run_await. cbn [exec fst snd].
  rewrite run_await. cbn [exec fst snd run].
  apply String.eqb_eq in Heq.
  exists (cred_admin cred), org. rewrite Horg. by rewrite Heq.
Qed.

(** C7.  The update route runs the same whatever [Authorization] header
    the request carries, none included, and never fails with status 401
    or 403.  The delete route fails with 401 on a token that is expired
    or invalid, before its handler runs and with the store unchanged,
    and returns only for a token whose claims name a stored admin and
    the identifier of the target organization, the admin's own. *)
Theorem update_requires_no_token env w authorization payload :
  run (put_org_update env authorization payload) w =
    run (put_org_update env None payload) w /\
  match outcome (put_org_update env authorization payload) w with
  | Failed (HTTPException code _) => code <> 401 /\ code <> 403
  | _ => True
  end /\
  forall token target,
    match jwt_decode env token with
    | ExpiredSignatureError =>
        run (delete_org_delete env token target) w =
        (Failed (HTTPException 401 "Token expired"), w, [])
    | InvalidTokenError =>
        run (delete_org_delete env token target) w =
        (Failed (HTTPException 401 "Invalid token"), w, [])
    | Payload token_admin token_org =>
        match outcome (delete_org_delete env token target) w with
        | Returned _ =>
            exists admin org,
              token_admin = Some (admin_id admin) /\
              token_org = Some (organization_id admin) /\
              find_one (admin_matches (ById (admin_id admin))) (admins w) = Some admin /\
              find_one (has_slug (slugify_org (delete_organization_name target))) (orgs w) =
                Some org /\
              oid_str (org_id org) = organization_id admin
        | Failed _ => True
        end
    end.
Proof.
  split; [done|]. split.
  - unfold put_org_update. pose proof (update_outcome env payload w) as H.
    destruct (outcome _ w) as [r|e]; [done|].
    destruct H as [-> | [-> | ->]]; done.
  - intros token target.
    pose proof (delete_requires_verified_admin env token target w) as Hdel.
    destruct (jwt_decode env token) as [| |a o] eqn:Hdec.
    + unfold delete_org_delete, get_current_admin, decode_jwt. by rewrite Hdec.
    + unfold delete_org_delete, get_current_admin, decode_jwt. by rewrite Hdec.
    + destruct (outcome _ w); [|done].
      destruct Hdel as (admin & org & [= -> ->] & Hadm & Horg & Hid).
      by exists admin, org.
Qed.

Lemma update_requires_no_token_witness :
  run (put_org_update Demo.env (Some "expired") Demo.acme_new_email) Demo.one_org =
    run (put_org_update Demo.env None Demo.acme_new_email) Demo.one_org /\
  outcome (put_org_update Demo.env None Demo.acme_new_email) Demo.one_org =
    Returned (mkUpdateOut []) /\
  run (delete_org_delete Demo.env "expired" (mkOrgDeleteIn "Acme Inc")) Demo.one_org =
    (Failed (HTTPException 401 "Token expired"), Demo.one_org, []).
Proof.
  destruct (update_requires_no_token Demo.env Demo.one_org (Some "expired")
              Demo.acme_new_email) as (H1 & _ & H3).
  split; [exact H1|]. split; [vm_compute; reflexivity|].
  exact (H3 "expired" (mkOrgDeleteIn "Acme Inc")).
Defined.

(** With the token of Acme's admin the delete goes through and leaves
    nothing of Acme behind. *)
Example delete_with_admin_token :
  run (delete_org_delete Demo.env "acme-admin" (mkOrgDeleteIn "Acme Inc")) Demo.one_org =
  (Returned (mkDeleteOut "Acme Inc"), Demo.empty,
   [(Demo.one_org, AdminsFindOne (ById "admin_a@acme.com_1700000000"));
    (Demo.one_org, OrgsFindOne "org_acme-inc");
    (Demo.one_org, DropCollection "org_acme-inc");
    (set_colls Demo.one_org ∅, AdminsDeleteMany "1");
    (set_admins (set_colls Demo.one_org ∅) [], OrgsDeleteOne 1%N)]).
Proof. vm_compute. reflexivity. Qed.

(** C5.  A delete request whose token organization identifier differs
    from the identifier of the target record fails with Forbidden
    (status 403) after the directory lookup alone, and the store
    (directory, credentials, regions) is unchanged. *)
Theorem delete_by_other_organization_forbidden w payload cred org :
  let slug := slugify_org (delete_organization_name payload) in
  find_one (has_slug slug) (orgs w) = Some org ->
  oid_str (org_id org) <> cred_org_id cred ->
  run (delete_organization payload cred) w =
  (Failed forbidden_delete, w, [(w, OrgsFindOne slug)]).
Proof.
  intros slug Horg Hne. unfold delete_organization. fold slug.
  rewrite run_await. cbn [exec fst snd]. rewrite Horg.
  apply String.eqb_neq in Hne. by rewrite Hne.
Qed.

Lemma delete_by_other_organization_forbidden_witness :
  run (delete_organization (mkOrgDeleteIn "Acme Inc")
         (mkCred (mkAdminDoc "admin_b@beta.com_1700000000" "b@beta.com" "argon2:secret2"
                    "2" "admin" 1700000000 None) "2"))
    Demo.one_org =
  (Failed forbidden_delete, Demo.one_org, [(Demo.one_org, OrgsFindOne (slugify_org "Acme Inc"))]).
Proof.
  eapply delete_by_other_organization_forbidden.
  - vm_compute. reflexivity.
  - vm_compute. discriminate.
Defined.

(** C10.  Login looks the credential record up by the lowered, stripped
    e-mail address alone: the first record in natural order with that
    address decides, whatever organization it belongs to and whatever
    records follow it.  When its hash verifies the password the token
    carries its admin identifier and its organization identifier;
    otherwise the login fails.  The store is unchanged. *)
Theorem admin_login_first_match_by_email env w payload pre a post :
  let e := strip (lower (login_email payload)) in
  admins w = pre ++ a :: post ->
  Forall (fun x => email x <> e) pre ->
  email a = e ->
  outcome (admin_login env payload) w =
    (if negb (truthy (Some (password_hash a))) ||
        negb (verify_password env (login_password payload) (password_hash a))
     then Failed invalid_credentials
     else Returned
            (mkLoginOut
               (jwt_encode env
                  (mkClaims (admin_id a) (organization_id a)
                     (clock w + JWT_EXP_SECONDS env)))
               "bearer")) /\
  final (admin_login env payload) w = w.
Proof.
  intros e Hadm Hpre Ha.
  assert (Hfind : find_one (admin_matches (ByEmail e)) (admins w) = Some a).
  { rewrite Hadm. apply find_one_first.
    - eapply Forall_impl; [exact Hpre|]. intros x Hx. by apply String.eqb_neq.
    - by apply String.eqb_eq. }
  unfold outcome, final, admin_login. fold e. rewrite run_await. cbn [exec fst snd].
  rewrite Hfind.
  destruct (negb (truthy (Some (password_hash a))) || _); [done|].
  unfold create_jwt. cbn. done.
Qed.

Lemma admin_login_first_match_by_email_witness :
  outcome (admin_login Demo.env (mkAdminLoginIn " A@X.com" "first-pass")) Demo.shared_email =
    Returned (mkLoginOut "jwt.admin_a@x.com_1.1.1700003600" "bearer") /\
  final (admin_login Demo.env (mkAdminLoginIn " A@X.com" "first-pass")) Demo.shared_email =
    Demo.shared_email.
Proof.
  apply (admin_login_first_match_by_email Demo.env Demo.shared_email
           (mkAdminLoginIn " A@X.com" "first-pass") []
           (mkAdminDoc "admin_a@x.com_1" "a@x.com" "argon2:first-pass" "1" "admin" 0 None)
           [mkAdminDoc "admin_a@x.com_2" "a@x.com" "argon2:second-pass" "2" "admin" 0 None]).
  - reflexivity.
  - constructor.
  - reflexivity.
Defined.

(** The second record with the shared address can never log in. *)
Example admin_login_second_record_unreachable :
  outcome (admin_login Demo.env (mkAdminLoginIn "a@x.com" "second-pass")) Demo.shared_email =
  Failed invalid_credentials.
Proof. reflexivity. Qed.

(** *** Create and fetch *)

Lemma update_one_last {A} (q : A -> bool) f c d :
  (forall x, x ∈ c -> q x = false) -> q d = true ->
  update_one q f (c ++ [d]) = c ++ [f d].
Proof.
  intros Hc Hd. induction c as [|x c IH]; simpl.
  - by rewrite Hd.
  - rewrite (Hc x) by (by left). rewrite IH; [done|]. intros y Hy. apply Hc. by right.
Qed.

Lemma find_one_last {A} (q : A -> bool) c d :
  (forall x, x ∈ c -> q x = false) -> q d = true ->
  find_one q (c ++ [d]) = Some d.
Proof.
  intros Hc Hd. induction c as [|x c IH]; simpl.
  - by rewrite Hd.
  - rewrite (Hc x) by (by left). apply IH. intros y Hy. apply Hc. by right.
Qed.

Lemma fresh_oid_unused c x :
  x ∈ c -> has_org_id (fresh_oid (org_id <$> c)) x = false.
Proof.
  intros Hx. apply N.eqb_neq. intros Heq.
  assert (H : (org_id x < fresh_oid (org_id <$> c))%N).
  { apply fresh_oid_above. apply list_elem_of_fmap. by exists x. }
  lia.
Qed.

Lemma run_create_success env payload w r w' log :
  let sl := slugify_org (strip (create_organization_name payload)) in
  let id := fresh_oid (org_id <$> orgs w) in
  run (create_organization env payload) w = (Returned r, w', log) ->
  find_one (has_slug sl) (orgs w) = None /\
  out_collection_name r = sl /\
  out_org_id r = oid_str id /\
  exists f,
    orgs w' = orgs w ++ [mkOrgDoc id f] /\
    slug f = sl /\ collection_name f = sl /\
    admin_user_id f = Some (out_admin_user_id r).
Proof.
  intros sl id. unfold create_organization. fold sl.
  rewrite run_await. cbn [exec fst snd].
  destruct (find_one (has_slug sl) (orgs w)) eqn:Hfree; [done|].
  rewrite run_await. cbn [exec fst snd].
  rewrite run_await. cbn [exec slug]. fold sl.
  rewrite (find_one_none_existsb _ _ Hfree). cbn [fst snd]. fold id.
  rewrite run_await. cbn [exec fst snd].
  rewrite run_await. cbn [exec admin_id admins set_orgs].
  destruct (existsb _ (admins w)); [done|]. cbn [fst snd].
  rewrite run_await. cbn [exec orgs set_admins set_orgs].
  rewrite (find_one_last (has_org_id id)); [|apply fresh_oid_unused|apply N.eqb_refl].
  rewrite existsb_false_all.
  2:{ cbn [slug org_fields org_apply fold_left org_set].
      intros x [Hx|Hx]%elem_of_app.
      - rewrite (find_one_none_all _ _ Hfree x Hx). apply andb_false_r.
      - apply list_elem_of_singleton in Hx as ->. unfold has_org_id at 1. simpl.
        by rewrite N.eqb_refl. }
  cbn [fst snd set_orgs orgs admins colls clock].
  rewrite (update_one_last (has_org_id id)); [|apply fresh_oid_unused|apply N.eqb_refl].
  rewrite run_try_pass, run_try_pass. cbn [run].
  intros [= <- <- _]. split; [done|]. split; [done|]. split; [done|].
  eexists. split.
  - destruct (colls w !! sl); cbn; reflexivity.
  - done.
Qed.

(** C8.  When create returns, fetching by the same name on the resulting
    store returns the region name, the admin identifier and the
    organization identifier that create returned. *)
Theorem create_then_get env payload w r w' log :
  run (create_organization env payload) w = (Returned r, w', log) ->
  exists g,
    run (get_organization (create_organization_name payload)) w' =
      (Returned g, w', [(w', OrgsFindOne (slugify_org (create_organization_name payload)))]) /\
    get_collection_name g = out_collection_name r /\
    get_admin_user_id g = Some (out_admin_user_id r) /\
    get_org_id g = out_org_id r.
Proof.
  intros Hrun.
  destruct (run_create_success env payload w r w' log Hrun)
    as (Hfree & Hcoll & Hid & f & Horgs & Hslug & Hcn & Hadm).
  unfold get_organization. rewrite run_await. cbn [exec fst snd].
  rewrite <- slugify_org_strip, Horgs.
  rewrite (find_one_last (has_slug _)).
  - eexists. split; [reflexivity|]. simpl. by rewrite Hcn, Hcoll, Hadm, Hid.
  - by apply find_one_none_all.
  - unfold has_slug. simpl. rewrite Hslug. apply String.eqb_refl.
Qed.

Lemma create_then_get_witness :
  exists g,
    run (get_organization "Acme Inc") Demo.one_org =
      (Returned g, Demo.one_org, [(Demo.one_org, OrgsFindOne (slugify_org "Acme Inc"))]) /\
    get_collection_name g = "org_acme-inc" /\
    get_admin_user_id g = Some "admin_a@acme.com_1700000000" /\
    get_org_id g = "1".
Proof.
  apply (create_then_get Demo.env Demo.acme Demo.empty
           (mkCreateOut "Acme Inc" "org_acme-inc" "admin_a@acme.com_1700000000" "1")
           Demo.one_org
           (run (create_organization Demo.env Demo.acme) Demo.empty).2).
  vm_compute. reflexivity.
Defined.

(** ** The directory invariant

    [directory_ok] holds of the empty store and every handler keeps it,
    so it holds of every store the service reaches when requests are
    served one after the other. *)

Lemma directory_ok_snoc w w' f :
  let id := fresh_oid (org_id <$> orgs w) in
  directory_ok w ->
  find_one (has_slug (slug f)) (orgs w) = None ->
  collection_name f = slug f ->
  orgs w' = orgs w ++ [mkOrgDoc id f] ->
  directory_ok w'.
Proof.
  intros id (Hid & Hsl & Hcn) Hfree Hf Horgs. unfold directory_ok. rewrite Horgs.
  rewrite !fmap_app. cbn [fmap list_fmap]. split; [|split].
  - apply NoDup_app. split; [done|]. split; [|apply NoDup_singleton].
    intros x Hx ->%list_elem_of_singleton.
    pose proof (fresh_oid_above _ _ Hx). cbn in *. lia.
  - apply NoDup_app. split; [done|]. split; [|apply NoDup_singleton].
    intros x Hx ->%list_elem_of_singleton.
    apply list_elem_of_fmap in Hx as (o & Ho & Hin). cbn in Ho.
    pose proof (find_one_none_all _ _ Hfree o Hin) as Hno.
    apply String.eqb_neq in Hno. congruence.
  - apply Forall_app. split; [done|]. by constructor.
Qed.

Lemma update_one_ids (q : OrgDoc -> bool) sets c :
  org_id <$> update_one q (org_apply sets) c = org_id <$> c.
Proof.
  induction c as [|x c IH]; [done|]. simpl. destruct (q x); [done|].
  by rewrite !fmap_cons, IH.
Qed.

Lemma update_one_elem {A} (q : A -> bool) f c o :
  o ∈ update_one q f c -> o ∈ c \/ exists d, d ∈ c /\ o = f d.
Proof.
  induction c as [|x c IH]; simpl; [by intros ?%elem_of_nil|].
  destruct (q x).
  - intros [->|H]%elem_of_cons.
    + right. exists x. split; [by left|done].
    + left. by right.
  - intros [->|H]%elem_of_cons; [left; by left|].
    destruct (IH H) as [?|(d & ? & ?)]; [left; by right|].
    right. exists d. split; [by right|done].
Qed.

Lemma directory_ok_repoint w w' org cur new_name new now :
  directory_ok w ->
  find_one (has_slug cur) (orgs w) = Some org ->
  find_one (has_slug new) (orgs w) = None ->
  orgs w' = update_one (has_org_id (org_id org))
              (org_apply (rename_updates new_name new now)) (orgs w) ->
  directory_ok w'.
Proof.
  intros (Hid & Hsl & Hcn) _ Hfree Horgs. unfold directory_ok. rewrite Horgs.
  rewrite update_one_ids. split; [done|].
  pose proof (find_one_none_all _ _ Hfree) as Hno. clear Hfree Horgs Hid.
  induction (orgs w) as [|x c IH]; [by repeat constructor|].
  simpl. rewrite fmap_cons in Hsl. apply NoDup_cons in Hsl as [Hx Hsl].
  apply Forall_cons in Hcn as [Hcx Hcn].
  assert (Hnoc : forall d, d ∈ c -> has_slug new d = false).
  { intros d Hd. apply Hno. by right. }
  assert (Hnx : slug (org_fields x) <> new).
  { apply String.eqb_neq, Hno. by left. }
  destruct (has_org_id (org_id org) x).
  - split.
    + rewrite fmap_cons. apply NoDup_cons. split; [|done]. cbn.
      intros (o & Ho & Hin)%list_elem_of_fmap.
      pose proof (Hnoc o Hin) as Hn. apply String.eqb_neq in Hn. congruence.
    + by constructor.
  - destruct (IH Hsl Hcn Hnoc) as [IH1 IH2]. split.
    + rewrite fmap_cons. apply NoDup_cons. split; [|done].
      intros (o & Ho & Hin)%list_elem_of_fmap.
      apply update_one_elem in Hin as [Hin|(d & Hd & ->)].
      * apply Hx. apply list_elem_of_fmap. by exists o.
      * by cbn in Ho.
    + by constructor.
Qed.

Lemma directory_ok_delete w w' (q : OrgDoc -> bool) :
  directory_ok w -> orgs w' = delete_one q (orgs w) -> directory_ok w'.
Proof.
  intros (Hid & Hsl & Hcn) Horgs. unfold directory_ok. rewrite Horgs.
  assert (Hsub : forall c, sublist (delete_one q c) c).
  { induction c as [|x c IH]; simpl; [done|].
    destruct (q x); [apply sublist_cons; reflexivity|by apply sublist_skip]. }
  specialize (Hsub (orgs w)).
  split; [|split].
  - eapply sublist_NoDup; [exact Hid|by apply fmap_sublist].
  - eapply sublist_NoDup; [exact Hsl|by apply fmap_sublist].
  - rewrite Forall_forall in Hcn |- *. intros o Ho. apply Hcn.
    by eapply elem_of_sublist.
Qed.

Lemma directory_ok_same w w' : orgs w' = orgs w -> directory_ok w -> directory_ok w'.
Proof. unfold directory_ok. by intros ->. Qed.

Lemma directory_ok_empty : directory_ok Demo.empty.
Proof. repeat split; constructor. Qed.

Lemma exec_region_orgs o w :
  match o with
  | CreateCollection _ | DropCollection _ | InsertOne _ _ | InsertMany _ _ | Find _ => True
  | _ => False
  end ->
  orgs (exec o w).2 = orgs w.
Proof.
  destruct o; try done; intros _; cbn [exec].
  - by destruct (colls w !! name).
  - destruct docs as [|d docs]; [done|].
    destruct (insert_unordered _ _) as [c errs]. by destruct errs.
Qed.

Lemma create_preserves_directory_ok env payload w :
  directory_ok w -> directory_ok (final (create_organization env payload) w).
Proof.
  intros Hok. set (sl := slugify_org (strip (create_organization_name payload))).
  set (id := fresh_oid (org_id <$> orgs w)).
  unfold final, create_organization. fold sl.
  rewrite run_await. cbn [exec fst snd].
  destruct (find_one (has_slug sl) (orgs w)) eqn:Hfree; [done|].
  rewrite run_await. cbn [exec fst snd].
  rewrite run_await. cbn [exec slug]. fold sl.
  rewrite (find_one_none_existsb _ _ Hfree). cbn [fst snd]. fold id.
  rewrite run_await. cbn [exec fst snd].
  rewrite run_await. cbn [exec admin_id admins set_orgs].
  destruct (existsb _ (admins w)).
  { cbn [fst snd]. eapply (directory_ok_snoc w); [done| | |reflexivity]; done. }
  cbn [fst snd].
  rewrite run_await. cbn [exec orgs set_admins set_orgs].
  rewrite (find_one_last (has_org_id id)); [|apply fresh_oid_unused|apply N.eqb_refl].
  rewrite existsb_false_all.
  2:{ cbn [slug org_fields org_apply fold_left org_set].
      intros x [Hx|Hx]%elem_of_app.
      - rewrite (find_one_none_all _ _ Hfree x Hx). apply andb_false_r.
      - apply list_elem_of_singleton in Hx as ->. unfold has_org_id at 1. simpl.
        by rewrite N.eqb_refl. }
  cbn [fst snd set_orgs orgs admins colls clock].
  rewrite (update_one_last (has_org_id id)); [|apply fresh_oid_unused|apply N.eqb_refl].
  rewrite run_try_pass, run_try_pass. cbn [run fst snd].
  eapply (directory_ok_snoc w); [done| | |].
  3:{ rewrite !exec_region_orgs by done. reflexivity. }
  all: done.
Qed.

Lemma update_preserves_directory_ok env payload w :
  directory_ok w -> directory_ok (final (update_organization env payload) w).
Proof.
  intros Hok. unfold final. rewrite run_update_organization.
  destruct (find_one _ (orgs w)) as [org|] eqn:Horg; [|done].
  destruct (renames_to payload) as [[nn ns]|] eqn:Hren.
  - destruct (find_one (has_slug ns) (orgs w)) as [c|] eqn:Hfree.
    + by rewrite run_bind, (run_rename_conflict _ _ _ _ _ _ _ c Hfree).
    + destruct (run_update_rename env w payload org nn ns Horg Hren Hfree)
        as (w2 & copies & out & w' & tail & Hrun & Hs & _ & _ & _ & Ho & _).
      rewrite run_update_organization, Horg, Hren in Hrun. rewrite Hrun. cbn [fst snd].
      eapply directory_ok_repoint; [exact Hok|exact Horg|exact Hfree|exact Ho].
  - destruct (run_update_tail env payload org (clock w) [] w)
      as (out & w' & l & -> & Ho & _).
    unfold logged. cbn [fst snd]. by apply (directory_ok_same w).
Qed.

Lemma delete_preserves_directory_ok payload cred w :
  directory_ok w -> directory_ok (final (delete_organization payload cred) w).
Proof.
  intros Hok. unfold final, delete_organization.
  rewrite run_await. cbn [exec fst snd].
  destruct (find_one _ (orgs w)) as [org|]; [|done].
  destruct (negb _); [done|].
  rewrite run_try_pass. cbn [exec snd]. rewrite run_await. cbn [exec fst snd].
  rewrite run_await. cbn [exec fst snd run].
  by eapply directory_ok_delete.
Qed.

Lemma reads_only_no_drop l w3 c : reads_only l -> (w3, DropCollection c) ∉ l.
Proof.
  intros Hl Hin. unfold reads_only in Hl. rewrite Forall_forall in Hl.
  by specialize (Hl _ Hin).
Qed.

Lemma copy_calls_no_drop name w l w3 c :
  Forall (copy_call name w) l -> (w3, DropCollection c) ∉ l.
Proof.
  intros Hl Hin. rewrite Forall_forall in Hl.
  by destruct (Hl _ Hin) as [[b Hb] _].
Qed.

(** Whatever the request, [update_organization] drops a region only in
    a store whose directory does not reference it. *)
Lemma update_drops_only_unreferenced env payload w w3 c :
  directory_ok w ->
  (w3, DropCollection c) ∈ (run (update_organization env payload) w).2 ->
  forall o, o ∈ orgs w3 -> ~ references o c.
Proof.
  intros Hok. pose proof Hok as (Hid & Hsl & Hcn). rewrite Forall_forall in Hcn.
  set (cur := slugify_org (update_organization_name payload)).
  destruct (find_one (has_slug cur) (orgs w)) as [org|] eqn:Horg.
  2:{ rewrite run_update_organization. fold cur. rewrite Horg. cbn [snd].
      intros Hin. apply list_elem_of_singleton in Hin. discriminate Hin. }
  destruct (renames_to payload) as [[nn ns]|] eqn:Hren.
  - destruct (renames_to_inv _ _ _ Hren) as [Hne _]. fold cur in Hne.
    destruct (find_one (has_slug ns) (orgs w)) as [x|] eqn:Hfree.
    + rewrite run_update_organization. fold cur.
      rewrite Horg, Hren, run_bind, (run_rename_conflict _ _ _ _ _ _ _ x Hfree).
      unfold logged. cbn [fst snd app]. intros Hin.
      repeat (apply elem_of_cons in Hin as [Hin|Hin]; [discriminate Hin|]).
      by apply elem_of_nil in Hin.
    + destruct (run_update_rename env w payload org nn ns Horg Hren Hfree)
        as (w2 & copies & out & w' & tail & Hrun & _ & Hcopies & _ & _ & _ & _ & Htail & _).
      cbn zeta in Hrun. fold cur in Hrun. rewrite Hrun. cbn [snd]. intros Hin.
      apply elem_of_app in Hin as [Hin|Hin].
      { repeat (apply elem_of_cons in Hin as [Hin|Hin]; [discriminate Hin|]).
        by apply elem_of_nil in Hin. }
      apply elem_of_app in Hin as [Hin|Hin].
      { by apply (copy_calls_no_drop _ _ _ w3 c) in Hcopies. }
      cbn [app] in Hin.
      apply elem_of_cons in Hin as [Hin|Hin]; [discriminate Hin|].
      apply elem_of_cons in Hin as [Hin|Hin].
      * injection Hin as -> ->. cbn [orgs set_orgs].
        apply (repoint_unreferenced (orgs w) org cur nn ns (clock w)); auto.
      * apply elem_of_cons in Hin as [Hin|Hin]; [discriminate Hin|].
        by apply (reads_only_no_drop _ w3 c) in Htail.
  - rewrite run_update_organization. fold cur. rewrite Horg, Hren.
    destruct (run_update_tail env payload org (clock w) [] w)
      as (out & w' & l & -> & _ & _ & Hl & _).
    unfold logged. cbn [fst snd app]. intros Hin.
    repeat (apply elem_of_cons in Hin as [Hin|Hin]; [discriminate Hin|]).
    by apply (reads_only_no_drop _ w3 c) in Hl.
Qed.

(** ** The create race *)

Lemma step_await {B} o (k : Val o -> Prog B) w :
  step (bind (await o) k) w =
  (match (exec o w).1 with inl e => Raise e | inr v => k v end, (exec o w).2).
Proof. simpl. by destruct (exec o w) as [[e|v] w']. Qed.

Lemma create_after_precheck_rejected env payload w w2 :
  let sl := slugify_org (strip (create_organization_name payload)) in
  find_one (has_slug sl) (orgs w) = None ->
  existsb (has_slug sl) (orgs w2) = true ->
  outcome (step (create_organization env payload) w).1 w2 = Failed DuplicateKeyError /\
  final (step (create_organization env payload) w).1 w2 = w2.
Proof.
  intros sl Hfree Htaken. unfold outcome, final, create_organization. fold sl.
  rewrite step_await. cbn [exec fst snd]. rewrite Hfree.
  rewrite run_await. cbn [exec fst snd]. rewrite run_await. cbn [exec slug]. fold sl.
  rewrite Htaken. done.
Qed.

(** C1.  Two concurrent creates of names with one slug, both past the
    advisory check before either inserts: the first returns, the second
    insert is rejected by the unique index and the handler ends with
    the storage exception, not with the classified failure of the
    advisory check. *)
Theorem concurrent_create_unclassified :
  interleave [true; false]
    (create_organization Demo.env Demo.acme)
    (create_organization Demo.env Demo.acme_again) Demo.empty =
  (Returned (mkCreateOut "Acme Inc" "org_acme-inc" "admin_a@acme.com_1700000000" "1"),
   Failed DuplicateKeyError,
   Demo.one_org) /\
  Failed (A := CreateOut) DuplicateKeyError <> Failed organization_exists.
Proof. split; [vm_compute; reflexivity|discriminate]. Qed.

(** ** What each handler leaves behind *)

#[local] Arguments pretty : simpl never.

(** X4.  When no record has the slug derived from the name, fetching,
    updating and deleting by that name all fail with Not Found (status
    404) after the directory lookup alone, and the store is unchanged,
    whatever else the request carries. *)
Theorem missing_organization_not_found env w name :
  find_one (has_slug (slugify_org name)) (orgs w) = None ->
  run (get_organization name) w =
    (Failed not_found, w, [(w, OrgsFindOne (slugify_org name))]) /\
  (forall new_name email password,
     run (update_organization env (mkOrgUpdateIn name new_name email password)) w =
       (Failed not_found, w, [(w, OrgsFindOne (slugify_org name))])) /\
  (forall cred,
     run (delete_organization (mkOrgDeleteIn name) cred) w =
       (Failed not_found, w, [(w, OrgsFindOne (slugify_org name))])).
Proof.
  intros Hnone. split; [|split].
  - unfold get_organization. rewrite run_await. cbn [exec fst snd]. by rewrite Hnone.
  - intros new_name email password. rewrite run_update_organization.
    cbn [update_organization_name]. by rewrite Hnone.
  - intros cred. unfold delete_organization. cbn [delete_organization_name].
    rewrite run_await. cbn [exec fst snd]. by rewrite Hnone.
Qed.

Lemma missing_organization_not_found_witness :
  run (get_organization "Acme Inc") Demo.empty =
    (Failed not_found, Demo.empty, [(Demo.empty, OrgsFindOne (slugify_org "Acme Inc"))]) /\
  (forall new_name email password,
     run (update_organization Demo.env (mkOrgUpdateIn "Acme Inc" new_name email password))
       Demo.empty =
       (Failed not_found, Demo.empty, [(Demo.empty, OrgsFindOne (slugify_org "Acme Inc"))])) /\
  (forall cred,
     run (delete_organization (mkOrgDeleteIn "Acme Inc") cred) Demo.empty =
       (Failed not_found, Demo.empty, [(Demo.empty, OrgsFindOne (slugify_org "Acme Inc"))])).
Proof.
  apply (missing_organization_not_found Demo.env Demo.empty "Acme Inc").
  vm_compute. reflexivity.
Defined.

(** The three ways a create ends, with the store it leaves. *)
Lemma create_final env payload w :
  let sl := slugify_org (strip (create_organization_name payload)) in
  let w' := final (create_organization env payload) w in
  match find_one (has_slug sl) (orgs w) with
  | Some _ =>
      outcome (create_organization env payload) w = Failed organization_exists /\ w' = w
  | None =>
      if existsb (has_admin_id (created_admin_id payload w)) (admins w)
      then
        outcome (create_organization env payload) w = Failed DuplicateKeyError /\
        w' = set_orgs w (orgs w ++ [created_org env payload w None])
      else
        outcome (create_organization env payload) w =
          Returned (mkCreateOut (strip (create_organization_name payload)) sl
                      (created_admin_id payload w)
                      (oid_str (fresh_oid (org_id <$> orgs w)))) /\
        orgs w' = orgs w ++ [created_org env payload w (Some (created_admin_id payload w))] /\
        admins w' = admins w ++ [created_admin env payload w] /\
        colls w' = <[sl := docs_of w sl ++ [sentinel w sl]]> (colls w) /\
        clock w' = clock w
  end.
Proof.
  intros sl w'. subst w'. unfold outcome, final, create_organization. fold sl.
  set (id := fresh_oid (org_id <$> orgs w)).
  rewrite run_await. cbn [exec fst snd].
  destruct (find_one (has_slug sl) (orgs w)) eqn:Hfree; [done|].
  rewrite run_await. cbn [exec fst snd].
  rewrite run_await. cbn [exec slug]. fold sl.
  rewrite (find_one_none_existsb _ _ Hfree). cbn [fst snd]. fold id.
  rewrite run_await. cbn [exec fst snd].
  rewrite run_await. cbn [exec admin_id admins set_orgs clock].
  fold (created_admin_id payload w).
  destruct (existsb _ (admins w)); [done|]. cbn [fst snd].
  rewrite run_await. cbn [exec orgs set_admins set_orgs].
  rewrite (find_one_last (has_org_id id)); [|apply fresh_oid_unused|apply N.eqb_refl].
  rewrite existsb_false_all.
  2:{ cbn [slug org_fields org_apply fold_left org_set].
      intros x [Hx|Hx]%elem_of_app.
      - rewrite (find_one_none_all _ _ Hfree x Hx). apply andb_false_r.
      - apply list_elem_of_singleton in Hx as ->. unfold has_org_id at 1. simpl.
        by rewrite N.eqb_refl. }
  cbn [fst snd set_orgs orgs admins colls clock].
  rewrite (update_one_last (has_org_id id)); [|apply fresh_oid_unused|apply N.eqb_refl].
  rewrite run_try_pass, run_try_pass. cbn [run fst snd].
  split; [done|].
  rewrite !exec_region_orgs by done.
  split; [done|].
  cbn [exec]. cbn [colls set_orgs set_admins].
  destruct (colls w !! sl) as [c|] eqn:Hc; cbn [snd admins colls clock set_colls set_orgs set_admins].
  - split; [done|]. split; [|done].
    unfold sentinel, docs_of. cbn [colls set_orgs set_admins set_colls]. by rewrite Hc.
  - split; [done|]. split; [|done].
    unfold sentinel, docs_of. cbn [colls set_orgs set_admins set_colls].
    rewrite lookup_insert_eq, Hc. cbn [default].
    by rewrite insert_insert_eq.
Qed.

(** X5.  A create ends in one of three ways.  When a record already
    has the slug it fails with status 400 and the store is unchanged.
    When the slug is free but a credential record already has the
    identifier built from the e-mail address and the second of the
    clock, it fails with the duplicate-key error of the store and
    leaves the new organization record behind, without admin reference,
    credential record or region.  Otherwise it returns the stripped
    name, the slug, the admin identifier and the new record's
    identifier, having appended exactly one organization record (naming
    the admin), one credential record (lowered, stripped e-mail, the
    hash of the password, role admin) and one sentinel document to the
    region named by the slug. *)
Theorem create_outcomes env payload w :
  let sl := slugify_org (strip (create_organization_name payload)) in
  let w' := final (create_organization env payload) w in
  match find_one (has_slug sl) (orgs w) with
  | Some _ =>
      outcome (create_organization env payload) w = Failed organization_exists /\ w' = w
  | None =>
      if existsb (has_admin_id (created_admin_id payload w)) (admins w)
      then
        outcome (create_organization env payload) w = Failed DuplicateKeyError /\
        w' = set_orgs w (orgs w ++ [created_org env payload w None])
      else
        outcome (create_organization env payload) w =
          Returned (mkCreateOut (strip (create_organization_name payload)) sl
                      (created_admin_id payload w)
                      (oid_str (fresh_oid (org_id <$> orgs w)))) /\
        orgs w' = orgs w ++ [created_org env payload w (Some (created_admin_id payload w))] /\
        admins w' = admins w ++ [created_admin env payload w] /\
        colls w' = <[sl := docs_of w sl ++ [sentinel w sl]]> (colls w) /\
        clock w' = clock w
  end.
Proof. exact (create_final env payload w). Qed.

(** What a returned create has written. *)
Lemma create_returned env payload w r w' log :
  let sl := slugify_org (strip (create_organization_name payload)) in
  run (create_organization env payload) w = (Returned r, w', log) ->
  find_one (has_slug sl) (orgs w) = None /\
  existsb (has_admin_id (created_admin_id payload w)) (admins w) = false /\
  r = mkCreateOut (strip (create_organization_name payload)) sl
        (created_admin_id payload w) (oid_str (fresh_oid (org_id <$> orgs w))) /\
  orgs w' = orgs w ++ [created_org env payload w (Some (created_admin_id payload w))] /\
  admins w' = admins w ++ [created_admin env payload w] /\
  colls w' = <[sl := docs_of w sl ++ [sentinel w sl]]> (colls w) /\
  clock w' = clock w.
Proof.
  intros sl Hrun.
  pose proof (create_final env payload w) as H. cbv zeta in H.
  unfold outcome, final in H. rewrite Hrun in H. cbn [fst snd] in H. fold sl in H.
  destruct (find_one (has_slug sl) (orgs w)); [by destruct H|].
  destruct (existsb _ (admins w)); [by destruct H|].
  destruct H as ([= ->] & Horgs & Hadm & Hcolls & Hclock). done.
Qed.

(** X6.  After a create has returned, a second create whose name
    derives the same slug, however it is spelled and whatever e-mail
    address and password it carries, fails with status 400 after the
    directory lookup alone and leaves the store unchanged. *)
Theorem create_same_slug_twice env w first second r w' log :
  slugify_org (strip (create_organization_name second)) =
    slugify_org (strip (create_organization_name first)) ->
  run (create_organization env first) w = (Returned r, w', log) ->
  run (create_organization env second) w' =
    (Failed organization_exists, w',
     [(w', OrgsFindOne (slugify_org (strip (create_organization_name first))))]).
Proof.
  intros Hslug Hrun.
  destruct (run_create_success env first w r w' log Hrun)
    as (Hfree & _ & _ & f & Horgs & Hs & _).
  unfold create_organization. rewrite Hslug.
  rewrite run_await. cbn [exec fst snd].
  destruct (find_one_elem
              (has_slug (slugify_org (strip (create_organization_name first))))
              (orgs w') (mkOrgDoc (fresh_oid (org_id <$> orgs w)) f)) as [x ->]; [| |done].
  - rewrite Horgs. apply elem_of_app. right. by left.
  - unfold has_slug. cbn [org_fields]. rewrite Hs. apply String.eqb_refl.
Qed.

Lemma create_same_slug_twice_witness :
  run (create_organization Demo.env Demo.acme_again) Demo.one_org =
    (Failed organization_exists, Demo.one_org,
     [(Demo.one_org, OrgsFindOne (slugify_org (strip "Acme Inc")))]).
Proof.
  apply (create_same_slug_twice Demo.env Demo.empty Demo.acme Demo.acme_again
           Demo.acme_created Demo.one_org
           (run (create_organization Demo.env Demo.acme) Demo.empty).2).
  - vm_compute. reflexivity.
  - vm_compute. reflexivity.
Defined.

(** X7.  A rename to a name whose slug differs from the current one
    and is held by a record of the directory fails with status 400
    after the two lookups and the read of the clock: nothing has been
    written, also when the same request asks for new credentials. *)
Theorem rename_to_taken_slug_rejected env w payload n org other :
  let cur := slugify_org (update_organization_name payload) in
  let new := slugify_org (strip n) in
  find_one (has_slug cur) (orgs w) = Some org ->
  new_organization_name payload = Some n ->
  truthy (Some n) = true ->
  new <> cur ->
  find_one (has_slug new) (orgs w) = Some other ->
  run (update_organization env payload) w =
    (Failed new_name_exists, w,
     [(w, OrgsFindOne cur); (w, UtcNow); (w, OrgsFindOne new)]).
Proof.
  intros cur new Horg Hn Ht Hne Hother.
  rewrite run_update_organization. fold cur. rewrite Horg.
  rewrite (renames_to_some _ _ Hn Ht Hne). fold new.
  by rewrite run_bind, (run_rename_conflict _ _ _ _ _ _ _ other Hother).
Qed.

Lemma rename_to_taken_slug_rejected_witness :
  run (update_organization Demo.env Demo.beta_to_acme_with_email) Demo.orphan_beta =
    (Failed new_name_exists, Demo.orphan_beta,
     [(Demo.orphan_beta, OrgsFindOne (slugify_org "Beta"));
      (Demo.orphan_beta, UtcNow);
      (Demo.orphan_beta, OrgsFindOne (slugify_org (strip "Acme Inc")))]).
Proof.
  eapply (rename_to_taken_slug_rejected Demo.env Demo.orphan_beta
            Demo.beta_to_acme_with_email "Acme Inc").
  - vm_compute. reflexivity.
  - reflexivity.
  - reflexivity.
  - vm_compute. discriminate.
  - vm_compute. reflexivity.
Defined.

(** ** Login *)

(** X8.  Login never writes the store, and its only failure is status
    401 with the one detail [Invalid credentials], whether the address
    is unknown, the stored hash is empty or the password is wrong.  A
    token is issued only from the first record with the lowered,
    stripped address, when its hash is not empty and verifies the
    password; it is a bearer token that signs the identifier of that
    record, its organization identifier, and an expiry
    [JWT_EXP_SECONDS] after the time of the request. *)
Theorem admin_login_outcome env payload w :
  final (admin_login env payload) w = w /\
  match outcome (admin_login env payload) w with
  | Returned out =>
      token_type out = "bearer" /\
      exists a,
        find_one (admin_matches (ByEmail (strip (lower (login_email payload))))) (admins w)
          = Some a /\
        password_hash a <> EmptyString /\
        verify_password env (login_password payload) (password_hash a) = true /\
        access_token out =
          jwt_encode env
            (mkClaims (admin_id a) (organization_id a) (clock w + JWT_EXP_SECONDS env))
  | Failed e => e = invalid_credentials
  end.
Proof.
  unfold final, outcome, admin_login. rewrite run_await. cbn [exec fst snd].
  destruct (find_one _ (admins w)) as [a|] eqn:Ha; [|done].
  destruct (truthy (Some (password_hash a))) eqn:Ht; [|done].
  destruct (verify_password env _ _) eqn:Hv; [|done].
  cbn [negb orb]. unfold create_jwt. rewrite run_bind, run_await. cbn.
  split; [done|]. split; [done|]. exists a. repeat split; try done.
  intros E. by rewrite E in Ht.
Qed.

(** X9.  After a create has returned, a login with the e-mail address
    and the password of the create request returns a bearer token for
    the admin identifier and the organization identifier that the
    create returned, and leaves the store unchanged, provided that no
    older credential record has the same address and that the hasher
    gives a non-empty hash that verifies its own password. *)
Theorem create_then_login env payload w r w' log :
  let e := strip (lower (create_email payload)) in
  let pw := create_password payload in
  run (create_organization env payload) w = (Returned r, w', log) ->
  find_one (admin_matches (ByEmail e)) (admins w) = None ->
  hash_password env pw <> EmptyString ->
  verify_password env pw (hash_password env pw) = true ->
  run (admin_login env (mkAdminLoginIn (create_email payload) pw)) w' =
    (Returned
       (mkLoginOut
          (jwt_encode env
             (mkClaims (out_admin_user_id r) (out_org_id r)
                (clock w + JWT_EXP_SECONDS env)))
          "bearer"),
     w', [(w', AdminsFindOne (ByEmail e)); (w', UtcNow)]).
Proof.
  intros e pw Hrun Hnone Hne Hv.
  destruct (create_returned env payload w r w' log Hrun)
    as (_ & _ & -> & _ & Hadm & _ & Hclock).
  unfold admin_login. cbn [login_email login_password].
  rewrite run_await. cbn [exec fst snd]. rewrite Hadm. fold e.
  rewrite (find_one_last (admin_matches (ByEmail e))).
  2:{ by apply find_one_none_all. }
  2:{ cbn. apply String.eqb_refl. }
  cbn [password_hash created_admin]. fold pw.
  destruct (hash_password env pw) as [|c h] eqn:Hh; [done|].
  cbn [truthy negb orb]. rewrite Hv. cbn [negb].
  unfold create_jwt. rewrite run_bind, run_await. cbn [exec fst snd run].
  cbn [admin_id organization_id out_admin_user_id out_org_id]. by rewrite Hclock.
Qed.

Lemma create_then_login_witness :
  run (admin_login Demo.env (mkAdminLoginIn "A@Acme.com" "secret1")) Demo.one_org =
    (Returned
       (mkLoginOut
          (jwt_encode Demo.env
             (mkClaims "admin_a@acme.com_1700000000" "1"
                (1700000000 + JWT_EXP_SECONDS Demo.env)))
          "bearer"),
     Demo.one_org,
     [(Demo.one_org, AdminsFindOne (ByEmail (strip (lower "A@Acme.com"))));
      (Demo.one_org, UtcNow)]).
Proof.
  apply (create_then_login Demo.env Demo.acme Demo.empty Demo.acme_created Demo.one_org
           (run (create_organization Demo.env Demo.acme) Demo.empty).2).
  - vm_compute. reflexivity.
  - vm_compute. reflexivity.
  - vm_compute. discriminate.
  - vm_compute. reflexivity.
Defined.

Lemma find_updated_by_email (l : list AdminDoc) a f e :
  find_one (admin_matches (ById (admin_id a))) l = Some a ->
  existsb (fun x => negb (has_admin_id (admin_id a) x) && String.eqb (email x) e) l = false ->
  email (f a) = e ->
  find_one (admin_matches (ByEmail e)) (update_one (has_admin_id (admin_id a)) f l) =
    Some (f a).
Proof.
  intros Ha Huniq He. induction l as [|x l IH]; [done|].
  cbn [find_one admin_matches existsb update_one] in *.
  destruct (has_admin_id (admin_id a) x) eqn:E.
  - injection Ha as ->. cbn [find_one admin_matches]. by rewrite He, String.eqb_refl.
  - cbn [negb andb] in Huniq. apply orb_false_iff in Huniq as [Hx Huniq].
    cbn [find_one admin_matches]. rewrite Hx. by apply IH.
Qed.

(** X10.  An update that renames nothing and carries a new e-mail
    address and a new password returns with an empty [updated] dict,
    and a login with the new address and password then returns a token
    for the admin of the organization: the first credential record
    with the organization's identifier.  It is assumed that this
    record is the one its identifier finds, that no other record has
    the new address, and that the hasher gives a non-empty hash that
    verifies its own password. *)
Theorem update_credentials_then_login env w payload org a e p :
  let cur := slugify_org (update_organization_name payload) in
  let w' := final (update_organization env payload) w in
  find_one (has_slug cur) (orgs w) = Some org ->
  renames_to payload = None ->
  update_email payload = Some e -> truthy (Some e) = true ->
  update_password payload = Some p -> truthy (Some p) = true ->
  find_one (admin_matches (ByOrganizationId (oid_str (org_id org)))) (admins w) = Some a ->
  find_one (admin_matches (ById (admin_id a))) (admins w) = Some a ->
  existsb (fun x => negb (has_admin_id (admin_id a) x) &&
                    String.eqb (email x) (strip (lower e))) (admins w) = false ->
  hash_password env p <> EmptyString ->
  verify_password env p (hash_password env p) = true ->
  outcome (update_organization env payload) w = Returned (mkUpdateOut []) /\
  run (admin_login env (mkAdminLoginIn e p)) w' =
    (Returned
       (mkLoginOut
          (jwt_encode env
             (mkClaims (admin_id a) (organization_id a) (clock w + JWT_EXP_SECONDS env)))
          "bearer"),
     w', [(w', AdminsFindOne (ByEmail (strip (lower e)))); (w', UtcNow)]).
Proof.
  intros cur w' Horg Hren He Het Hp Hpt Ha Hid Huniq Hne Hv. subst w'.
  unfold outcome, final. rewrite run_update_organization. fold cur. rewrite Horg, Hren.
  unfold update_tail. rewrite He, Hp, Het. cbn [orb].
  rewrite run_bind. unfold update_admin. rewrite run_await. cbn [exec fst snd].
  rewrite Ha, He, Hp, Het, Hpt. cbn [app]. cbn [run await exec].
  unfold logged. cbn [fst snd run]. split; [done|].
  set (f := admin_apply _).
  unfold admin_login. cbn [login_email login_password].
  rewrite run_await. cbn [exec fst snd admins set_admins].
  rewrite (find_updated_by_email _ a f (strip (lower e)) Hid Huniq eq_refl).
  cbn [f admin_apply fold_left admin_set password_hash admin_id organization_id].
  destruct (hash_password env p) as [|c h] eqn:Hh; [done|].
  cbn [truthy negb orb]. rewrite Hv. cbn [negb].
  unfold create_jwt. rewrite run_bind, run_await. by cbn [exec fst snd run clock set_admins].
Qed.

Lemma update_credentials_then_login_witness :
  let w' := final (update_organization Demo.env Demo.acme_new_credentials) Demo.one_org in
  outcome (update_organization Demo.env Demo.acme_new_credentials) Demo.one_org =
    Returned (mkUpdateOut []) /\
  run (admin_login Demo.env (mkAdminLoginIn " New@Acme.com " "secret9")) w' =
    (Returned
       (mkLoginOut
          (jwt_encode Demo.env
             (mkClaims "admin_a@acme.com_1700000000" "1"
                (1700000000 + JWT_EXP_SECONDS Demo.env)))
          "bearer"),
     w', [(w', AdminsFindOne (ByEmail (strip (lower " New@Acme.com ")))); (w', UtcNow)]).
Proof.
  apply (update_credentials_then_login Demo.env Demo.one_org Demo.acme_new_credentials
           Demo.acme_record Demo.acme_admin " New@Acme.com " "secret9").
  - vm_compute. reflexivity.
  - vm_compute. reflexivity.
  - reflexivity.
  - reflexivity.
  - reflexivity.
  - reflexivity.
  - vm_compute. reflexivity.
  - vm_compute. reflexivity.
  - vm_compute. reflexivity.
  - vm_compute. discriminate.
  - vm_compute. reflexivity.
Defined.

(** ** Delete *)

Lemma NoDup_fmap_eq {A B} (f : A -> B) c x y :
  NoDup (f <$> c) -> x ∈ c -> y ∈ c -> f x = f y -> x = y.
Proof.
  induction c as [|z c IH]; [by intros _ ?%elem_of_nil|].
  rewrite fmap_cons, NoDup_cons. intros [Hz Hnd] Hx Hy Hf.
  apply elem_of_cons in Hx as [->|Hx]; apply elem_of_cons in Hy as [->|Hy]; auto.
  - destruct Hz. rewrite Hf. apply list_elem_of_fmap. by exists y.
  - destruct Hz. rewrite <- Hf. apply list_elem_of_fmap. by exists x.
Qed.

Lemma delete_one_unique (c : list OrgDoc) d x :
  NoDup (org_id <$> c) -> d ∈ c ->
  x ∈ delete_one (has_org_id (org_id d)) c <-> x ∈ c /\ x <> d.
Proof.
  induction c as [|z c IH]; [by intros _ ?%elem_of_nil|].
  rewrite fmap_cons, NoDup_cons. intros [Hz Hnd] Hd. simpl.
  unfold has_org_id at 1. destruct (N.eqb_spec (org_id z) (org_id d)) as [E|E].
  - assert (z = d) as ->.
    { apply elem_of_cons in Hd as [->|Hd]; [done|]. destruct Hz. rewrite E.
      apply list_elem_of_fmap. by exists d. }
    rewrite elem_of_cons. split.
    + intros Hx. split; [by right|]. intros ->. apply Hz, list_elem_of_fmap. by exists d.
    + by intros [[->|Hx] Hne].
  - apply elem_of_cons in Hd as [->|Hd]; [done|].
    rewrite !elem_of_cons, (IH Hnd Hd). split.
    + intros [->|[Hx Hne]]; [|by auto]. split; [by left|]. by intros ->.
    + intros [[->|Hx] Hne]; auto.
Qed.

Lemma delete_many_elem {A} (q : A -> bool) c x :
  x ∈ delete_many q c <-> x ∈ c /\ q x = false.
Proof.
  unfold delete_many. rewrite !list_elem_of_In, filter_In.
  by rewrite negb_true_iff.
Qed.

(** X11.  In a store whose directory has unique identifiers and slugs,
    a delete by an admin whose token carries the identifier of the
    target record returns the name it was given and removes exactly
    that record, every credential record with its identifier (and no
    other), and its region; fetching the name afterwards fails with
    Not Found. *)
Theorem delete_removes_organization w payload cred org :
  let sl := slugify_org (delete_organization_name payload) in
  let w' := final (delete_organization payload cred) w in
  directory_ok w ->
  find_one (has_slug sl) (orgs w) = Some org ->
  cred_org_id cred = oid_str (org_id org) ->
  outcome (delete_organization payload cred) w =
    Returned (mkDeleteOut (delete_organization_name payload)) /\
  (forall o, o ∈ orgs w' <-> o ∈ orgs w /\ o <> org) /\
  (forall a, a ∈ admins w' <->
             a ∈ admins w /\ organization_id a <> oid_str (org_id org)) /\
  colls w' = delete sl (colls w) /\
  run (get_organization (delete_organization_name payload)) w' =
    (Failed not_found, w', [(w', OrgsFindOne sl)]).
Proof.
  intros sl w' (Hids & Hslugs & _) Hfind Hcred. subst w'.
  unfold outcome, final, delete_organization. fold sl.
  rewrite run_await. cbn [exec fst snd]. rewrite Hfind, Hcred, String.eqb_refl.
  cbn [negb]. rewrite run_try_pass. cbn [exec snd]. rewrite run_await. cbn [exec fst snd].
  rewrite run_await. cbn [exec fst snd run orgs admins colls set_orgs set_admins set_colls].
  destruct (find_one_some _ _ _ Hfind) as [Hin Hsl]. apply String.eqb_eq in Hsl.
  assert (Horgs : forall o, o ∈ delete_one (has_org_id (org_id org)) (orgs w) <->
                            o ∈ orgs w /\ o <> org)
    by (intros o; by apply delete_one_unique).
  split; [done|]. split; [done|]. split.
  { intros a. rewrite delete_many_elem. cbn [admin_matches].
    by rewrite String.eqb_neq. }
  split; [done|].
  unfold get_organization. fold sl. rewrite run_await. cbn [exec fst snd orgs set_orgs].
  destruct (find_one (has_slug sl) (delete_one _ _)) as [o|] eqn:Ho; [|done].
  destruct (find_one_some _ _ _ Ho) as [[Ho1 Ho2]%Horgs Ho3]. apply String.eqb_eq in Ho3.
  destruct Ho2.
  apply (NoDup_fmap_eq (fun o => slug (org_fields o)) (orgs w)); try done. congruence.
Qed.

Lemma delete_removes_organization_witness :
  let payload := mkOrgDeleteIn "Acme Inc" in
  let sl := slugify_org "Acme Inc" in
  let w' := final (delete_organization payload Demo.acme_cred) Demo.one_org in
  outcome (delete_organization payload Demo.acme_cred) Demo.one_org =
    Returned (mkDeleteOut "Acme Inc") /\
  (forall o, o ∈ orgs w' <-> o ∈ orgs Demo.one_org /\ o <> Demo.acme_record) /\
  (forall a, a ∈ admins w' <->
             a ∈ admins Demo.one_org /\
             organization_id a <> oid_str (org_id Demo.acme_record)) /\
  colls w' = delete sl (colls Demo.one_org) /\
  run (get_organization "Acme Inc") w' = (Failed not_found, w', [(w', OrgsFindOne sl)]).
Proof.
  apply (delete_removes_organization Demo.one_org (mkOrgDeleteIn "Acme Inc")
           Demo.acme_cred Demo.acme_record).
  - vm_compute. split; [|split]; repeat constructor; by intros ?%elem_of_nil.
  - vm_compute. reflexivity.
  - vm_compute. reflexivity.
Defined.

Lemma pretty_N_go_nonempty (x : N) s : s <> EmptyString -> pretty_N_go x s <> EmptyString.
Proof.
  revert s. induction (N.lt_wf_0 x) as [x _ IH]; intros s Hs.
  destruct (decide (0 < x)%N).
  - rewrite pretty_N_go_step by done. apply IH; [|done].
    apply N.div_lt; lia.
  - assert (x = 0%N) as -> by lia. rewrite pretty_N_go_0. exact Hs.
Qed.

Lemma oid_str_nonempty (id : ObjectId) : oid_str id <> EmptyString.
Proof.
  unfold oid_str, pretty, pretty_N. case_decide; [discriminate|].
  assert (0 < id)%N by lia. rewrite pretty_N_go_step by done.
  by apply pretty_N_go_nonempty.
Qed.

Lemma delete_one_last {A} (q : A -> bool) c d :
  (forall x, x ∈ c -> q x = false) -> q d = true -> delete_one q (c ++ [d]) = c.
Proof.
  intros Hc Hd. induction c as [|x c IH]; simpl.
  - by rewrite Hd.
  - rewrite (Hc x) by (by left). f_equal. apply IH. intros y Hy. apply Hc. by right.
Qed.

Lemma delete_many_app {A} (q : A -> bool) c c' :
  delete_many q (c ++ c') = delete_many q c ++ delete_many q c'.
Proof. unfold delete_many. apply List.filter_app. Qed.

(** X12.  Delete undoes create.  After a create has returned, a delete
    of the same name with a token whose claims are the admin
    identifier and the organization identifier that the create
    returned is accepted and returns; it leaves the directory as it
    was before the create, the region named by the slug absent, and
    the credential records as before, less those that carried the
    identifier of the new organization. *)
Theorem delete_undoes_create env payload w r w1 log token :
  let sl := slugify_org (strip (create_organization_name payload)) in
  let target := mkOrgDeleteIn (create_organization_name payload) in
  run (create_organization env payload) w = (Returned r, w1, log) ->
  jwt_decode env token = Payload (Some (out_admin_user_id r)) (Some (out_org_id r)) ->
  outcome (delete_org_delete env token target) w1 =
    Returned (mkDeleteOut (create_organization_name payload)) /\
  final (delete_org_delete env token target) w1 =
    mkWorld (orgs w)
      (delete_many (admin_matches (ByOrganizationId (out_org_id r))) (admins w))
      (delete sl (colls w)) (clock w).
Proof.
  intros sl target Hrun Hdec.
  destruct (create_returned env payload w r w1 log Hrun)
    as (Hfree & Hfresh & -> & Horgs & Hadm & Hcolls & Hclock). fold sl in Hfree, Hcolls.
  cbn [out_admin_user_id out_org_id] in *.
  set (id := fresh_oid (org_id <$> orgs w)) in *.
  unfold outcome, final, delete_org_delete. rewrite run_bind.
  unfold get_current_admin, decode_jwt. rewrite Hdec. cbn [bind].
  assert (Ha : truthy (Some (created_admin_id payload w)) = true) by done.
  assert (Ho : truthy (Some (oid_str id)) = true).
  { pose proof (oid_str_nonempty id). by destruct (oid_str id). }
  rewrite Ha, Ho. cbn [negb orb default]. unfold id at 1 2. fold id.
  rewrite run_await. cbn [exec fst snd]. rewrite Hadm.
  rewrite (find_one_last (admin_matches (ById (created_admin_id payload w)))).
  2:{ intros x Hx. cbn [admin_matches].
      destruct (has_admin_id _ x) eqn:E; [|done].
      rewrite <- Hfresh. symmetry. apply existsb_exists. exists x.
      by rewrite <- list_elem_of_In. }
  2:{ cbn. apply String.eqb_refl. }
  cbn [organization_id created_admin]. fold id. rewrite String.eqb_refl. cbn [negb run fst snd].
  unfold delete_organization, target. cbn [delete_organization_name cred_org_id].
  rewrite run_await. cbn [exec fst snd].
  rewrite <- (slugify_org_strip (create_organization_name payload)). fold sl. rewrite Horgs.
  rewrite (find_one_last (has_slug sl)).
  2:{ by apply find_one_none_all. }
  2:{ cbn. apply String.eqb_refl. }
  cbn [org_id created_org]. fold id. rewrite String.eqb_refl. cbn [negb].
  rewrite run_try_pass. cbn [exec snd]. rewrite run_await. cbn [exec fst snd].
  rewrite run_await. cbn [exec fst snd run orgs admins colls clock set_orgs set_admins set_colls].
  split; [done|].
  unfold set_orgs, set_admins, set_colls. cbn [orgs admins colls clock].
  rewrite Horgs, Hadm, Hcolls, Hclock.
  rewrite (delete_one_last (has_org_id id)); [|apply fresh_oid_unused|apply N.eqb_refl].
  rewrite delete_many_app. cbn [delete_many List.filter admin_matches organization_id created_admin].
  fold id. rewrite String.eqb_refl. cbn [negb]. rewrite app_nil_r.
  by rewrite delete_insert_eq.
Qed.

Lemma delete_undoes_create_witness :
  outcome (delete_org_delete Demo.env "acme-admin" (mkOrgDeleteIn "Acme Inc")) Demo.one_org =
    Returned (mkDeleteOut "Acme Inc") /\
  final (delete_org_delete Demo.env "acme-admin" (mkOrgDeleteIn "Acme Inc")) Demo.one_org =
    mkWorld (orgs Demo.empty)
      (delete_many (admin_matches (ByOrganizationId "1")) (admins Demo.empty))
      (delete (slugify_org (strip "Acme Inc")) (colls Demo.empty)) (clock Demo.empty).
Proof.
  apply (delete_undoes_create Demo.env Demo.acme Demo.empty Demo.acme_created Demo.one_org
           (run (create_organization Demo.env Demo.acme) Demo.empty).2 "acme-admin").
  - vm_compute. reflexivity.
  - vm_compute. reflexivity.
Defined.

(** X13.  A token dies with its organization.  After a delete with a
    token has returned, every further delete request with the same
    token, whatever its target, is refused by the auth dependency
    before the handler runs, with status 401 (the admin is gone) or
    403 (another record with the admin's identifier belongs to another
    organization), and leaves the store unchanged. *)
Theorem token_dead_after_delete env token target target' w r w' log :
  run (delete_org_delete env token target) w = (Returned r, w', log) ->
  final (delete_org_delete env token target') w' = w' /\
  (outcome (delete_org_delete env token target') w' =
     Failed (HTTPException 401 "Admin not found") \/
   outcome (delete_org_delete env token target') w' =
     Failed (HTTPException 403 "Organization mismatch")).
Proof.
  unfold delete_org_delete at 1. rewrite run_bind.
  unfold get_current_admin at 1, decode_jwt.
  destruct (jwt_decode env token) as [| |a o] eqn:Hdec; cbn [bind run]; [done..|].
  destruct (truthy a) eqn:Ha; [|done]. destruct (truthy o) eqn:Ho; [|done].
  destruct (truthy_some _ Ha) as (a' & -> & _).
  destruct (truthy_some _ Ho) as (o' & -> & _).
  cbn [negb orb default]. unfold id. rewrite run_await. cbn [exec fst snd].
  destruct (find_one _ (admins w)) as [adm|] eqn:Hadm; [|done].
  destruct (String.eqb (organization_id adm) o') eqn:Horg; cbn [negb run]; [|done].
  unfold delete_organization. rewrite run_await. cbn [exec fst snd].
  destruct (find_one (has_slug _) (orgs w)) as [org|] eqn:Hfind; [|done].
  cbn [cred_org_id].
  destruct (String.eqb (oid_str (org_id org)) o') eqn:Heq; [|done].
  cbn [negb]. rewrite run_try_pass. cbn [exec snd]. rewrite run_await. cbn [exec fst snd].
  rewrite run_await. cbn [exec fst snd run]. intros [= _ <- _].
  apply String.eqb_eq in Heq. subst o'.
  unfold final, outcome, delete_org_delete. rewrite run_bind.
  unfold get_current_admin, decode_jwt. rewrite Hdec. cbn [bind]. rewrite Ha, Ho.
  cbn [negb orb default]. unfold id. rewrite run_await. cbn [exec fst snd].
  cbn [admins set_orgs set_admins set_colls].
  destruct (find_one _ (delete_many _ _)) as [adm'|] eqn:Hadm'; [|by auto].
  destruct (find_one_some _ _ _ Hadm') as [[_ Hno]%delete_many_elem _].
  cbn [admin_matches] in Hno. rewrite Hno. cbn [negb run fst snd]. by auto.
Qed.

Lemma token_dead_after_delete_witness :
  final (delete_org_delete Demo.env "acme-admin" (mkOrgDeleteIn "Acme Inc")) Demo.empty =
    Demo.empty /\
  (outcome (delete_org_delete Demo.env "acme-admin" (mkOrgDeleteIn "Acme Inc")) Demo.empty =
     Failed (HTTPException 401 "Admin not found") \/
   outcome (delete_org_delete Demo.env "acme-admin" (mkOrgDeleteIn "Acme Inc")) Demo.empty =
     Failed (HTTPException 403 "Organization mismatch")).
Proof.
  apply (token_dead_after_delete Demo.env "acme-admin" (mkOrgDeleteIn "Acme Inc")
           (mkOrgDeleteIn "Acme Inc") Demo.one_org (mkDeleteOut "Acme Inc") Demo.empty
           (run (delete_org_delete Demo.env "acme-admin" (mkOrgDeleteIn "Acme Inc"))
              Demo.one_org).2).
  vm_compute. reflexivity.
Defined.

(** ** Rename *)

Lemma find_by_id_unique (c : list OrgDoc) d :
  NoDup (org_id <$> c) -> d ∈ c -> find_one (has_org_id (org_id d)) c = Some d.
Proof.
  intros Hnd Hd.
  destruct (find_one_elem (has_org_id (org_id d)) c d Hd (N.eqb_refl _)) as [x Hx].
  rewrite Hx. f_equal. destruct (find_one_some _ _ _ Hx) as [Hin Hid].
  apply N.eqb_eq in Hid. by apply (NoDup_fmap_eq org_id c).
Qed.

(** X14.  In a store whose directory has unique identifiers and slugs,
    after an update that renamed an organization has returned, the
    response lists the new display name, slug, region name and update
    time; fetching the new name returns the new display name and
    region with the identifier, admin reference, connection details
    and creation time the record had before; fetching the old name
    fails with Not Found. *)
Theorem rename_then_get env w payload org n out w' log :
  let cur := slugify_org (update_organization_name payload) in
  let new := slugify_org (strip n) in
  let f := org_fields org in
  directory_ok w ->
  find_one (has_slug cur) (orgs w) = Some org ->
  new_organization_name payload = Some n ->
  truthy (Some n) = true ->
  new <> cur ->
  run (update_organization env payload) w = (Returned out, w', log) ->
  updated out = rename_updates (strip n) new (clock w) /\
  run (get_organization n) w' =
    (Returned (mkGetOut (strip n) new (connection_details f) (admin_user_id f)
                 (oid_str (org_id org)) (created_at f)),
     w', [(w', OrgsFindOne new)]) /\
  run (get_organization (update_organization_name payload)) w' =
    (Failed not_found, w', [(w', OrgsFindOne cur)]).
Proof.
  intros cur new f Hok Horg Hn Ht Hne Hrun.
  pose proof (renames_to_some _ _ Hn Ht Hne) as Hren. fold new in Hren.
  destruct (find_one (has_slug new) (orgs w)) as [c|] eqn:Hfree.
  { rewrite run_update_organization in Hrun. fold cur in Hrun.
    rewrite Horg, Hren, run_bind, (run_rename_conflict _ _ _ _ _ _ _ c Hfree) in Hrun.
    discriminate Hrun. }
  destruct (run_update_rename env w payload org (strip n) new Horg Hren Hfree)
    as (w2 & copies & out' & w'' & tail & Hrun' & _ & _ & _ & _ & Ho & _ & _ & Hout & _).
  cbn zeta in Hrun', Ho. fold cur in Hrun', Ho. rewrite Hrun in Hrun'.
  injection Hrun' as <- <- _. cbn [orgs set_orgs set_colls] in Ho.
  destruct Hok as (Hids & Hslugs & _).
  destruct (find_one_some _ _ _ Horg) as [Hin Hcur]. apply String.eqb_eq in Hcur.
  pose proof (find_by_id_unique _ _ Hids Hin) as Hid.
  split.
  { destruct (find_one _ (admins w)); [by injection Hout as ->|].
    destruct (wants_admin_update payload); [done|by injection Hout as ->]. }
  split.
  - unfold get_organization. rewrite <- slugify_org_strip. fold new.
    rewrite run_await. cbn [exec fst snd]. rewrite Ho.
    rewrite (find_one_update_one _ _ _ _ org Hfree Hid).
    2:{ cbn. apply String.eqb_refl. }
    reflexivity.
  - unfold get_organization. fold cur. rewrite run_await. cbn [exec fst snd]. rewrite Ho.
    destruct (find_one (has_slug cur) (update_one _ _ _)) as [o|] eqn:Hfind; [|done].
    destruct (find_one_some _ _ _ Hfind) as [Ho1 Ho2]. apply String.eqb_eq in Ho2.
    exfalso. clear Hrun Hout Hfind Ho Hid.
    revert Hids Hslugs Hin Ho1. generalize (orgs w) as c.
    induction c as [|x c IH]; [by intros _ _ ?%elem_of_nil|].
    rewrite !fmap_cons, !NoDup_cons. intros [Hx1 Hids] [Hx2 Hslugs] Hin. cbn [update_one].
    unfold has_org_id at 1. destruct (N.eqb_spec (org_id x) (org_id org)) as [E|E].
    + assert (x = org) as ->.
      { apply elem_of_cons in Hin as [->|Hin]; [done|]. destruct Hx1. rewrite E.
        apply list_elem_of_fmap. by exists org. }
      intros [->|Ho1]%elem_of_cons.
      * cbn in Ho2. by destruct Hne.
      * apply Hx2. rewrite Hcur, <- Ho2. apply list_elem_of_fmap. by exists o.
    + apply elem_of_cons in Hin as [->|Hin]; [done|].
      intros [->|Ho1]%elem_of_cons.
      * apply Hx2. rewrite Ho2, <- Hcur. apply list_elem_of_fmap. by exists org.
      * by apply IH.
Qed.

Lemma rename_then_get_witness :
  let w := Demo.five_docs in
  let w' := final (update_organization Demo.env Demo.rename_acme) w in
  let new := slugify_org (strip "Acme Corp") in
  let f := org_fields Demo.acme_record in
  updated (mkUpdateOut (rename_updates "Acme Corp" "org_acme-corp" 1700000000)) =
    rename_updates (strip "Acme Corp") new (clock w) /\
  run (get_organization "Acme Corp") w' =
    (Returned (mkGetOut (strip "Acme Corp") new (connection_details f) (admin_user_id f)
                 (oid_str (org_id Demo.acme_record)) (created_at f)),
     w', [(w', OrgsFindOne new)]) /\
  run (get_organization "Acme Inc") w' =
    (Failed not_found, w', [(w', OrgsFindOne (slugify_org "Acme Inc"))]).
Proof.
  apply (rename_then_get Demo.env Demo.five_docs Demo.rename_acme Demo.acme_record
           "Acme Corp"
           (mkUpdateOut (rename_updates "Acme Corp" "org_acme-corp" 1700000000))
           (final (update_organization Demo.env Demo.rename_acme) Demo.five_docs)
           (run (update_organization Demo.env Demo.rename_acme) Demo.five_docs).2).
  - vm_compute. split; [|split]; repeat constructor; by intros ?%elem_of_nil.
  - vm_compute. reflexivity.
  - reflexivity.
  - reflexivity.
  - vm_compute. discriminate.
  - vm_compute. reflexivity.
Defined.

(** *** The batches of the copy *)

Lemma batches_into_app name l l' :
  batches_into name (l ++ l') = batches_into name l ++ batches_into name l'.
Proof. apply omap_app. Qed.

Lemma migrate_batches env name cursor : forall batch count w,
  Z.of_nat (length batch) < Z.max 1 (BATCH_SIZE env) ->
  exists batch' count' w' log,
    run (migrate env name cursor batch count) w = (Returned (batch', count'), w', log) /\
    concat (batches_into name log.*2) ++ batch' = batch ++ cursor /\
    Forall (fun b => Z.of_nat (length b) = Z.max 1 (BATCH_SIZE env))
      (batches_into name log.*2) /\
    Z.of_nat (length batch') < Z.max 1 (BATCH_SIZE env).
Proof.
  induction cursor as [|doc cursor IH]; intros batch count w Hlen.
  - exists batch, count, w, []. by rewrite app_nil_r.
  - cbn [migrate].
    assert (Hl : Z.of_nat (length (batch ++ [doc])) = Z.of_nat (length batch) + 1).
    { rewrite length_app. cbn [length]. lia. }
    destruct (Z.leb_spec (BATCH_SIZE env) (Z.of_nat (length (batch ++ [doc])))) as [Hle|Hgt].
    + rewrite run_try_pass.
      set (w1 := (exec (InsertMany name (batch ++ [doc])) w).2).
      destruct (IH [] (count + length (batch ++ [doc]))%nat w1)
        as (batch' & count' & w' & log & -> & Hcat & Hfull & Hlen'); [simpl; lia|].
      exists batch', count', w', ((w, InsertMany name (batch ++ [doc])) :: log).
      split; [done|]. rewrite fmap_cons. cbn [snd batches_into omap list_omap].
      rewrite String.eqb_refl. fold (batches_into name log.*2).
      split; [|split; [|done]].
      * cbn [concat]. rewrite <- !app_assoc. rewrite Hcat. done.
      * constructor; [lia|done].
    + destruct (IH (batch ++ [doc]) count w)
        as (batch' & count' & w' & log & -> & Hcat & Hfull & Hlen'); [lia|].
      exists batch', count', w', log. split; [done|]. split; [|done].
      by rewrite Hcat, <- app_assoc.
Qed.

Lemma update_tail_no_batches env payload o now updates w name :
  batches_into name (run (update_tail env payload o now updates) w).2.*2 = [].
Proof.
  destruct o as [o|].
  - destruct (run_update_tail env payload o now updates w)
      as (out & w' & l & -> & _ & _ & Hl & _). cbn [snd].
    induction Hl as [|[w0 op] l Hop _ IH]; [done|].
    rewrite fmap_cons. cbn [snd batches_into omap list_omap] in *.
    destruct op; try done.
  - unfold update_tail, update_admin.
    by destruct (truthy (update_email payload) || truthy (update_password payload)).
Qed.

Lemma run_try_pass_ret {A B} o (v : A) (k : A -> Prog B) w :
  run (bind (bind (try_pass o) (fun _ => Ret v)) k) w =
  let '(out, w', log) := run (k v) (exec o w).2 in (out, w', (w, o) :: log).
Proof. simpl. by destruct (exec o w). Qed.

Lemma rename_finish_shape id (updates : list OrgSet) cur new w name :
  exists o w' l,
    run (await (OrgsUpdateOne id updates) ;;
         try_pass (DropCollection cur) ;;
         org <- await (OrgsFindOne new) ;;
         Ret (updates, org))%prog w = (o, w', l) /\
    batches_into name l.*2 = [] /\
    match o with Returned a => a.1 = updates | Failed _ => True end.
Proof.
  rewrite run_await.
  destruct (exec (OrgsUpdateOne id updates) w) as [[e|[]] w3]; cbn [fst snd].
  - by eexists _, _, _.
  - rewrite run_try_pass. cbn [exec snd]. rewrite run_await. cbn [exec fst snd run].
    by eexists _, _, _.
Qed.

(** X15.  Whatever [BATCH_SIZE] is (zero and negative sizes act as
    one), a rename to a free slug hands the documents that the scan of
    the old region yields to [insert_many] on the new region in
    consecutive batches and in scan order: the batches put together
    are exactly the scanned documents, every batch but possibly the
    last has the batch size, and the last one, if shorter, is not
    empty. *)
Theorem rename_copies_in_batches env w payload org n :
  let cur := slugify_org (update_organization_name payload) in
  let new := slugify_org (strip n) in
  let size := Z.max 1 (BATCH_SIZE env) in
  find_one (has_slug cur) (orgs w) = Some org ->
  new_organization_name payload = Some n ->
  truthy (Some n) = true ->
  new <> cur ->
  find_one (has_slug new) (orgs w) = None ->
  exists full last,
    batches_into new (calls (update_organization env payload) w) = full ++ last /\
    concat (full ++ last) = docs_of w cur /\
    Forall (fun b => Z.of_nat (length b) = size) full /\
    (last = [] \/ exists b, last = [b] /\ b <> [] /\ Z.of_nat (length b) < size).
Proof.
  intros cur new size Horg Hn Ht Hne Hfree.
  pose proof (renames_to_some _ _ Hn Ht Hne) as Hren. fold new in Hren.
  unfold calls. rewrite run_update_organization. fold cur. rewrite Horg, Hren.
  unfold logged. cbn [snd]. rewrite fmap_app, batches_into_app. cbn [fmap list_fmap app].
  replace (batches_into new [(w, OrgsFindOne cur).2; (w, UtcNow).2]) with (@nil (list Doc)) by done.
  cbn [app].
  rewrite run_bind. unfold rename at 1.
  rewrite run_await. cbn [exec fst snd]. rewrite Hfree.
  rewrite run_try_pass. set (w1 := (exec (CreateCollection new) w).2).
  rewrite run_await. cbn [exec fst snd].
  replace (docs_of w1 cur) with (docs_of w cur)
    by (symmetry; apply docs_of_create_collection).
  rewrite run_bind.
  destruct (migrate_batches env new (docs_of w cur) [] O w1)
    as (batch & count & wm & log & -> & Hcat & Hfull & Hlen); [simpl; lia|].
  cbn [app] in Hcat.
  exists (batches_into new log.*2), (match batch with [] => [] | _ => [batch] end).
  split; [|split; [|split; [done|]]].
  - match goal with |- context [@run ?A ?p wm] =>
      assert (Hp : exists o2 w2 l2,
        @run A p wm = (o2, w2, l2) /\
        batches_into new l2.*2 = match batch with [] => [] | _ => [batch] end /\
        match o2 with
        | Returned a => a.1 = rename_updates (strip n) new (clock w)
        | Failed _ => True
        end)
    end.
    { destruct batch as [|b batch].
      - cbn [bind]. apply rename_finish_shape.
      - rewrite run_try_pass_ret.
        destruct (rename_finish_shape (org_id org)
          (rename_updates (strip n) new (clock w)) cur new
          (exec (InsertMany new (b :: batch)) wm).2 new) as (o3 & w3 & l3 & Hr & Hb & Ho).
        exists o3, w3, ((wm, InsertMany new (b :: batch)) :: l3).
        split; [|split; [|done]].
        { exact (f_equal (fun r : Outcome (list OrgSet * option OrgDoc) * World *
                                  list (World * Op) =>
                            let '(out, w', l) := r in
                            (out, w', (wm, InsertMany new (b :: batch)) :: l)) Hr). }
        rewrite fmap_cons. cbn [snd batches_into omap list_omap].
        rewrite String.eqb_refl. fold (batches_into new l3.*2). by rewrite Hb. }
    destruct Hp as (o2 & w2 & l2 & Hr & Hp & Ho2). rewrite Hr.
    destruct o2 as [a|e]; cbv beta iota zeta.
    + pose proof (update_tail_no_batches env payload a.2 (clock w) a.1 w2 new) as Htail.
      destruct (run (update_tail _ _ _ _ _) w2) as [[o4 w4] l4]. cbn [snd] in *.
      rewrite fmap_app, !fmap_cons, fmap_app, batches_into_app. cbn [snd].
      cbn [batches_into omap list_omap]. fold (batches_into new (log.*2 ++ l2.*2)).
      by rewrite batches_into_app, Hp, Htail, app_nil_r.
    + cbn [snd]. rewrite !fmap_cons, fmap_app. cbn [snd].
      cbn [batches_into omap list_omap]. fold (batches_into new (log.*2 ++ l2.*2)).
      by rewrite batches_into_app, Hp.
  - rewrite concat_app, <- Hcat. f_equal.
    destruct batch; [done|]. cbn [concat]. by rewrite app_nil_r.
  - destruct batch as [|b batch]; [by left|]. right. eexists. by repeat split.
Qed.

Lemma rename_copies_in_batches_witness :
  let w := Demo.five_docs in
  let cur := slugify_org "Acme Inc" in
  let new := slugify_org (strip "Acme Corp") in
  let size := Z.max 1 (BATCH_SIZE Demo.env) in
  exists full last,
    batches_into new (calls (update_organization Demo.env Demo.rename_acme) w) =
      full ++ last /\
    concat (full ++ last) = docs_of w cur /\
    Forall (fun b => Z.of_nat (length b) = size) full /\
    (last = [] \/ exists b, last = [b] /\ b <> [] /\ Z.of_nat (length b) < size).
Proof.
  apply (rename_copies_in_batches Demo.env Demo.five_docs Demo.rename_acme
           Demo.acme_record "Acme Corp").
  - vm_compute. reflexivity.
  - reflexivity.
  - reflexivity.
  - vm_compute. discriminate.
  - vm_compute. reflexivity.
Defined.

(** *** What a rename leaves alone *)

Lemma update_one_other (c : list OrgDoc) org f o :
  NoDup (org_id <$> c) -> org ∈ c -> o ∈ c -> o <> org ->
  o ∈ update_one (has_org_id (org_id org)) f c.
Proof.
  induction c as [|x c IH]; [by intros _ ?%elem_of_nil|].
  rewrite fmap_cons, NoDup_cons. intros [Hx Hids] Hin Ho Hne. cbn [update_one].
  unfold has_org_id at 1. destruct (N.eqb_spec (org_id x) (org_id org)) as [E|E].
  - assert (x = org) as ->.
    { apply elem_of_cons in Hin as [->|Hin]; [done|]. destruct Hx. rewrite E.
      apply list_elem_of_fmap. by exists org. }
    apply elem_of_cons in Ho as [->|Ho]; [done|by right].
  - apply elem_of_cons in Ho as [->|Ho]; [by left|]. right. apply IH; try done.
    apply elem_of_cons in Hin as [->|Hin]; done.
Qed.

Lemma update_one_self (c : list OrgDoc) org f :
  NoDup (org_id <$> c) -> org ∈ c ->
  f org ∈ update_one (has_org_id (org_id org)) f c.
Proof.
  induction c as [|x c IH]; [by intros _ ?%elem_of_nil|].
  rewrite fmap_cons, NoDup_cons. intros [Hx Hids] Hin. cbn [update_one].
  unfold has_org_id at 1. destruct (N.eqb_spec (org_id x) (org_id org)) as [E|E].
  - assert (x = org) as ->; [|by left].
    apply elem_of_cons in Hin as [->|Hin]; [done|]. destruct Hx. rewrite E.
    apply list_elem_of_fmap. by exists org.
  - right. apply IH; [done|]. apply elem_of_cons in Hin as [->|Hin]; done.
Qed.

(** X16.  In a store whose directory has unique identifiers and slugs,
    an update that renames an organization to a free slug and carries
    no new credentials touches nothing but the record and the two
    regions of that organization: the credential records are the same,
    every other organization record is still there, the directory has
    as many records as before, and every region other than the old and
    the new one holds what it held. *)
Theorem rename_touches_only_its_organization env w payload org nn ns :
  let cur := slugify_org (update_organization_name payload) in
  let w' := final (update_organization env payload) w in
  directory_ok w ->
  find_one (has_slug cur) (orgs w) = Some org ->
  renames_to payload = Some (nn, ns) ->
  find_one (has_slug ns) (orgs w) = None ->
  wants_admin_update payload = false ->
  admins w' = admins w /\
  (forall o, o ∈ orgs w -> o <> org -> o ∈ orgs w') /\
  length (orgs w') = length (orgs w) /\
  (forall k, k <> cur -> k <> ns -> colls w' !! k = colls w !! k).
Proof.
  intros cur w' (Hids & _ & _) Horg Hren Hfree Hwant. subst w'.
  destruct (find_one_some _ _ _ Horg) as [Hin _].
  destruct (renames_to_inv _ _ _ Hren) as [Hne _]. fold cur in Hne.
  destruct (run_rename env w org cur nn ns (clock w) Hne Hfree Hin)
    as (w2 & copies & d & Hrun & Hs & _).
  cbn zeta in Hrun.
  unfold final. rewrite run_update_organization. fold cur. rewrite Horg, Hren.
  rewrite run_bind, Hrun. cbn [fst snd]. unfold update_tail.
  unfold wants_admin_update in Hwant. rewrite Hwant. cbn [bind run].
  unfold logged. cbn [fst snd orgs admins colls set_orgs set_colls].
  destruct Hs as (Horgs2 & Hadm2 & _ & Hframe & _).
  split; [done|]. split; [|split].
  - intros o Ho Hneq. by apply update_one_other.
  - rewrite <- (length_fmap org_id), update_one_ids. apply length_fmap.
  - intros k Hk1 Hk2. rewrite lookup_delete_ne by done. by apply Hframe.
Qed.

Lemma rename_touches_only_its_organization_witness :
  let w := Demo.five_docs in
  let w' := final (update_organization Demo.env Demo.rename_acme) w in
  admins w' = admins w /\
  (forall o, o ∈ orgs w -> o <> Demo.acme_record -> o ∈ orgs w') /\
  length (orgs w') = length (orgs w) /\
  (forall k, k <> slugify_org "Acme Inc" -> k <> "org_acme-corp" ->
             colls w' !! k = colls w !! k).
Proof.
  apply (rename_touches_only_its_organization Demo.env Demo.five_docs Demo.rename_acme
           Demo.acme_record "Acme Corp" "org_acme-corp").
  - vm_compute. split; [|split]; repeat constructor; by intros ?%elem_of_nil.
  - vm_compute. reflexivity.
  - vm_compute. reflexivity.
  - vm_compute. reflexivity.
  - reflexivity.
Defined.

(** ** The stores the service reaches *)

Lemma elem_of_keys {A K} (f : A -> K) (l l' : list A) x :
  f <$> l' = f <$> l -> x ∈ l' -> exists y, y ∈ l /\ f y = f x.
Proof.
  intros Hk Hx. assert (Hin : f x ∈ f <$> l).
  { rewrite <- Hk. apply list_elem_of_fmap. by exists x. }
  apply list_elem_of_fmap in Hin as (y & Hy & Hin). by exists y.
Qed.

Lemma credentials_ok_keys w w' :
  admin_keys <$> admins w' = admin_keys <$> admins w ->
  org_id <$> orgs w' = org_id <$> orgs w ->
  credentials_ok w -> credentials_ok w'.
Proof.
  intros Ha Ho Hok a' Ha'.
  destruct (elem_of_keys admin_keys _ _ a' Ha Ha') as (a & Hin & [= Hid Horg]).
  destruct (Hok a Hin) as (o & Hoin & Heq).
  destruct (elem_of_keys org_id _ _ o (eq_sym Ho) Hoin) as (o' & Ho' & Hid').
  exists o'. split; [done|]. congruence.
Qed.

Lemma admin_links_ok_keys w w' :
  admin_keys <$> admins w' = admin_keys <$> admins w ->
  org_keys <$> orgs w' = org_keys <$> orgs w ->
  admin_links_ok w -> admin_links_ok w'.
Proof.
  intros Ha Ho Hok o' aid Ho' Haid.
  destruct (elem_of_keys org_keys _ _ o' Ho Ho') as (o & Hin & [= Hid Hadm]).
  destruct (Hok o aid Hin) as (a & Hain & Hai & Haorg); [congruence|].
  destruct (elem_of_keys admin_keys _ _ a (eq_sym Ha) Hain) as (a' & Hain' & [= Hid' Horg']).
  exists a'. split; [done|]. split; congruence.
Qed.

Lemma admin_apply_keys sets a : admin_keys (admin_apply sets a) = admin_keys a.
Proof.
  unfold admin_apply. revert a. induction sets as [|s sets IH]; intros a; [done|].
  cbn [fold_left]. rewrite IH. by destruct s.
Qed.

Lemma update_one_admin_keys (q : AdminDoc -> bool) sets l :
  admin_keys <$> update_one q (admin_apply sets) l = admin_keys <$> l.
Proof.
  induction l as [|x l IH]; [done|]. cbn [update_one]. destruct (q x).
  - by rewrite !fmap_cons, admin_apply_keys.
  - by rewrite !fmap_cons, IH.
Qed.

Lemma update_one_org_keys (q : OrgDoc -> bool) new_name new_slug now l :
  org_keys <$> update_one q (org_apply (rename_updates new_name new_slug now)) l =
  org_keys <$> l.
Proof.
  induction l as [|x l IH]; [done|]. cbn [update_one]. destruct (q x).
  - by rewrite !fmap_cons.
  - by rewrite !fmap_cons, IH.
Qed.

Lemma org_keys_ids (l l' : list OrgDoc) :
  org_keys <$> l' = org_keys <$> l -> org_id <$> l' = org_id <$> l.
Proof.
  intros H. apply (f_equal (fmap fst)) in H. by rewrite <- !list_fmap_compose in H.
Qed.

Lemma update_tail_final env payload o now updates w :
  let w' := (run (update_tail env payload o now updates) w).1.2 in
  orgs w' = orgs w /\ colls w' = colls w /\
  admin_keys <$> admins w' = admin_keys <$> admins w.
Proof.
  unfold update_tail.
  destruct (truthy (update_email payload) || truthy (update_password payload)); [|done].
  rewrite run_bind. unfold update_admin. destruct o as [o|]; [|done].
  rewrite run_await. cbn [exec fst snd].
  destruct (find_one _ (admins w)) as [a|]; [|done].
  destruct (update_email payload) as [[|c e]|], (update_password payload) as [[|c' p]|];
    cbn; by rewrite ?update_one_admin_keys.
Qed.

Lemma admin_keys_ids (l l' : list AdminDoc) :
  admin_keys <$> l' = admin_keys <$> l -> admin_id <$> l' = admin_id <$> l.
Proof.
  intros H. apply (f_equal (fmap fst)) in H. by rewrite <- !list_fmap_compose in H.
Qed.

Lemma delete_many_sublist {A} (q : A -> bool) l : sublist (delete_many q l) l.
Proof.
  unfold delete_many. induction l as [|x l IH]; [done|]. cbn [List.filter].
  destruct (negb (q x)); [by apply sublist_skip|by apply sublist_cons].
Qed.

Lemma store_ok_create env payload w :
  store_ok w -> store_ok (final (create_organization env payload) w).
Proof.
  intros (Hdir & Hadm0 & Hcred & Hlink & Hreg).
  split; [by apply create_preserves_directory_ok|].
  pose proof (create_final env payload w) as H. cbv zeta in H.
  set (sl := slugify_org (strip (create_organization_name payload))) in *.
  set (w' := final (create_organization env payload) w) in *.
  destruct (find_one (has_slug sl) (orgs w)) eqn:Hfree.
  { destruct H as [_ ->]. done. }
  destruct (existsb _ (admins w)) eqn:Hfresh.
  - destruct H as [_ ->]. split; [done|]. split; [|split].
    + intros a Ha. destruct (Hcred a Ha) as (o & Ho & Heq). exists o.
      split; [|done]. cbn. apply elem_of_app. by left.
    + intros o aid [Ho|Ho]%elem_of_app Haid.
      * by apply Hlink.
      * apply list_elem_of_singleton in Ho as ->. done.
    + intros k Hk. destruct (Hreg k Hk) as (o & Ho & Hs). exists o.
      split; [|done]. cbn. apply elem_of_app. by left.
  - destruct H as (_ & Horgs & Hadm & Hcolls & _). split; [|split; [|split]].
    + rewrite Hadm, fmap_app. apply NoDup_app. split; [done|].
      split; [|apply NoDup_singleton].
      intros x (a & Hx & Ha)%list_elem_of_fmap Hx'%list_elem_of_singleton.
      assert (existsb (has_admin_id (created_admin_id payload w)) (admins w) = true);
        [|congruence].
      apply existsb_exists. exists a. split; [by apply list_elem_of_In|].
      apply String.eqb_eq. by rewrite <- Hx, Hx'.
    + intros a. rewrite Hadm, Horgs. intros [Ha|Ha]%elem_of_app.
      * destruct (Hcred a Ha) as (o & Ho & Heq). exists o.
        split; [|done]. apply elem_of_app. by left.
      * apply list_elem_of_singleton in Ha as ->. eexists. split.
        -- apply elem_of_app. right. by apply list_elem_of_singleton.
        -- done.
    + intros o aid. rewrite Hadm, Horgs. intros [Ho|Ho]%elem_of_app Haid.
      * destruct (Hlink o aid Ho Haid) as (a & Ha & Hi & Hor). exists a.
        split; [|done]. apply elem_of_app. by left.
      * apply list_elem_of_singleton in Ho as ->. injection Haid as <-.
        exists (created_admin env payload w).
        split; [|done]. apply elem_of_app. right. by apply list_elem_of_singleton.
    + intros k. rewrite Hcolls, Horgs. destruct (decide (k = sl)) as [->|Hne].
      * intros _. exists (created_org env payload w (Some (created_admin_id payload w))).
        split; [|done]. apply elem_of_app. right. by apply list_elem_of_singleton.
      * rewrite lookup_insert_ne by done. intros Hk.
        destruct (Hreg k Hk) as (o & Ho & Hs). exists o.
        split; [|done]. apply elem_of_app. by left.
Qed.

Lemma regions_ok_rename w w' org cur new_name new now colls2 :
  directory_ok w -> regions_ok w ->
  find_one (has_slug cur) (orgs w) = Some org ->
  (forall k, k <> new -> colls2 !! k = colls w !! k) ->
  orgs w' = update_one (has_org_id (org_id org))
              (org_apply (rename_updates new_name new now)) (orgs w) ->
  colls w' = delete cur colls2 ->
  regions_ok w'.
Proof.
  intros (Hids & _ & _) Hreg Horg Hframe Horgs Hcolls k.
  destruct (find_one_some _ _ _ Horg) as [Hin Hcur]. apply String.eqb_eq in Hcur.
  rewrite Hcolls, Horgs. destruct (decide (k = cur)) as [->|Hk].
  { rewrite lookup_delete_eq. by intros []. }
  rewrite lookup_delete_ne by done.
  destruct (decide (k = new)) as [->|Hn].
  - intros _. exists (org_apply (rename_updates new_name new now) org).
    split; [by apply update_one_self|done].
  - rewrite Hframe by done. intros Hsome.
    destruct (Hreg k Hsome) as (o & Ho & Hs). exists o. split; [|done].
    apply update_one_other; try done. congruence.
Qed.

Lemma store_ok_update env payload w :
  store_ok w -> store_ok (final (update_organization env payload) w).
Proof.
  intros (Hdir & Hadm0 & Hcred & Hlink & Hreg).
  split; [by apply update_preserves_directory_ok|].
  unfold final. rewrite run_update_organization.
  destruct (find_one _ (orgs w)) as [org|] eqn:Horg; [|done].
  destruct (renames_to payload) as [[nn ns]|] eqn:Hren.
  - destruct (find_one (has_slug ns) (orgs w)) as [c|] eqn:Hfree.
    { by rewrite run_bind, (run_rename_conflict _ _ _ _ _ _ _ c Hfree). }
    destruct (renames_to_inv _ _ _ Hren) as [Hne _].
    destruct (find_one_some _ _ _ Horg) as [Hin _].
    destruct (run_rename env w org _ nn ns (clock w) Hne Hfree Hin)
      as (w2 & copies & d & Hrun & Hs & _).
    cbn zeta in Hrun. rewrite run_bind, Hrun. cbn [fst snd].
    set (updates := rename_updates nn ns (clock w)) in *.
    set (w4 := set_colls _ _) in *.
    pose proof (update_tail_final env payload (Some (org_apply updates d)) (clock w) updates w4)
      as (Ho & Hc & Ha).
    destruct (run (update_tail _ _ _ _ _) w4) as [[o5 w5] l5]. unfold logged. cbn [fst snd] in *.
    destruct Hs as (Horgs2 & Hadm2 & _ & Hframe & _).
    assert (Hk : admin_keys <$> admins w5 = admin_keys <$> admins w).
    { rewrite Ha. subst w4. cbn. by rewrite Hadm2. }
    assert (Hok : org_keys <$> orgs w5 = org_keys <$> orgs w).
    { rewrite Ho. subst w4. cbn. apply update_one_org_keys. }
    split; [by rewrite (admin_keys_ids _ _ Hk)|]. split; [|split].
    + eapply credentials_ok_keys; [exact Hk|by apply org_keys_ids|done].
    + eapply admin_links_ok_keys; [exact Hk|exact Hok|done].
    + eapply (regions_ok_rename w w5 org); [done|done|exact Horg|exact Hframe| |].
      * rewrite Ho. by subst w4.
      * rewrite Hc. by subst w4.
  - pose proof (update_tail_final env payload (Some org) (clock w) [] w) as (Ho & Hc & Ha).
    destruct (run (update_tail _ _ _ _ _) w) as [[o5 w5] l5]. unfold logged. cbn [fst snd] in *.
    split; [by rewrite (admin_keys_ids _ _ Ha)|]. split; [|split].
    + eapply credentials_ok_keys; [exact Ha|by rewrite Ho|done].
    + eapply admin_links_ok_keys; [exact Ha|by rewrite Ho|done].
    + intros k. rewrite Hc, Ho. apply Hreg.
Qed.

Lemma store_ok_delete payload cred w :
  store_ok w -> store_ok (final (delete_organization payload cred) w).
Proof.
  intros (Hdir & Hadm0 & Hcred & Hlink & Hreg).
  split; [by apply delete_preserves_directory_ok|].
  unfold final, delete_organization.
  rewrite run_await. cbn [exec fst snd].
  destruct (find_one _ (orgs w)) as [org|] eqn:Horg; [|done].
  destruct (negb _); [done|].
  rewrite run_try_pass. cbn [exec snd]. rewrite run_await. cbn [exec fst snd].
  rewrite run_await. cbn [exec fst snd run].
  destruct Hdir as (Hids & Hslugs & _).
  destruct (find_one_some _ _ _ Horg) as [Hin Hsl]. apply String.eqb_eq in Hsl.
  assert (Horgs : forall o, o ∈ delete_one (has_org_id (org_id org)) (orgs w) <->
                            o ∈ orgs w /\ o <> org)
    by (intros o; by apply delete_one_unique).
  split; [|split; [|split]].
  - cbn [admins orgs set_orgs set_admins set_colls].
    eapply sublist_NoDup; [exact Hadm0|]. apply fmap_sublist, delete_many_sublist.
  - intros a. cbn [admins orgs set_orgs set_admins set_colls].
    rewrite delete_many_elem. cbn [admin_matches]. intros [Ha Hno].
    apply String.eqb_neq in Hno.
    destruct (Hcred a Ha) as (o & Ho & Heq). exists o. split; [|done].
    apply Horgs. split; [done|]. intros ->. done.
  - intros o aid. cbn [admins orgs set_orgs set_admins set_colls].
    intros [Ho Hne]%Horgs Haid.
    destruct (Hlink o aid Ho Haid) as (a & Ha & Hi & Hor). exists a.
    split; [|done]. apply delete_many_elem. split; [done|].
    cbn [admin_matches]. apply String.eqb_neq. rewrite Hor.
    intros Heq%(inj pretty). apply Hne.
    by apply (NoDup_fmap_eq org_id (orgs w)).
  - intros k. cbn [colls orgs set_orgs set_admins set_colls].
    destruct (decide (k = slugify_org (delete_organization_name payload))) as [->|Hk].
    { rewrite lookup_delete_eq. by intros []. }
    rewrite lookup_delete_ne by done. intros Hsome.
    destruct (Hreg k Hsome) as (o & Ho & Hs). exists o. split; [|done].
    apply Horgs. split; [done|]. intros ->. congruence.
Qed.

Lemma store_ok_at_time w now : store_ok w -> store_ok (at_time w now).
Proof. done. Qed.

Lemma store_ok_serve env w r : store_ok w -> store_ok (serve env w r).
Proof.
  intros Hok%(store_ok_at_time w r.1). unfold serve.
  set (w0 := at_time w r.1) in *. clearbody w0.
  destruct r.2 as [p|name|a p|token p|p].
  - by apply store_ok_create.
  - unfold final, get_organization. rewrite run_await. cbn [exec fst snd].
    by destruct (find_one _ _).
  - by apply store_ok_update.
  - unfold final, delete_org_delete. rewrite run_bind.
    pose proof (run_get_current_admin env token w0) as Hcred.
    destruct (run (get_current_admin env token) w0) as [[[cred|e] w1] l1].
    + destruct Hcred as (-> & _).
      pose proof (store_ok_delete p cred w0 Hok) as Hd. unfold final in Hd.
      by destruct (run (delete_organization p cred) w0) as [[? ?] ?].
    + destruct e; try done. by destruct Hcred as [-> _].
  - unfold final, admin_login. rewrite run_await. cbn [exec fst snd].
    destruct (find_one _ _) as [a|]; [|done].
    destruct (negb _ || negb _); [done|].
    unfold create_jwt. by rewrite run_bind, run_await.
Qed.

(** X17.  Every store that the service reaches from an empty one by
    serving requests to [/org/create], [/org/get], [/org/update],
    [/org/delete] and [/admin/login] one at a time, whatever the
    requests, their order and their times of arrival, is consistent:
    organization records have distinct identifiers and distinct slugs
    and name their region by their slug; credential records have
    distinct identifiers and each belongs to a stored organization; the
    admin that an organization record names is stored and belongs to
    it; and every region is the region of a stored organization. *)
Theorem served_store_ok env rs now :
  store_ok (serve_all env rs (mkWorld [] [] ∅ now)).
Proof.
  unfold serve_all.
  assert (H0 : store_ok (mkWorld [] [] ∅ now)).
  { repeat split; try constructor.
    - by intros a ?%elem_of_nil.
    - by intros o aid ?%elem_of_nil.
    - intros k [x Hx]. cbn [colls] in Hx. by rewrite lookup_empty in Hx. }
  revert H0. generalize (mkWorld [] [] ∅ now).
  induction rs as [|r rs IH]; intros w Hok; [done|].
  cbn [fold_left]. apply IH. by apply store_ok_serve.
Qed.

Lemma linked_admin_found w org aid :
  admin_links_ok w -> org ∈ orgs w -> admin_user_id (org_fields org) = Some aid ->
  is_Some (find_one (admin_matches (ByOrganizationId (oid_str (org_id org)))) (admins w)).
Proof.
  intros Hok Hin Haid. destruct (Hok org aid Hin Haid) as (a & Ha & _ & Horg).
  apply (find_one_elem _ _ a Ha). cbn [admin_matches]. by apply String.eqb_eq.
Qed.

(** X18.  In a store where every admin that an organization record
    names is stored and belongs to it, as in every store the service
    reaches by itself, an update fails with status 500 [Admin record
    missing for organization] only when it asks for new credentials for
    an organization whose record names no admin: one that a create left
    behind when its credential insert was rejected. *)
Theorem update_500_only_for_orphans env w payload :
  let cur := slugify_org (update_organization_name payload) in
  admin_links_ok w ->
  outcome (update_organization env payload) w = Failed admin_missing ->
  exists org,
    find_one (has_slug cur) (orgs w) = Some org /\
    admin_user_id (org_fields org) = None /\
    wants_admin_update payload = true.
Proof.
  intros cur Hok. unfold outcome. rewrite run_update_organization. fold cur.
  destruct (find_one (has_slug cur) (orgs w)) as [org|] eqn:Horg; [|done].
  destruct (find_one_some _ _ _ Horg) as [Hin _].
  assert (Hgoal :
    find_one (admin_matches (ByOrganizationId (oid_str (org_id org)))) (admins w) = None ->
    wants_admin_update payload = true ->
    exists org0, Some org = Some org0 /\ admin_user_id (org_fields org0) = None /\
                 wants_admin_update payload = true).
  { intros Hnone Hw. exists org. split; [done|]. split; [|done].
    destruct (admin_user_id (org_fields org)) as [aid|] eqn:Haid; [|done].
    destruct (linked_admin_found w org aid Hok Hin Haid) as [a Ha]. congruence. }
  destruct (renames_to payload) as [[nn ns]|] eqn:Hren.
  - destruct (find_one (has_slug ns) (orgs w)) as [c|] eqn:Hfree.
    { by rewrite run_bind, (run_rename_conflict _ _ _ _ _ _ _ c Hfree). }
    destruct (run_update_rename env w payload org nn ns Horg Hren Hfree)
      as (w2 & copies & out & w' & tail & Hrun & _ & _ & _ & _ & _ & _ & _ & Hout & _).
    rewrite run_update_organization in Hrun. fold cur in Hrun.
    rewrite Horg, Hren in Hrun. rewrite Hrun. cbn [fst].
    destruct (find_one _ (admins w)); [by subst out|].
    destruct (wants_admin_update payload); [|by subst out]. intros _. by apply Hgoal.
  - destruct (run_update_tail env payload org (clock w) [] w)
      as (out & w' & l & -> & _ & _ & _ & Hout).
    unfold logged. cbn [fst].
    destruct (find_one _ (admins w)); [by subst out|].
    destruct (wants_admin_update payload); [|by subst out]. intros _. by apply Hgoal.
Qed.

Lemma update_500_only_for_orphans_witness :
  exists org,
    find_one (has_slug (slugify_org "Beta")) (orgs Demo.orphan_beta) = Some org /\
    admin_user_id (org_fields org) = None /\
    wants_admin_update Demo.beta_new_email = true.
Proof.
  apply (update_500_only_for_orphans Demo.env Demo.orphan_beta Demo.beta_new_email).
  - intros o aid Ho Haid. vm_compute in Ho.
    apply elem_of_cons in Ho as [->|Ho].
    + eexists. split; [left|]. split; [by injection Haid as <-|reflexivity].
    + apply list_elem_of_singleton in Ho as ->. discriminate Haid.
  - vm_compute. reflexivity.
Defined.

(** ** Renaming into a region that holds documents *)

Lemma insert_unordered_sublist docs : forall c,
  exists added, (insert_unordered c docs).1 = c ++ added /\ sublist added docs.
Proof.
  induction docs as [|d rest IH]; intros c; cbn [insert_unordered].
  - exists []. by rewrite app_nil_r.
  - destruct (existsb (has_doc_id (doc_id d)) c).
    + destruct (IH c) as (added & Hc & Hsub).
      destruct (insert_unordered c rest) as [c1 e1]. exists added.
      split; [done|by apply sublist_cons].
    + destruct (IH (c ++ [d])) as (added & Hc & Hsub). exists (d :: added).
      rewrite Hc. split; [by rewrite <- app_assoc|by apply sublist_skip].
Qed.

Lemma exec_insert_many_sublist name batch w :
  exists added,
    docs_of (exec (InsertMany name batch) w).2 name = docs_of w name ++ added /\
    sublist added batch /\
    forall k, k <> name ->
      docs_of (exec (InsertMany name batch) w).2 k = docs_of w k.
Proof.
  destruct batch as [|b batch].
  { exists []. by rewrite app_nil_r. }
  cbn [exec].
  destruct (insert_unordered_sublist (b :: batch) (docs_of w name)) as (added & Hc & Hsub).
  destruct (insert_unordered (docs_of w name) (b :: batch)) as [c errs]. cbn [fst] in Hc.
  exists added. subst c.
  assert (H : forall r : Exn + unit,
    docs_of (r, set_colls w (<[name := docs_of w name ++ added]> (colls w))).2 name =
      docs_of w name ++ added /\
    forall k, k <> name ->
      docs_of (r, set_colls w (<[name := docs_of w name ++ added]> (colls w))).2 k =
      docs_of w k).
  { intros r. cbn [snd]. split; [apply docs_of_insert_eq|].
    intros k Hk. unfold docs_of. cbn [colls set_colls]. by rewrite lookup_insert_ne. }
  destruct errs; destruct (H (inr tt)) as [H1 H2]; destruct (H (inl BulkWriteError)) as [H3 H4];
    by repeat split.
Qed.

Lemma migrate_appends env name cursor : forall batch count w,
  exists batch' count' w' log added,
    run (migrate env name cursor batch count) w = (Returned (batch', count'), w', log) /\
    docs_of w' name = docs_of w name ++ added /\
    sublist (added ++ batch') (batch ++ cursor) /\
    (forall k, k <> name -> docs_of w' k = docs_of w k).
Proof.
  induction cursor as [|doc cursor IH]; intros batch count w.
  - exists batch, count, w, [], []. by rewrite !app_nil_r.
  - cbn [migrate].
    destruct (BATCH_SIZE env <=? Z.of_nat (length (batch ++ [doc]))).
    + rewrite run_try_pass.
      destruct (exec_insert_many_sublist name (batch ++ [doc]) w) as (a1 & Hd1 & Hs1 & Hf1).
      set (w1 := (exec (InsertMany name (batch ++ [doc])) w).2) in *.
      destruct (IH [] (count + length (batch ++ [doc]))%nat w1)
        as (batch' & count' & w' & log & a2 & -> & Hd2 & Hs2 & Hf2).
      exists batch', count', w', ((w, InsertMany name (batch ++ [doc])) :: log), (a1 ++ a2).
      split; [done|]. split; [by rewrite Hd2, Hd1, app_assoc|]. split.
      * cbn [app] in Hs2. rewrite <- (app_assoc a1 a2 batch'), (cons_middle doc batch cursor),
          (app_assoc batch [doc] cursor).
        by apply sublist_app.
      * intros k Hk. by rewrite Hf2, Hf1.
    + destruct (IH (batch ++ [doc]) count w)
        as (batch' & count' & w' & log & added & -> & Hd & Hs & Hf).
      exists batch', count', w', log, added. split; [done|]. split; [done|].
      split; [|done]. by rewrite <- app_assoc in Hs.
Qed.

Lemma exec_update_one_colls id updates w :
  colls (exec (OrgsUpdateOne id updates) w).2 = colls w.
Proof.
  cbn [exec]. destruct (find_one _ (orgs w)); [|done]. by destruct (existsb _ _).
Qed.

Lemma rename_finish_colls id (updates : list OrgSet) cur new w r w' l :
  run (await (OrgsUpdateOne id updates) ;;
       try_pass (DropCollection cur) ;;
       org <- await (OrgsFindOne new) ;;
       Ret (updates, org))%prog w = (Returned r, w', l) ->
  colls w' = delete cur (colls w).
Proof.
  rewrite run_await. pose proof (exec_update_one_colls id updates w) as Hc.
  destruct (exec (OrgsUpdateOne id updates) w) as [[e|[]] w3]; cbn [fst snd] in *; [done|].
  rewrite run_try_pass. cbn [exec snd]. rewrite run_await. cbn [exec fst snd run].
  intros [= _ <- _]. cbn [colls set_colls]. by rewrite Hc.
Qed.

Lemma docs_of_delete_ne w cur k m :
  k <> cur -> colls w = delete cur m -> default [] (colls w !! k) = default [] (m !! k).
Proof. intros Hk ->. by rewrite lookup_delete_ne. Qed.

Lemma rename_appends env w org cur nn ns now r w' l :
  ns <> cur ->
  find_one (has_slug ns) (orgs w) = None ->
  run (rename env org cur nn ns now) w = (Returned r, w', l) ->
  exists added,
    docs_of w' ns = docs_of w ns ++ added /\
    sublist added (docs_of w cur) /\
    forall k, k <> ns -> k <> cur -> docs_of w' k = docs_of w k.
Proof.
  intros Hne Hfree. unfold rename.
  rewrite run_await. cbn [exec fst snd]. rewrite Hfree.
  rewrite run_try_pass. set (w1 := (exec (CreateCollection ns) w).2).
  rewrite run_await. cbn [exec fst snd].
  assert (H1 : forall k, docs_of w1 k = docs_of w k)
    by (intros k; apply docs_of_create_collection).
  rewrite run_bind.
  destruct (migrate_appends env ns (docs_of w1 cur) [] O w1)
    as (batch & count & wm & log & a1 & -> & Hd1 & Hs1 & Hf1).
  cbn [app] in Hs1. rewrite H1 in Hs1, Hd1.
  destruct batch as [|b batch].
  - cbn [bind].
    destruct (run _ wm) as [[[r2|e2] w2] l2] eqn:Hfin; [|done].
    apply rename_finish_colls in Hfin. intros [= _ <- _].
    exists a1. rewrite app_nil_r in Hs1. split; [|split; [done|]].
    + unfold docs_of at 1. rewrite (docs_of_delete_ne w2 cur ns (colls wm)) by done.
      exact Hd1.
    + intros k Hk1 Hk2. unfold docs_of at 1.
      rewrite (docs_of_delete_ne w2 cur k (colls wm)) by done.
      fold (docs_of wm k). by rewrite Hf1, H1.
  - rewrite run_try_pass_ret.
    destruct (exec_insert_many_sublist ns (b :: batch) wm) as (a2 & Hd2 & Hs2 & Hf2).
    set (w2 := (exec (InsertMany ns (b :: batch)) wm).2) in *.
    destruct (run _ w2) as [[[r3|e3] w3] l3] eqn:Hfin; [|done].
    apply rename_finish_colls in Hfin. intros [= _ <- _].
    exists (a1 ++ a2). split; [|split].
    + unfold docs_of at 1. rewrite (docs_of_delete_ne w3 cur ns (colls w2)) by done.
      fold (docs_of w2 ns). by rewrite Hd2, Hd1, app_assoc.
    + etransitivity; [|exact Hs1]. by apply sublist_app.
    + intros k Hk1 Hk2. unfold docs_of at 1.
      rewrite (docs_of_delete_ne w3 cur k (colls w2)) by done.
      fold (docs_of w2 k). by rewrite Hf2, Hf1, H1.
Qed.

(** X19.  A rename that returns only appends to the destination
    region, and only documents of the source region: what the
    destination held before is still there, in place and unchanged,
    followed by source documents in scan order (those whose identifier
    the destination already had are skipped); every region other than
    the source and the destination holds what it held. *)
Theorem rename_only_appends_source_documents env w payload n out w' log :
  let cur := slugify_org (update_organization_name payload) in
  let new := slugify_org (strip n) in
  new_organization_name payload = Some n ->
  truthy (Some n) = true ->
  new <> cur ->
  run (update_organization env payload) w = (Returned out, w', log) ->
  exists added,
    docs_of w' new = docs_of w new ++ added /\
    sublist added (docs_of w cur) /\
    forall k, k <> new -> k <> cur -> docs_of w' k = docs_of w k.
Proof.
  intros cur new Hn Ht Hne.
  pose proof (renames_to_some _ _ Hn Ht Hne) as Hren. fold new in Hren.
  rewrite run_update_organization. fold cur.
  destruct (find_one (has_slug cur) (orgs w)) as [org|] eqn:Horg; [|done].
  rewrite Hren.
  destruct (find_one (has_slug new) (orgs w)) as [c|] eqn:Hfree.
  { by rewrite run_bind, (run_rename_conflict _ _ _ _ _ _ _ c Hfree). }
  rewrite run_bind.
  destruct (run (rename _ _ _ _ _ _) w) as [[[r|e] w4] l4] eqn:Hrun; [|done].
  destruct (rename_appends env w org cur (strip n) new (clock w) r w4 l4 Hne Hfree Hrun)
    as (added & Hd & Hs & Hf).
  pose proof (update_tail_final env payload r.2 (clock w) r.1 w4) as (_ & Hc & _).
  destruct (run (update_tail _ _ _ _ _) w4) as [[o5 w5] l5]. unfold logged.
  cbn [fst snd] in *. intros [= _ <- _]. exists added.
  unfold docs_of in *. rewrite Hc. done.
Qed.

Lemma rename_only_appends_source_documents_witness :
  let w := Demo.five_docs in
  let w' := final (update_organization Demo.env Demo.rename_acme) w in
  let cur := slugify_org "Acme Inc" in
  let new := slugify_org (strip "Acme Corp") in
  exists added,
    docs_of w' new = docs_of w new ++ added /\
    sublist added (docs_of w cur) /\
    forall k, k <> new -> k <> cur -> docs_of w' k = docs_of w k.
Proof.
  apply (rename_only_appends_source_documents Demo.env Demo.five_docs Demo.rename_acme
           "Acme Corp"
           (mkUpdateOut (rename_updates "Acme Corp" "org_acme-corp" 1700000000))
           (final (update_organization Demo.env Demo.rename_acme) Demo.five_docs)
           (run (update_organization Demo.env Demo.rename_acme) Demo.five_docs).2).
  - reflexivity.
  - reflexivity.
  - vm_compute. discriminate.
  - vm_compute. reflexivity.
Defined.

(** ** Credentials of other organizations *)

Lemma update_one_miss {A} (q : A -> bool) f c x :
  x ∈ c -> q x = false -> x ∈ update_one q f c.
Proof.
  induction c as [|y c IH]; [by intros ?%elem_of_nil|].
  intros Hx Hq. cbn [update_one]. destruct (q y) eqn:Hy.
  - apply elem_of_cons in Hx as [->|Hx]; [congruence|by right].
  - apply elem_of_cons in Hx as [->|Hx]; [by left|]. right. by apply IH.
Qed.

Lemma update_tail_admins env payload o now updates w :
  let w' := (run (update_tail env payload (Some o) now updates) w).1.2 in
  admins w' = admins w \/
  exists a sets,
    find_one (admin_matches (ByOrganizationId (oid_str (org_id o)))) (admins w) = Some a /\
    admins w' = update_one (has_admin_id (admin_id a)) (admin_apply sets) (admins w).
Proof.
  unfold update_tail.
  destruct (truthy (update_email payload) || truthy (update_password payload)); [|by left].
  rewrite run_bind. unfold update_admin.
  rewrite run_await. cbn [exec fst snd].
  destruct (find_one _ (admins w)) as [a|] eqn:Ha; [|by left].
  destruct (update_email payload) as [[|c e]|], (update_password payload) as [[|c' p]|];
    cbn; try (by left); right; by eexists a, _.
Qed.

(** X20.  When credential records have distinct identifiers, an
    update, whatever it asks for and however it ends, leaves every
    credential record of another organization in the store, unchanged:
    it writes at most the first record that carries the identifier of
    the organization it addresses. *)
Theorem update_leaves_other_credentials env w payload org a :
  let cur := slugify_org (update_organization_name payload) in
  NoDup (admin_id <$> admins w) ->
  find_one (has_slug cur) (orgs w) = Some org ->
  a ∈ admins w ->
  organization_id a <> oid_str (org_id org) ->
  a ∈ admins (final (update_organization env payload) w).
Proof.
  intros cur Hnd Horg Ha Hother.
  assert (Htail : forall o updates w4,
            org_id o = org_id org -> admins w4 = admins w ->
            a ∈ admins (run (update_tail env payload (Some o) (clock w) updates) w4).1.2).
  { intros o updates w4 Hid Hadm.
    destruct (update_tail_admins env payload o (clock w) updates w4)
      as [->|(a0 & sets & Hfind & ->)]; [by rewrite Hadm|].
    rewrite Hadm in *. rewrite Hid in Hfind.
    destruct (find_one_some _ _ _ Hfind) as [Hin0 Horg0].
    cbn [admin_matches] in Horg0. apply String.eqb_eq in Horg0.
    apply update_one_miss; [done|]. apply String.eqb_neq. intros Heq.
    assert (a = a0) by (by apply (NoDup_fmap_eq admin_id (admins w))). congruence. }
  unfold final. rewrite run_update_organization. fold cur. rewrite Horg.
  destruct (renames_to payload) as [[nn ns]|] eqn:Hren.
  - destruct (find_one (has_slug ns) (orgs w)) as [c|] eqn:Hfree.
    { by rewrite run_bind, (run_rename_conflict _ _ _ _ _ _ _ c Hfree). }
    destruct (renames_to_inv _ _ _ Hren) as [Hne _]. fold cur in Hne.
    destruct (find_one_some _ _ _ Horg) as [Hin _].
    destruct (run_rename env w org cur nn ns (clock w) Hne Hfree Hin)
      as (w2 & copies & d & Hrun & Hs & _ & _ & _ & Hd & _).
    cbn zeta in Hrun. rewrite run_bind, Hrun. cbn [fst snd].
    set (w4 := set_colls _ _).
    specialize (Htail (org_apply (rename_updates nn ns (clock w)) d)
                  (rename_updates nn ns (clock w)) w4).
    destruct (run (update_tail _ _ _ _ _) w4) as [[o5 w5] l5]. unfold logged.
    cbn [fst snd] in *. apply Htail.
    + cbn [org_id org_apply]. by apply find_by_id_id in Hd.
    + subst w4. cbn [admins set_colls set_orgs]. apply Hs.
  - specialize (Htail org [] w eq_refl eq_refl).
    by destruct (run (update_tail _ _ _ _ _) w) as [[o5 w5] l5].
Qed.

Lemma update_leaves_other_credentials_witness :
  Demo.beta_admin ∈
    admins (final (update_organization Demo.env Demo.acme_new_credentials) Demo.two_orgs).
Proof.
  apply (update_leaves_other_credentials Demo.env Demo.two_orgs Demo.acme_new_credentials
           Demo.acme_record Demo.beta_admin).
  - apply (bool_decide_unpack _). vm_compute. exact I.
  - vm_compute. reflexivity.
  - vm_compute. right. left.
  - vm_compute. discriminate.
Defined.
